(** * Remote render UI: the control form and the client's entry point

    A shallow embedding of [src/ControlsForm.cpp] (the sample-count
    conversion, the constructor's control bindings, the two subscription
    callbacks and the PFM export) and of the client's [main], together
    with the properties the design document states about them.

    Single-precision values are IEEE 754 binary32 numbers, modelled with
    the Standard Library's [SpecFloat] at precision 24 and maximal
    exponent 128; the double-precision intermediate of the field-of-view
    callback uses precision 53 and maximal exponent 1024.  Both are
    evaluated in round-to-nearest-even, the default rounding mode of the
    C++ run time. *)

From Stdlib Require Import ZArith Lia List String Ascii QArith Qabs.
From Stdlib Require Import SpecFloat DecimalString Qround.
From stdpp Require Import gmap strings list.

Local Open Scope Z_scope.

(** ** IEEE 754 binary32 and binary64 arithmetic *)

Module Binary32.
Definition prec : Z := 24.
Definition emax : Z := 128.

Definition valid (x : spec_float) : bool := valid_binary prec emax x.

Definition mul : spec_float -> spec_float -> spec_float := SFmul prec emax.
Definition div : spec_float -> spec_float -> spec_float := SFdiv prec emax.
Definition sub : spec_float -> spec_float -> spec_float := SFsub prec emax.

(** Conversion of an integer to [float] (round to nearest even). *)
Definition of_Z (z : Z) : spec_float := binary_normalize prec emax z 0 false.

(** The literal [n / 10^k] written as a decimal constant with suffix
    [f]: numerator and denominator are exact, the quotient is rounded
    once. *)
Definition of_decimal (num den : Z) : spec_float := div (of_Z num) (of_Z den).

Definition zero : spec_float := S754_zero false.
Definition one : spec_float := of_Z 1.

Definition leb : spec_float -> spec_float -> bool := SFleb.
Definition eqb : spec_float -> spec_float -> bool := SFeqb.

(** Conversion of a [float] to an integer type discards the fractional
    part (truncation toward zero).  Infinities and NaN have no integer
    value. *)
Definition trunc (x : spec_float) : option Z :=
  match x with
  | S754_zero _ => Some 0
  | S754_finite s m e => Some (cond_Zopp s (Z.shiftl (Zpos m) e))
  | S754_infinity _ | S754_nan => None
  end.

(** Conversion to [std::uint32_t]: undefined ([None]) when the truncated
    value is not representable. *)
Definition to_uint32 (x : spec_float) : option Z :=
  match trunc x with
  | Some z => if (0 <=? z) && (z <? 2 ^ 32) then Some z else None
  | None => None
  end.
End Binary32.

Module Binary64.
Definition prec : Z := 53.
Definition emax : Z := 1024.

Definition mul : spec_float -> spec_float -> spec_float := SFmul prec emax.
Definition div : spec_float -> spec_float -> spec_float := SFdiv prec emax.

(** Widening a [float] to [double] is exact. *)
Definition of_binary32 (x : spec_float) : spec_float :=
  match x with
  | S754_finite s m e => binary_normalize prec emax (cond_Zopp s (Zpos m)) e s
  | _ => x
  end.

(** Narrowing a [double] to [float] rounds to nearest even. *)
Definition to_binary32 (x : spec_float) : spec_float :=
  match x with
  | S754_finite s m e =>
      binary_normalize Binary32.prec Binary32.emax (cond_Zopp s (Zpos m)) e s
  | _ => x
  end.

(** [M_PI] of <cmath>: 3.14159265358979323846 as a [double],
    0x1.921fb54442d18p+1. *)
Definition M_PI : spec_float := S754_finite false 7074237752028440 (-51).
End Binary64.

(** ** The sample-count conversion *)

(** [std::uint32_t convertSampleValue(float value)]: the product
    [value * 16] is a [float] multiplication (16 is converted to
    [float]), the initialisation of [sampleCount] converts it to
    [std::uint32_t].  [None] stands for the undefined conversion of an
    out-of-range, infinite or NaN product. *)
Definition convertSampleValue (value : spec_float) : option Z :=
  match Binary32.to_uint32 (Binary32.mul value (Binary32.of_Z 16)) with
  | Some sampleCount => Some (Z.max sampleCount 1)
  | None => None
  end.

(** A [float] in the closed interval from 0 to 1. *)
Definition in_unit_interval (v : spec_float) : Prop :=
  Binary32.valid v = true /\
  Binary32.leb Binary32.zero v = true /\
  Binary32.leb v Binary32.one = true.

(** The integer part of sixteen times a number of the unit interval. *)
Definition sixteenfold (v : spec_float) : Z :=
  match v with
  | S754_finite false m e => Z.shiftl (Zpos m) (e + 4)
  | _ => 0
  end.

(** ** Packets and the outbound multiplexer *)

(** The payloads exchanged with the render server, as the codec decodes
    them. *)
Inductive value :=
| VFloat (x : spec_float)
| VBool (b : bool)
| VString (s : string)
| VUInt32s (data : list Z).

(** [PacketMuxer]: the packets handed to the transport, oldest first. *)
Definition PacketMuxer := list (string * value).

Definition serialise (sender : PacketMuxer) (name : string) (v : value)
  : PacketMuxer :=
  sender ++ [(name, v)].

(** The payloads published on one channel, oldest first. *)
Definition sent_on (name : string) (sender : PacketMuxer) : list value :=
  map snd (List.filter (fun p => String.eqb (fst p) name) sender).

(** ** Widgets *)

(** [nanogui::Slider]: [set_value] stores the displayed value and nothing
    else; the callback runs on user edits only. *)
Record Slider := {
  m_value : spec_float;
  m_callback : option (spec_float -> PacketMuxer -> PacketMuxer)
}.

Inductive slider_id :=
| fovSlider | exposureSlider | gammaSlider
| XSlider | YSlider | lambda1Slider | lambda2Slider.

Definition slider_id_eqb (a b : slider_id) : bool :=
  match a, b with
  | fovSlider, fovSlider | exposureSlider, exposureSlider
  | gammaSlider, gammaSlider | XSlider, XSlider | YSlider, YSlider
  | lambda1Slider, lambda1Slider | lambda2Slider, lambda2Slider => true
  | _, _ => false
  end.

(** [nanogui::Graph] *)
Record Graph := {
  m_caption : string;
  m_header : string;
  m_values : list spec_float
}.

(** The widgets of the window, one field for each object the constructor
    creates and later reaches. *)
Record Widgets := {
  w_fovSlider : Slider;
  w_exposureSlider : Slider;
  w_gammaSlider : Slider;
  w_XSlider : Slider;
  w_YSlider : Slider;
  w_lambda1Slider : Slider;
  w_lambda2Slider : Slider;
  hist : Graph;
  rotationWheel : option (spec_float -> PacketMuxer -> PacketMuxer);
  deviceChooser : option (Z -> PacketMuxer -> option PacketMuxer);
  stopButton : option (PacketMuxer -> PacketMuxer)
}.

Definition sliders (w : Widgets) (s : slider_id) : Slider :=
  match s with
  | fovSlider => w_fovSlider w
  | exposureSlider => w_exposureSlider w
  | gammaSlider => w_gammaSlider w
  | XSlider => w_XSlider w
  | YSlider => w_YSlider w
  | lambda1Slider => w_lambda1Slider w
  | lambda2Slider => w_lambda2Slider w
  end.

(** Modelled from the spec: [packets::HdrHeader] is declared in
    [PacketDescriptions.hpp], which is not among the sources; the frame
    header has a width and a height, and the form initialises three
    integer fields with [{0,0,0}].  Width and height are taken to be
    [std::int32_t], so that the row counter [r] of the export is an [int],
    as its loop test [r >= 0] requires. *)
Record HdrHeader := { width : Z; height : Z; packets : Z }.

(** What a callback can reach: the widgets, and through the widgets'
    own callbacks the sender they publish on. *)
Record GUI := { g_widgets : Widgets; g_sender : PacketMuxer }.

(** A subscription callback receives the decoded packet; [None] is a
    packet the codec cannot decode to the requested type. *)
Abbreviation subscription := (value -> GUI -> option GUI).

Record ControlsForm := {
  hdrHeader : HdrHeader;
  hdrBuffer : list spec_float;
  widgets : Widgets;
  subs : gmap string subscription
}.

Definition set_slider (s : slider_id) (x : Slider) (w : Widgets) : Widgets :=
  {| w_fovSlider := if slider_id_eqb s fovSlider then x else w_fovSlider w;
     w_exposureSlider :=
       if slider_id_eqb s exposureSlider then x else w_exposureSlider w;
     w_gammaSlider := if slider_id_eqb s gammaSlider then x else w_gammaSlider w;
     w_XSlider := if slider_id_eqb s XSlider then x else w_XSlider w;
     w_YSlider := if slider_id_eqb s YSlider then x else w_YSlider w;
     w_lambda1Slider :=
       if slider_id_eqb s lambda1Slider then x else w_lambda1Slider w;
     w_lambda2Slider :=
       if slider_id_eqb s lambda2Slider then x else w_lambda2Slider w;
     hist := hist w;
     rotationWheel := rotationWheel w;
     deviceChooser := deviceChooser w;
     stopButton := stopButton w |}.

Definition set_hist (g : Graph) (w : Widgets) : Widgets :=
  {| w_fovSlider := w_fovSlider w; w_exposureSlider := w_exposureSlider w;
     w_gammaSlider := w_gammaSlider w; w_XSlider := w_XSlider w;
     w_YSlider := w_YSlider w; w_lambda1Slider := w_lambda1Slider w;
     w_lambda2Slider := w_lambda2Slider w;
     hist := g; rotationWheel := rotationWheel w;
     deviceChooser := deviceChooser w; stopButton := stopButton w |}.

Definition set_rotationWheel (cb : spec_float -> PacketMuxer -> PacketMuxer)
    (w : Widgets) : Widgets :=
  {| w_fovSlider := w_fovSlider w; w_exposureSlider := w_exposureSlider w;
     w_gammaSlider := w_gammaSlider w; w_XSlider := w_XSlider w;
     w_YSlider := w_YSlider w; w_lambda1Slider := w_lambda1Slider w;
     w_lambda2Slider := w_lambda2Slider w;
     hist := hist w; rotationWheel := Some cb;
     deviceChooser := deviceChooser w; stopButton := stopButton w |}.

Definition set_deviceChooser (cb : Z -> PacketMuxer -> option PacketMuxer)
    (w : Widgets) : Widgets :=
  {| w_fovSlider := w_fovSlider w; w_exposureSlider := w_exposureSlider w;
     w_gammaSlider := w_gammaSlider w; w_XSlider := w_XSlider w;
     w_YSlider := w_YSlider w; w_lambda1Slider := w_lambda1Slider w;
     w_lambda2Slider := w_lambda2Slider w;
     hist := hist w; rotationWheel := rotationWheel w;
     deviceChooser := Some cb; stopButton := stopButton w |}.

Definition set_stopButton (cb : PacketMuxer -> PacketMuxer) (w : Widgets)
  : Widgets :=
  {| w_fovSlider := w_fovSlider w; w_exposureSlider := w_exposureSlider w;
     w_gammaSlider := w_gammaSlider w; w_XSlider := w_XSlider w;
     w_YSlider := w_YSlider w; w_lambda1Slider := w_lambda1Slider w;
     w_lambda2Slider := w_lambda2Slider w;
     hist := hist w; rotationWheel := rotationWheel w;
     deviceChooser := deviceChooser w; stopButton := Some cb |}.

Definition on_g_widgets (f : Widgets -> Widgets) (g : GUI) : GUI :=
  {| g_widgets := f (g_widgets g); g_sender := g_sender g |}.

(** [Slider::set_value]: [m_value = value]. *)
Definition Slider_set_value (s : slider_id) (v : spec_float) : GUI -> GUI :=
  on_g_widgets (fun w =>
    set_slider s {| m_value := v; m_callback := m_callback (sliders w s) |} w).

(** [Slider::set_callback]: [m_callback = callback]. *)
Definition Slider_set_callback (s : slider_id)
    (cb : spec_float -> PacketMuxer -> PacketMuxer) : GUI -> GUI :=
  on_g_widgets (fun w =>
    set_slider s {| m_value := m_value (sliders w s); m_callback := Some cb |} w).

(** [Graph::set_header] and [Graph::set_values]. *)
Definition Graph_set_header (h : string) : GUI -> GUI :=
  on_g_widgets (fun w =>
    set_hist {| m_caption := m_caption (hist w); m_header := h;
                m_values := m_values (hist w) |} w).

Definition Graph_set_values (values : list spec_float) : GUI -> GUI :=
  on_g_widgets (fun w =>
    set_hist {| m_caption := m_caption (hist w); m_header := m_header (hist w);
                m_values := values |} w).

(** ** Single-precision constants of the form *)

Definition f360 : spec_float := Binary32.of_Z 360.
Definition f2 : spec_float := Binary32.of_Z 2.
Definition f4 : spec_float := Binary32.of_Z 4.
Definition f_half : spec_float := Binary32.of_decimal 5 10.

(** [2.f * M_PI]: the [float] operand is widened, the product is a
    [double]. *)
Definition two_pi : spec_float :=
  Binary64.mul (Binary64.of_binary32 f2) Binary64.M_PI.

(** ** The subscription callbacks *)

(** The ["fov"] subscription: [fovSlider->set_value(fovRadians / (2.f * M_PI))].
    The quotient is a [double], narrowed by the call. *)
Definition fov_update (packet : value) (g : GUI) : option GUI :=
  match packet with
  | VFloat fovRadians =>
      Some (Slider_set_value fovSlider
              (Binary64.to_binary32
                 (Binary64.div (Binary64.of_binary32 fovRadians) two_pi)) g)
  | _ => None
  end.

(** [std::to_string] and [operator<<] on integers. *)
Definition to_string (z : Z) : string := NilZero.string_of_int (Z.to_int z).

(** The maximum loop of the histogram callback, started at [0]. *)
Definition histogram_max (data : list Z) : Z :=
  fold_left (fun max v => if max <? v then v else max) data 0.

Definition histogram_scale (data : list Z) : spec_float :=
  Binary32.div Binary32.one (Binary32.of_Z (histogram_max data)).

(** The normalisation loop: [dataf.push_back(v * scale)]. *)
Definition histogram_normalise (data : list Z) : list spec_float :=
  map (fun v => Binary32.mul (Binary32.of_Z v) (histogram_scale data)) data.

(** The ["tile_histogram"] subscription. *)
Definition tile_histogram (packet : value) (g : GUI) : option GUI :=
  match packet with
  | VUInt32s data =>
      let dataf := histogram_normalise data in
      Some (Graph_set_values dataf
              (Graph_set_header ("max tile: " +:+ to_string (histogram_max data))
                 g))
  | _ => None
  end.

(** ** Construction of the form *)

(** The constructor runs in a state of the form's widgets and
    subscriptions and of the sender it was given; a failing step is a call
    through an empty [std::function]. *)
Record World := {
  w_gui : GUI;
  w_subs : gmap string subscription
}.

Definition Ctor (A : Type) : Type := World -> option (A * World).

#[global] Instance Ctor_ret : MRet Ctor := fun A x σ => Some (x, σ).
#[global] Instance Ctor_bind : MBind Ctor := fun A B f m σ =>
  match m σ with
  | Some (x, σ') => f x σ'
  | None => None
  end.

Definition on_gui (f : GUI -> GUI) : Ctor unit := fun σ =>
  Some (tt, {| w_gui := f (w_gui σ); w_subs := w_subs σ |}).

Definition on_widgets (f : Widgets -> Widgets) : Ctor unit :=
  on_gui (on_g_widgets f).

(** [subs[name] = receiver.subscribe(name, cb)] *)
Definition subscribe (name : string) (cb : subscription) : Ctor unit := fun σ =>
  Some (tt, {| w_gui := w_gui σ; w_subs := <[name := cb]> (w_subs σ) |}).

Definition new_Slider (s : slider_id) : Ctor unit :=
  on_widgets (set_slider s {| m_value := Binary32.zero; m_callback := None |}).

Definition set_callback (s : slider_id)
    (cb : spec_float -> PacketMuxer -> PacketMuxer) : Ctor unit :=
  on_gui (Slider_set_callback s cb).

Definition set_value (s : slider_id) (v : spec_float) : Ctor unit :=
  on_gui (Slider_set_value s v).

Definition get_value (s : slider_id) : Ctor spec_float := fun σ =>
  Some (m_value (sliders (g_widgets (w_gui σ)) s), σ).

(** [s->callback()(v)]: the stored closure runs on the sender it
    captured. *)
Definition call_callback (s : slider_id) (v : spec_float) : Ctor unit := fun σ =>
  match m_callback (sliders (g_widgets (w_gui σ)) s) with
  | Some cb =>
      on_gui (fun g => {| g_widgets := g_widgets g;
                          g_sender := cb v (g_sender g) |}) σ
  | None => None
  end.

Definition rotation_callback (value : spec_float) (sender : PacketMuxer)
  : PacketMuxer :=
  let angle :=
    Binary64.to_binary32
      (Binary64.mul (Binary64.div (Binary64.of_binary32 value) two_pi)
                    (Binary64.of_binary32 f360)) in
  serialise sender "env_rotation" (VFloat angle).

Definition fov_callback (value : spec_float) (sender : PacketMuxer)
  : PacketMuxer :=
  serialise sender "fov" (VFloat (Binary32.mul value f360)).

Definition exposure_callback (value : spec_float) (sender : PacketMuxer)
  : PacketMuxer :=
  let value := Binary32.mul f4 (Binary32.sub value f_half) in
  serialise sender "exposure" (VFloat value).

Definition gamma_callback (value : spec_float) (sender : PacketMuxer)
  : PacketMuxer :=
  let value := Binary32.mul f4 value in
  serialise sender "gamma" (VFloat value).

Definition X_callback (value : spec_float) (sender : PacketMuxer)
  : PacketMuxer :=
  serialise sender "X" (VFloat (Binary32.mul value (Binary32.of_Z 1280))).

Definition Y_callback (value : spec_float) (sender : PacketMuxer)
  : PacketMuxer :=
  serialise sender "Y" (VFloat (Binary32.mul value (Binary32.of_Z 720))).

Definition lambda1_callback (value : spec_float) (sender : PacketMuxer)
  : PacketMuxer :=
  serialise sender "lambda1" (VFloat (Binary32.mul value (Binary32.of_Z 100))).

Definition lambda2_callback (value : spec_float) (sender : PacketMuxer)
  : PacketMuxer :=
  serialise sender "lambda2" (VFloat (Binary32.mul value (Binary32.of_Z 100))).

Definition device_items : list string := ["cpu"; "ipu"]%string.

Definition device_callback (index : Z) (sender : PacketMuxer)
  : option PacketMuxer :=
  if (0 <=? index) && (index <? Z.of_nat (length device_items))
  then Some (serialise sender "device"
               (VString (nth (Z.to_nat index) device_items EmptyString)))
  else None.

(** The stop button also hides the screen, which the form does not own. *)
Definition stop_callback (sender : PacketMuxer) : PacketMuxer :=
  serialise sender "stop" (VBool true).

Definition empty_slider : Slider :=
  {| m_value := Binary32.zero; m_callback := None |}.

Definition empty_widgets : Widgets :=
  {| w_fovSlider := empty_slider; w_exposureSlider := empty_slider;
     w_gammaSlider := empty_slider; w_XSlider := empty_slider;
     w_YSlider := empty_slider; w_lambda1Slider := empty_slider;
     w_lambda2Slider := empty_slider;
     hist := {| m_caption := EmptyString; m_header := EmptyString;
                m_values := [] |};
     rotationWheel := None; deviceChooser := None; stopButton := None |}.

(** The body of [ControlsForm::ControlsForm], in source order; calls that
    only lay widgets out are left out. *)
Definition ControlsForm_body : Ctor unit :=
  (* Scene controls *)
  on_widgets (set_rotationWheel rotation_callback) ;;
  (* Camera controls *)
  new_Slider fovSlider ;;
  set_callback fovSlider fov_callback ;;
  set_value fovSlider (Binary32.div (Binary32.of_Z 90) f360) ;;
  v ← get_value fovSlider; call_callback fovSlider v ;;
  subscribe "fov" fov_update ;;
  (* Render controls *)
  new_Slider exposureSlider ;;
  set_callback exposureSlider exposure_callback ;;
  set_value exposureSlider f_half ;;
  v ← get_value exposureSlider; call_callback exposureSlider v ;;
  new_Slider gammaSlider ;;
  set_callback gammaSlider gamma_callback ;;
  set_value gammaSlider (Binary32.div (Binary32.of_decimal 22 10) f4) ;;
  v ← get_value gammaSlider; call_callback gammaSlider v ;;
  new_Slider XSlider ;;
  set_callback XSlider X_callback ;;
  set_value XSlider (Binary32.div (Binary32.of_Z 640) (Binary32.of_Z 1280)) ;;
  v ← get_value XSlider; call_callback XSlider v ;;
  new_Slider YSlider ;;
  set_callback YSlider Y_callback ;;
  set_value YSlider (Binary32.div (Binary32.of_Z 360) (Binary32.of_Z 720)) ;;
  v ← get_value YSlider; call_callback YSlider v ;;
  new_Slider lambda1Slider ;;
  set_callback lambda1Slider lambda1_callback ;;
  set_value lambda1Slider (Binary32.div (Binary32.of_Z 500) (Binary32.of_Z 10)) ;;
  v ← get_value lambda1Slider; call_callback lambda1Slider v ;;
  new_Slider lambda2Slider ;;
  set_callback lambda2Slider lambda2_callback ;;
  set_value lambda2Slider (Binary32.div (Binary32.of_Z 500) (Binary32.of_Z 10)) ;;
  v ← get_value lambda2Slider; call_callback lambda2Slider v ;;
  (* Info/stats *)
  on_widgets (set_hist {| m_caption := "Splats per tile";
                          m_header := EmptyString; m_values := [] |}) ;;
  subscribe "tile_histogram" tile_histogram ;;
  (* Render status *)
  on_widgets (set_deviceChooser device_callback) ;;
  on_widgets (set_stopButton stop_callback).

(** The constructor: the member initialisers ([hdrHeader{0,0,0}], an empty
    [hdrBuffer]) and the body.  It yields the form and the sender as the
    body left it. *)
Definition ControlsForm_new (sender : PacketMuxer)
  : option (ControlsForm * PacketMuxer) :=
  match ControlsForm_body
          {| w_gui := {| g_widgets := empty_widgets; g_sender := sender |};
             w_subs := ∅ |} with
  | Some (_, σ) =>
      Some ({| hdrHeader := {| width := 0; height := 0; packets := 0 |};
               hdrBuffer := [];
               widgets := g_widgets (w_gui σ);
               subs := w_subs σ |}, g_sender (w_gui σ))
  | None => None
  end.

(** ** The inbound path *)

(** The receiver runs the callback subscribed to the packet's channel;
    a packet without subscriber is dropped. *)
Definition dispatch (name : string) (packet : value)
    (this : ControlsForm) (sender : PacketMuxer)
  : option (ControlsForm * PacketMuxer) :=
  match subs this !! name with
  | Some cb =>
      match cb packet {| g_widgets := widgets this; g_sender := sender |} with
      | Some g => Some ({| hdrHeader := hdrHeader this;
                           hdrBuffer := hdrBuffer this;
                           widgets := g_widgets g;
                           subs := subs this |}, g_sender g)
      | None => None
      end
  | None => Some (this, sender)
  end.

(** The bindings of the form: each pairs a control with a channel. *)
Inductive binding :=
| RotationWheel
| SliderBinding (s : slider_id)
| DeviceChooser
| StopButton.

Definition slider_channel (s : slider_id) : string :=
  match s with
  | fovSlider => "fov"
  | exposureSlider => "exposure"
  | gammaSlider => "gamma"
  | XSlider => "X"
  | YSlider => "Y"
  | lambda1Slider => "lambda1"
  | lambda2Slider => "lambda2"
  end.

Definition channel (b : binding) : string :=
  match b with
  | RotationWheel => "env_rotation"
  | SliderBinding s => slider_channel s
  | DeviceChooser => "device"
  | StopButton => "stop"
  end.

(** ** The PFM export *)

Definition INT_MIN : Z := - 2 ^ 31.
Definition INT_MAX : Z := 2 ^ 31 - 1.

(** Arithmetic on [int]: a result the type cannot hold is undefined. *)
Definition int_of (z : Z) : option Z :=
  if (INT_MIN <=? z) && (z <=? INT_MAX) then Some z else None.

Definition int_mul (a b : Z) : option Z := int_of (a * b).
Definition int_sub (a b : Z) : option Z := int_of (a - b).

(** The binary32 interchange encoding of a canonical number: sign bit,
    biased exponent, trailing significand.  NaN is the quiet NaN without
    payload. *)
Definition bits_of_binary32 (x : spec_float) : Z :=
  let sign (s : bool) := if s then 2 ^ 31 else 0 in
  match x with
  | S754_zero s => sign s
  | S754_infinity s => sign s + 255 * 2 ^ 23
  | S754_nan => 255 * 2 ^ 23 + 2 ^ 22
  | S754_finite s m e => sign s + (e + 149) * 2 ^ 23 + Zpos m
  end.

Definition byte_of_Z (z : Z) : Byte.byte :=
  match Byte.of_N (Z.to_N (z mod 256)) with
  | Some b => b
  | None => Byte.x00
  end.

(** The four bytes of a [float] in memory, least significant first. *)
Definition float_bytes (x : spec_float) : list Byte.byte :=
  let bits := bits_of_binary32 x in
  [byte_of_Z bits; byte_of_Z (bits / 2 ^ 8);
   byte_of_Z (bits / 2 ^ 16); byte_of_Z (bits / 2 ^ 24)].

Definition LF : string := String (ascii_of_nat 10) EmptyString.

(** The characters before the samples. *)
Definition pfm_header (w h : Z) : list Byte.byte :=
  list_byte_of_string ("PF" +:+ LF) ++
  list_byte_of_string (to_string w +:+ " ") ++
  list_byte_of_string (to_string h +:+ LF) ++
  list_byte_of_string ("-1.0" +:+ LF).

(** One pass of the row loop:
    [rowStart = hdrBuffer.data() + (r * width * 3)], then
    [f.write(rowStart, width * 3 * sizeof(float))].  The products are
    [int] products; reading outside the buffer is undefined. *)
Definition write_row (this : ControlsForm) (r : Z) (f : list Byte.byte)
  : option (list Byte.byte) :=
  rw ← int_mul r (width (hdrHeader this));
  offset ← int_mul rw 3;
  count ← int_mul (width (hdrHeader this)) 3;
  if (0 <=? offset) && (0 <=? count)
     && (offset + count <=? Z.of_nat (length (hdrBuffer this)))
  then Some (f ++ flat_map float_bytes
                    (take (Z.to_nat count) (drop (Z.to_nat offset) (hdrBuffer this))))
  else None.

(** [for (auto r = height - 1; r >= 0; --r)] with [n] passes left: the
    next pass has [r = n - 1], the loop ends after the pass with [r = 0]. *)
Fixpoint write_rows (this : ControlsForm) (n : nat) (f : list Byte.byte)
  : option (list Byte.byte) :=
  match n with
  | O => Some f
  | S r => f' ← write_row this (Z.of_nat r) f; write_rows this r f'
  end.

(** [ControlsForm::savePfm], on a file system that maps names to
    contents.  Opening the stream creates or truncates the file. *)
Definition savePfm (fileName : string) (this : ControlsForm)
    (fs : gmap string (list Byte.byte)) : option (gmap string (list Byte.byte)) :=
  match hdrBuffer this with
  | [] => Some fs
  | _ :: _ =>
      let f := pfm_header (width (hdrHeader this)) (height (hdrHeader this)) in
      r ← int_sub (height (hdrHeader this)) 1;
      f' ← write_rows this (Z.to_nat (r + 1)) f;
      Some (<[fileName := f']> fs)
  end.

(** The image file the design document describes: the header, then the
    rows from the bottom one ([h - 1]) to the top one ([0]), three samples
    a pixel. *)
Definition pfm_row (buffer : list spec_float) (w : Z) (r : nat)
  : list Byte.byte :=
  flat_map float_bytes (take (Z.to_nat (w * 3)) (drop (r * Z.to_nat (w * 3)) buffer)).

Definition pfm_image (buffer : list spec_float) (w h : Z) : list Byte.byte :=
  pfm_header w h ++ flat_map (pfm_row buffer w) (rev (seq 0 (Z.to_nat h))).

(** A completed frame: the buffer holds [width * height] pixels of three
    samples. *)
Definition completed_frame (this : ControlsForm) : Prop :=
  Z.of_nat (length (hdrBuffer this))
  = width (hdrHeader this) * height (hdrHeader this) * 3.

(** ** The client's entry point *)

Record Options := {
  opt_port : Z;
  opt_host : string;
  opt_log_level : string;
  opt_nif_paths : string;
  opt_width : Z;
  opt_height : Z;
  opt_kinect : bool
}.

(** What [parseOptions] does with the command line: it returns the
    options, or throws for [--help] ([std::runtime_error]) or for a
    command line it rejects. *)
Inductive parsed :=
| Parsed (args : Options)
| ShowHelp
| Rejected.

(** The surroundings of one run. *)
Record Environment := {
  command_line : parsed;
  (** [read_json]: the map of the file, or the message of the
      [json_parser_error] (a [std::runtime_error]) it throws *)
  read_json : string -> string + list (string * string);
  (** [TcpSocket::Connect] *)
  Connect : string -> Z -> bool;
  (** [DebugGUI::Initialize] *)
  Initialize : Z -> Z -> bool;
  (** how often [BeginFrame] returns [true] before the window closes *)
  frames : nat
}.

(** [boost::log::trivial::severity_level], in increasing order. *)
Inductive severity_level := trace | debug | info | warning | error | fatal.

Definition severity_rank (l : severity_level) : Z :=
  match l with
  | trace => 0 | debug => 1 | info => 2 | warning => 3 | error => 4 | fatal => 5
  end.

(** The filter [logging::trivial::severity >= level] that [main]
    installs: a record passes when its severity is at least [level]. *)
Definition passes (level severity : severity_level) : bool :=
  severity_rank level <=? severity_rank severity.

(** White space of the classic locale. *)
Definition isspace (c : ascii) : bool :=
  let n := nat_of_ascii c in
  Nat.eqb n 32 || (Nat.leb 9 n && Nat.leb n 13).

Fixpoint skip_spaces (s : string) : string :=
  match s with
  | String c rest => if isspace c then skip_spaces rest else s
  | EmptyString => EmptyString
  end.

Fixpoint word (s : string) : string :=
  match s with
  | String c rest => if isspace c then EmptyString else String c (word rest)
  | EmptyString => EmptyString
  end.

(** [ss >> level] on the stream of the [--log-level] text.  Boost reads
    one word, as [operator>>] on a [std::string] does (leading white space
    is skipped, the word ends at the next white space), and assigns the
    level of that name.  For any other word, the names [warn], [err],
    [critical] and [off] of the option's help text among them, it sets the
    fail bit of the stream and leaves [level] as it was: [None]. *)
Definition read_level (logLevel : string) : option severity_level :=
  let str := word (skip_spaces logLevel) in
  if String.eqb str "trace" then Some trace
  else if String.eqb str "debug" then Some debug
  else if String.eqb str "info" then Some info
  else if String.eqb str "warning" then Some warning
  else if String.eqb str "error" then Some error
  else if String.eqb str "fatal" then Some fatal
  else None.

Inductive event :=
| Log (severity : severity_level) (msg : string)
| Connected (host : string) (port : Z)
| GuiCreated
| GuiInitialize (w h : Z)
| GuiFrame
| GuiCleanup
| Disconnected.

(** How the process ends: [main] returns a code; or an exception leaves
    [main] and [std::terminate] ends the process; or the behaviour is
    undefined. *)
Inductive outcome :=
| Returned (code : Z)
| Terminated
| Undefined.

Definition EXIT_SUCCESS : Z := 0.
Definition EXIT_FAILURE : Z := 1.

(** An event that puts something on the screen. *)
Definition is_gui_event (e : event) : bool :=
  match e with
  | GuiCreated | GuiInitialize _ _ | GuiFrame | GuiCleanup => true
  | _ => false
  end.

(** [BOOST_LOG_TRIVIAL(severity) << msg] under the filter in force: the
    record is logged when it passes, and dropped otherwise. *)
Definition BOOST_LOG_TRIVIAL (level severity : severity_level) (msg : string)
  : list event :=
  if passes level severity then [Log severity msg] else [].

(** [std::map::insert]: a key already in the map keeps its value. *)
Definition map_insert (name path : string) (m : gmap string string)
  : gmap string string :=
  match m !! name with
  | Some _ => m
  | None => <[name := path]> m
  end.

(** [jsonFileToMap], under the filter [level] in force ([main] has
    installed it before its call).  The children of the tree [read_json]
    builds are visited in file order; each is inserted under its name with
    its own data as path, and a record of severity [debug] is handed to
    the log for it.  [inl] is the exception of [read_json]. *)
Definition jsonFileToMap (env : Environment) (level : severity_level)
    (file : string) : string + (gmap string string * list event) :=
  match read_json env file with
  | inl what => inl what
  | inr pt =>
      inr (fold_left
             (fun acc p =>
                (map_insert (fst p) (snd p) (fst acc),
                 snd acc ++
                 BOOST_LOG_TRIVIAL level debug
                   ("Loaded NIF entry. Name: '" +:+ fst p
                    +:+ "' remote-path: '" +:+ snd p +:+ "'")))
             pt (∅, []))
  end.

(** The [try] block of [main] under the filter [level]: the events, and
    either the [std::runtime_error] thrown ([inl]) or how the block was
    left ([inr]): [Some code] by a [return], [None] at its end. *)
Definition main_try (env : Environment) (level : severity_level)
    (args : Options) : list event * (string + option Z) :=
  match (if String.eqb (opt_nif_paths args) EmptyString then inr (∅, [])
         else jsonFileToMap env level (opt_nif_paths args)) with
  | inl what => ([], inl what)
  | inr (remoteNifModels, loaded) =>
      let host := opt_host args in
      let port := opt_port args in
      if negb (Connect env host port) then
        (loaded ++
         BOOST_LOG_TRIVIAL level info
           ("Could not conect to server " +:+ host +:+ ":" +:+ to_string port),
         inl "Unable to connect"%string)
      else
        let connected :=
          loaded ++
          [Connected host port] ++
          BOOST_LOG_TRIVIAL level info
            ("Connected to server " +:+ host +:+ ":" +:+ to_string port) ++
          [GuiCreated; GuiInitialize (opt_width args) (opt_height args)] in
        if negb (Initialize env (opt_width args) (opt_height args)) then
          (connected, inr (Some 1))
        else
          (connected ++ repeat GuiFrame (frames env) ++ [GuiCleanup; Disconnected],
           inr None)
  end.

(** [main].  [parseOptions] is called before the [try] block, so what it
    throws ends the process.  The level is read from the [--log-level]
    text into an uninitialised variable; when the text names no level of
    Boost the filter is built from that indeterminate value, which is
    undefined behaviour. *)
Definition main (env : Environment) : list event * outcome :=
  match command_line env with
  | ShowHelp | Rejected => ([], Terminated)
  | Parsed args =>
      match read_level (opt_log_level args) with
      | None => ([], Undefined)
      | Some level =>
          match main_try env level args with
          | (events, inl what) =>
              (events ++ BOOST_LOG_TRIVIAL level error ("Error: " +:+ what),
               Returned EXIT_FAILURE)
          | (events, inr (Some code)) => (events, Returned code)
          | (events, inr None) => (events, Returned EXIT_SUCCESS)
          end
      end
  end.

(** ** Vocabulary of the statements *)

(** The value of a finite number as a rational. *)
Definition to_Q (x : spec_float) : option Q :=
  match x with
  | S754_zero _ => Some 0%Q
  | S754_finite s m e =>
      Some (if 0 <=? e then inject_Z (cond_Zopp s (Zpos m * 2 ^ e))
            else Qmake (cond_Zopp s (Zpos m)) (Z.to_pos (2 ^ (- e))))
  | S754_infinity _ | S754_nan => None
  end.

(** [x] lies within [tol] of [y]. *)
Definition within (tol : Q) (x : option Q) (y : Q) : Prop :=
  match x with
  | Some q => (Qabs (q - y) <= tol)%Q
  | None => False
  end.

(** The value a slider shows after construction, and the value published
    for it. *)
Definition default_value (s : slider_id) : spec_float :=
  match s with
  | fovSlider => Binary32.div (Binary32.of_Z 90) (Binary32.of_Z 360)
  | exposureSlider => Binary32.of_decimal 5 10
  | gammaSlider => Binary32.div (Binary32.of_decimal 22 10) (Binary32.of_Z 4)
  | XSlider => Binary32.div (Binary32.of_Z 640) (Binary32.of_Z 1280)
  | YSlider => Binary32.div (Binary32.of_Z 360) (Binary32.of_Z 720)
  | lambda1Slider | lambda2Slider =>
      Binary32.div (Binary32.of_Z 500) (Binary32.of_Z 10)
  end.

Definition default_published (s : slider_id) : spec_float :=
  match s with
  | fovSlider => Binary32.of_Z 90
  | exposureSlider => Binary32.zero
  | gammaSlider => Binary32.of_decimal 22 10
  | XSlider => Binary32.of_Z 640
  | YSlider => Binary32.of_Z 360
  | lambda1Slider | lambda2Slider => Binary32.of_Z 5000
  end.

(** The largest binary32 number below one. *)
Definition below_one : spec_float := S754_finite false 16777215 (-24).

(** A count a [std::uint32_t] holds. *)
Definition uint32 (z : Z) : Prop := 0 <= z < 2 ^ 32.

(** The JSON file of model paths is absent or loads. *)
Definition nif_paths_load (env : Environment) (args : Options) : Prop :=
  opt_nif_paths args = EmptyString \/
  exists m, read_json env (opt_nif_paths args) = inr m.

Definition slider_ids : list slider_id :=
  [fovSlider; exposureSlider; gammaSlider; XSlider; YSlider;
   lambda1Slider; lambda2Slider].

(** The packets the sliders publish while the form is built. *)
Definition initial_packets : list (string * value) :=
  map (fun s => (slider_channel s, VFloat (default_published s))) slider_ids.

(** The subscriptions of the form. *)
Definition form_subs : gmap string subscription :=
  <["tile_histogram"%string := tile_histogram]> (<["fov"%string := fov_update]> ∅).

(** The form the constructor builds. *)
Definition constructed_widgets : Widgets :=
  {| w_fovSlider :=
       {| m_value := default_value fovSlider; m_callback := Some fov_callback |};
     w_exposureSlider :=
       {| m_value := default_value exposureSlider;
          m_callback := Some exposure_callback |};
     w_gammaSlider :=
       {| m_value := default_value gammaSlider;
          m_callback := Some gamma_callback |};
     w_XSlider :=
       {| m_value := default_value XSlider; m_callback := Some X_callback |};
     w_YSlider :=
       {| m_value := default_value YSlider; m_callback := Some Y_callback |};
     w_lambda1Slider :=
       {| m_value := default_value lambda1Slider;
          m_callback := Some lambda1_callback |};
     w_lambda2Slider :=
       {| m_value := default_value lambda2Slider;
          m_callback := Some lambda2_callback |};
     hist := {| m_caption := "Splats per tile"; m_header := EmptyString;
                m_values := [] |};
     rotationWheel := Some rotation_callback;
     deviceChooser := Some device_callback;
     stopButton := Some stop_callback |}.

Definition constructed_form : ControlsForm :=
  {| hdrHeader := {| width := 0; height := 0; packets := 0 |};
     hdrBuffer := [];
     widgets := constructed_widgets;
     subs := form_subs |}.

(** A callback that keeps the sender and is idempotent. *)
Definition silent_idempotent (cb : subscription) : Prop :=
  forall packet g g',
    cb packet g = Some g' -> g_sender g' = g_sender g /\ cb packet g' = Some g'.


(** The payload of the field-of-view scenario: [1.5708f]. *)
Definition fov_payload : spec_float := Binary32.of_decimal 15708 10000.

(** Rational bounds of pi: 3.141592653589793 < pi < 3.141592653589794. *)
Definition pi_lo : Q := 3141592653589793 # 1000000000000000.
Definition pi_hi : Q := 3141592653589794 # 1000000000000000.

(** The unit roundoff of binary32, [2^-24]. *)
Definition tolerance : Q := 1 # 16777216.

(** A frame too wide for [int] arithmetic on its sample count. *)
Definition wide_frame : ControlsForm :=
  {| hdrHeader := {| width := 715827883; height := 1; packets := 1 |};
     hdrBuffer := repeat Binary32.zero (Z.to_nat (715827883 * 1 * 3));
     widgets := constructed_widgets;
     subs := form_subs |}.

(** A 2 x 1 frame. *)
Definition small_frame : ControlsForm :=
  {| hdrHeader := {| width := 2; height := 1; packets := 1 |};
     hdrBuffer := map Binary32.of_Z [1; 2; 3; 4; 5; 6];
     widgets := constructed_widgets;
     subs := form_subs |}.

(** Surroundings in which the server does not answer. *)
Definition default_options : Options :=
  {| opt_port := 3000; opt_host := "localhost"; opt_log_level := "info";
     opt_nif_paths := EmptyString; opt_width := 1320; opt_height := 800;
     opt_kinect := false |}.

Definition no_server : Environment :=
  {| command_line := Parsed default_options;
     read_json := fun _ => inl "cannot open file"%string;
     Connect := fun _ _ => false;
     Initialize := fun _ _ => true;
     frames := 0 |}.

(** ** Vocabulary of the rounding lemmas *)

(** Round to nearest, ties to even, of [q + rem / den]. *)
Definition round_half_even (q rem den : Z) : Z :=
  match 2 * rem ?= den with
  | Lt => q
  | Eq => if Z.even q then q else q + 1
  | Gt => q + 1
  end.

(** A location describes the remainder [rem] of a division by [den]. *)
Definition loc_spec (l : location) (rem den : Z) : Prop :=
  match l with
  | loc_Exact => rem = 0
  | loc_Inexact c => rem <> 0 /\ (2 * rem ?= den) = c
  end.

(** The second half of [binary_round_aux] at binary32: the rounded
    mantissa is renormalised and the overflow test applied. *)
Definition renormalise (sx : bool) (m : Z) (e : Z) : spec_float :=
  let '(mrs'', e'') := shr_fexp 24 128 m e loc_Exact in
  match shr_m mrs'' with
  | Z0 => S754_zero sx
  | Zpos m => if e'' <=? 128 - 24 then S754_finite sx m e'' else S754_infinity sx
  | _ => S754_nan
  end.

(** The number an integer is converted to, as an integer. *)
Definition rounded_integer (c : Z) : Z :=
  if c <? 2 ^ 24 then c
  else
    let n := Zdigits2 c - 24 in
    round_half_even (c / 2 ^ n) (c mod 2 ^ n) (2 ^ n) * 2 ^ n.

(** ** Further vocabulary *)

(** The receiver handles the packets of a connection one after the
    other. *)
Fixpoint dispatch_all (inbound : list (string * value)) (this : ControlsForm)
    (sender : PacketMuxer) : option (ControlsForm * PacketMuxer) :=
  match inbound with
  | [] => Some (this, sender)
  | (name, packet) :: rest =>
      match dispatch name packet this sender with
      | Some (this', sender') => dispatch_all rest this' sender'
      | None => None
      end
  end.

(** What a dispatch leaves alone: the subscriptions, the frame, every
    callback, the sliders other than the field-of-view one, and the
    caption of the histogram. *)
Definition kept (this this' : ControlsForm) : Prop :=
  subs this' = subs this /\
  hdrHeader this' = hdrHeader this /\ hdrBuffer this' = hdrBuffer this /\
  (forall s, m_callback (sliders (widgets this') s)
             = m_callback (sliders (widgets this) s)) /\
  (forall s, s <> fovSlider ->
             m_value (sliders (widgets this') s)
             = m_value (sliders (widgets this) s)) /\
  rotationWheel (widgets this') = rotationWheel (widgets this) /\
  deviceChooser (widgets this') = deviceChooser (widgets this) /\
  stopButton (widgets this') = stopButton (widgets this) /\
  m_caption (hist (widgets this')) = m_caption (hist (widgets this)).

(** The value a field-of-view packet puts on the slider. *)
Definition fov_shown (fovRadians : spec_float) : spec_float :=
  Binary64.to_binary32 (Binary64.div (Binary64.of_binary32 fovRadians) two_pi).

(** An inbound sequence for the statements' witnesses. *)
Definition sample_inbound : list (string * value) :=
  [("fov"%string, VFloat fov_payload);
   ("tile_histogram"%string, VUInt32s [3; 41; 0]);
   ("stop"%string, VBool true)].

(** A packet the subscription of its channel can decode. *)
Definition decodable (p : string * value) : bool :=
  if String.eqb (fst p) "fov" then
    match snd p with VFloat _ => true | _ => false end
  else if String.eqb (fst p) "tile_histogram" then
    match snd p with VUInt32s _ => true | _ => false end
  else true.

(** Samples have arrived while the header is still the constructor's
    [HdrHeader{0,0,0}]. *)
Definition pending_frame : ControlsForm :=
  {| hdrHeader := {| width := 0; height := 0; packets := 0 |};
     hdrBuffer := map Binary32.of_Z [1; 2; 3];
     widgets := constructed_widgets;
     subs := form_subs |}.


(** A frame of one column whose last row starts beyond the range of
    [int]. *)
Definition tall_frame : ControlsForm :=
  {| hdrHeader := {| width := 1; height := 715827884; packets := 1 |};
     hdrBuffer := repeat Binary32.zero (Z.to_nat (1 * 715827884 * 3));
     widgets := constructed_widgets;
     subs := form_subs |}.

(** A frame of one column and two rows. *)
Definition two_row_frame : ControlsForm :=
  {| hdrHeader := {| width := 1; height := 2; packets := 1 |};
     hdrBuffer := map Binary32.of_Z [1; 2; 3; 4; 5; 6];
     widgets := constructed_widgets;
     subs := form_subs |}.

(** Surroundings in which the server answers and the window shows three
    frames before it is closed; the model file names one model twice. *)
Definition local_server : Environment :=
  {| command_line :=
       Parsed {| opt_port := 3000; opt_host := "localhost";
                 opt_log_level := "info"; opt_nif_paths := "models.json";
                 opt_width := 1320; opt_height := 800; opt_kinect := false |};
     read_json := fun _ => inr [("head"%string, "/nif/head-v1"%string);
                                ("room"%string, "/nif/room"%string);
                                ("head"%string, "/nif/head-v2"%string)];
     Connect := fun _ _ => true;
     Initialize := fun _ _ => true;
     frames := 3 |}.

Definition is_frame (e : event) : bool :=
  match e with GuiFrame => true | _ => false end.

Definition succeeded (o : outcome) : bool :=
  match o with
  | Returned code => code =? EXIT_SUCCESS
  | Terminated | Undefined => false
  end.

(** The factor a slider's callback scales its value by; the exposure
    slider shifts its value first and has none. *)
Definition slider_scale (s : slider_id) : option spec_float :=
  match s with
  | fovSlider => Some f360
  | exposureSlider => None
  | gammaSlider => Some f4
  | XSlider => Some (Binary32.of_Z 1280)
  | YSlider => Some (Binary32.of_Z 720)
  | lambda1Slider | lambda2Slider => Some (Binary32.of_Z 100)
  end.

(** Runs the constructor's monadic steps and leaves the arithmetic alone. *)
Ltac run_constructor :=
  cbv [ControlsForm_new ControlsForm_body mbind Ctor_bind mret Ctor_ret
       on_widgets on_gui subscribe new_Slider set_callback set_value get_value
       call_callback Slider_set_callback Slider_set_value on_g_widgets
       set_slider set_hist set_rotationWheel set_deviceChooser set_stopButton
       sliders slider_id_eqb m_value m_callback g_widgets g_sender w_gui w_subs
       w_fovSlider w_exposureSlider w_gammaSlider w_XSlider w_YSlider
       w_lambda1Slider w_lambda2Slider hist rotationWheel deviceChooser
       stopButton empty_widgets empty_slider].


(** * Properties *)

(** ** Lemmas on the rounding machinery *)

Section Rounding_lemmas.
Variables prec emax : Z.

Lemma iter_pos_nat {A} (f : A -> A) (n : positive) (x : A) :
  SpecFloat.iter_pos f n x = Nat.iter (Pos.to_nat n) f x.
Proof.
  revert x. induction n as [n IH | n IH |]; intros x; cbn [SpecFloat.iter_pos].
  - rewrite !IH, Pos2Nat.inj_xI, <- Nat.iter_add, <- Nat.iter_succ_r.
    f_equal. lia.
  - rewrite !IH, Pos2Nat.inj_xO, <- Nat.iter_add. f_equal. lia.
  - reflexivity.
Qed.

Lemma digits2_pos_iter_xO (m : positive) (n : nat) :
  Zpos (digits2_pos (Nat.iter n xO m)) = Zpos (digits2_pos m) + Z.of_nat n.
Proof.
  induction n as [| n IH]; [simpl; lia |].
  rewrite Nat.iter_succ. cbn [digits2_pos]. lia.
Qed.

Lemma shr_1_iter_xO (m : positive) (n : nat) :
  Nat.iter n shr_1 (Build_shr_record (Zpos (Nat.iter n xO m)) false false)
  = Build_shr_record (Zpos m) false false.
Proof.
  induction n as [| n IH]; [reflexivity |].
  rewrite Nat.iter_succ_r, Nat.iter_succ. simpl. exact IH.
Qed.

(** Rounding a mantissa whose discarded bits are all zero is exact. *)
Lemma binary_round_aux_exact (sx : bool) (m0 : positive) (n : nat) (ex : Z) :
  fexp prec emax (Zpos (digits2_pos (Nat.iter n xO m0)) + ex) - ex = Z.of_nat n ->
  ex + Z.of_nat n <= emax - prec ->
  binary_round_aux prec emax sx (Zpos (Nat.iter n xO m0)) ex loc_Exact
  = S754_finite sx m0 (ex + Z.of_nat n).
Proof.
  intros Hn Hle.
  assert (Hsnd : fexp prec emax (Zpos (digits2_pos m0) + (ex + Z.of_nat n))
                 - (ex + Z.of_nat n) = 0).
  { rewrite digits2_pos_iter_xO in Hn.
    replace (Zpos (digits2_pos m0) + (ex + Z.of_nat n))
      with (Zpos (digits2_pos m0) + Z.of_nat n + ex) by lia.
    lia. }
  unfold binary_round_aux, shr_fexp. cbn [Zdigits2 shr_record_of_loc].
  rewrite Hn.
  destruct n as [| n].
  - change (Nat.iter 0 xO m0) with m0 in *. change (Z.of_nat 0) with 0 in *.
    rewrite Z.add_0_r in *.
    cbv beta iota delta [shr shr_m loc_of_shr_record round_nearest_even
                         Zdigits2 shr_record_of_loc].
    rewrite Hsnd. cbv beta iota.
    destruct (Z.leb_spec ex (emax - prec)); [reflexivity | lia].
  - change (Z.of_nat (S n)) with (Zpos (Pos.of_succ_nat n)) in *.
    cbv beta iota delta [shr].
    rewrite iter_pos_nat, SuccNat2Pos.id_succ, shr_1_iter_xO.
    cbv beta iota delta [shr_m loc_of_shr_record round_nearest_even
                         Zdigits2 shr_record_of_loc].
    rewrite Hsnd. cbv beta iota.
    destruct (Z.leb_spec (ex + Zpos (Pos.of_succ_nat n)) (emax - prec));
      [reflexivity | lia].
Qed.
End Rounding_lemmas.

(** ** The sample-count conversion: lemmas *)

Lemma Zpos_iter_xO (m : positive) (j : nat) :
  Zpos (Nat.iter j xO m) = Zpos m * 2 ^ Z.of_nat j.
Proof.
  induction j as [| j IH]; [simpl; lia |].
  rewrite Nat.iter_succ, Nat2Z.inj_succ, Z.pow_succ_r by lia.
  rewrite (Pos2Z.inj_xO (Nat.iter j xO m)), IH. ring.
Qed.

Lemma digits2_pos_bounds (m : positive) :
  2 ^ (Zpos (digits2_pos m) - 1) <= Zpos m < 2 ^ Zpos (digits2_pos m).
Proof.
  induction m as [m IH | m IH |]; cbn [digits2_pos].
  - rewrite Pos2Z.inj_succ, Pos2Z.inj_xI, Z.pow_succ_r by lia.
    replace (Z.succ (Zpos (digits2_pos m)) - 1)
      with (Z.succ (Zpos (digits2_pos m) - 1)) by lia.
    rewrite Z.pow_succ_r by lia. lia.
  - rewrite Pos2Z.inj_succ, (Pos2Z.inj_xO m), Z.pow_succ_r by lia.
    replace (Z.succ (Zpos (digits2_pos m)) - 1)
      with (Z.succ (Zpos (digits2_pos m) - 1)) by lia.
    rewrite Z.pow_succ_r by lia. lia.
  - simpl. lia.
Qed.

(** A canonical binary32 mantissa has at most 24 digits; it has exactly 24
    unless the exponent is the smallest one. *)
Lemma bounded_inv (m : positive) (e : Z) :
  bounded Binary32.prec Binary32.emax m e = true ->
  -149 <= e <= 104 /\ Zpos (digits2_pos m) <= 24 /\
  (e = -149 \/ Zpos (digits2_pos m) = 24).
Proof.
  unfold bounded, canonical_mantissa, fexp, emin, Binary32.prec, Binary32.emax.
  intros H. apply andb_prop in H as [H1 H2].
  apply Z.eqb_eq in H1. apply Z.leb_le in H2. lia.
Qed.

(** Multiplying by 16 only moves the binary point: the product is exact. *)
Lemma mul_16_exact (s : bool) (m : positive) (e : Z) :
  bounded Binary32.prec Binary32.emax m e = true -> e <= 100 ->
  exists j : nat,
    Binary32.mul (S754_finite s m e) (Binary32.of_Z 16)
    = S754_finite s (Nat.iter j xO m) (e + 4 - Z.of_nat j).
Proof.
  intros Hb He. destruct (bounded_inv m e Hb) as (Hr & Hd & Hc).
  pose proof (Pos2Z.is_pos (digits2_pos m)) as Hpos.
  set (n := Z.to_nat (Z.max (Zpos (digits2_pos m) - 1) (-130 - e))).
  assert (Hn : Z.of_nat n = Z.max (Zpos (digits2_pos m) - 1) (-130 - e))
    by (unfold n; lia).
  assert (Hn23 : (n <= 23)%nat) by lia.
  exists (23 - n)%nat.
  change (Binary32.of_Z 16) with (S754_finite false 8388608 (-19)).
  unfold Binary32.mul, SFmul.
  replace (xorb s false) with s by (destruct s; reflexivity).
  replace (m * 8388608)%positive
    with (Nat.iter n xO (Nat.iter (23 - n) xO m)).
  2:{ rewrite <- Nat.iter_add. replace (n + (23 - n))%nat with 23%nat by lia.
      rewrite Pos.mul_comm. reflexivity. }
  replace (e + 4 - Z.of_nat (23 - n)%nat) with (e + -19 + Z.of_nat n) by lia.
  apply binary_round_aux_exact.
  - rewrite !digits2_pos_iter_xO.
    unfold fexp, emin, Binary32.prec, Binary32.emax. lia.
  - unfold Binary32.prec, Binary32.emax. lia.
Qed.

Lemma shiftl_iter_xO (m : positive) (j : nat) (k : Z) :
  Z.shiftl (Zpos (Nat.iter j xO m)) (k - Z.of_nat j) = Z.shiftl (Zpos m) k.
Proof.
  rewrite Zpos_iter_xO, <- Z.shiftl_mul_pow2, Z.shiftl_shiftl by lia.
  f_equal. lia.
Qed.

(** Below 2^31 mantissa digits the truncated product is the mantissa
    shifted by the exponent plus four. *)
Lemma to_uint32_mul_16 (m : positive) (e : Z) :
  bounded Binary32.prec Binary32.emax m e = true -> e <= -20 ->
  Binary32.to_uint32 (Binary32.mul (S754_finite false m e) (Binary32.of_Z 16))
  = Some (Z.shiftl (Zpos m) (e + 4)).
Proof.
  intros Hb He. destruct (mul_16_exact false m e Hb) as [j ->]; [lia |].
  destruct (bounded_inv m e Hb) as (Hr & Hd & Hc).
  unfold Binary32.to_uint32, Binary32.trunc. cbn [cond_Zopp].
  rewrite shiftl_iter_xO.
  assert (0 <= Z.shiftl (Zpos m) (e + 4) < 2 ^ 32) as [H0 H1].
  { rewrite Z.shiftl_div_pow2 by lia. pose proof (digits2_pos_bounds m) as [_ Hm].
    assert (Zpos m < 2 ^ 24).
    { eapply Z.lt_le_trans; [exact Hm |]. apply Z.pow_le_mono_r; lia. }
    split; [apply Z.div_pos; lia |].
    apply Z.le_lt_trans with (Zpos m); [| lia].
    apply Z.div_le_upper_bound; [lia |].
    assert (1 <= 2 ^ (- (e + 4))) by (apply (Z.pow_le_mono_r 2 0); lia). nia. }
  apply Z.leb_le in H0. apply Z.ltb_lt in H1. rewrite H0, H1. reflexivity.
Qed.

(** The order on positive canonical numbers: by exponent, then by
    mantissa. *)
Lemma leb_finite_pos (m1 m2 : positive) (e1 e2 : Z) :
  SFleb (S754_finite false m1 e1) (S754_finite false m2 e2) = true <->
  e1 < e2 \/ (e1 = e2 /\ (m1 <= m2)%positive).
Proof.
  unfold SFleb, SFcompare.
  change (Pos.compare_cont Eq m1 m2) with (Pos.compare m1 m2).
  destruct (Z.compare_spec e1 e2) as [He | He | He].
  - destruct (Pos.compare_spec m1 m2) as [Hm | Hm | Hm];
      (split; [intros H; first [discriminate H | right; split; [exact He | lia]]
              | intros [H | [_ H]]; first [reflexivity | lia]]).
  - split; [intros _; left; exact He | reflexivity].
  - split; [discriminate | intros [H | [H _]]; lia].
Qed.

Lemma in_unit_interval_inv (v : spec_float) :
  in_unit_interval v ->
  (exists s, v = S754_zero s) \/
  (exists m e, v = S754_finite false m e /\
               bounded Binary32.prec Binary32.emax m e = true /\
               (e < -23 \/ (e = -23 /\ Zpos m <= 2 ^ 23))).
Proof.
  intros (Hv & H0 & H1). destruct v as [s | s | | s m e].
  - left. eauto.
  - destruct s; discriminate.
  - discriminate.
  - right. destruct s; [discriminate |]. exists m, e. repeat split; [exact Hv |].
    apply (leb_finite_pos m 8388608 e (-23)) in H1.
    destruct H1 as [He | [He Hm]]; [left; exact He | right].
    split; [exact He | exact Hm].
Qed.

Lemma convertSampleValue_sixteenfold (v : spec_float) :
  in_unit_interval v ->
  convertSampleValue v = Some (Z.max (sixteenfold v) 1).
Proof.
  intros Hv. unfold convertSampleValue.
  destruct (in_unit_interval_inv v Hv) as [[s ->] | (m & e & -> & Hb & He)].
  - destruct s; reflexivity.
  - rewrite to_uint32_mul_16 by (assumption || lia). reflexivity.
Qed.

Lemma mantissa_lt_2_24 (m : positive) (e : Z) :
  bounded Binary32.prec Binary32.emax m e = true -> Zpos m < 2 ^ 24.
Proof.
  intros Hb. destruct (bounded_inv m e Hb) as (_ & Hd & _).
  pose proof (digits2_pos_bounds m) as [_ Hm].
  eapply Z.lt_le_trans; [exact Hm |]. apply Z.pow_le_mono_r; lia.
Qed.

Lemma sixteenfold_range (v : spec_float) :
  in_unit_interval v -> 0 <= sixteenfold v <= 16.
Proof.
  intros Hv.
  destruct (in_unit_interval_inv v Hv) as [[s ->] | (m & e & -> & Hb & He)];
    [simpl; lia |].
  cbn [sixteenfold]. pose proof (mantissa_lt_2_24 m e Hb) as Hm.
  rewrite Z.shiftl_div_pow2 by lia.
  split; [apply Z.div_pos; lia |].
  apply Z.div_le_upper_bound; [lia |].
  destruct He as [He | [-> Hm23]].
  - assert (2 ^ 20 <= 2 ^ (- (e + 4))) by (apply Z.pow_le_mono_r; lia).
    change (2 ^ 24) with (2 ^ 20 * 16) in Hm. nia.
  - change (2 ^ (- (-23 + 4))) with (2 ^ 19). lia.
Qed.

Lemma sixteenfold_mono (v1 v2 : spec_float) :
  in_unit_interval v1 -> in_unit_interval v2 ->
  Binary32.leb v1 v2 = true -> sixteenfold v1 <= sixteenfold v2.
Proof.
  intros Hv1 Hv2 Hle. pose proof (sixteenfold_range v2 Hv2) as H2.
  destruct (in_unit_interval_inv v1 Hv1) as [[s ->] | (m1 & e1 & -> & Hb1 & He1)];
    [simpl; lia |].
  destruct (in_unit_interval_inv v2 Hv2) as [[s ->] | (m2 & e2 & -> & Hb2 & He2)];
    [discriminate |].
  cbn [sixteenfold]. apply leb_finite_pos in Hle.
  rewrite !Z.shiftl_div_pow2 by lia.
  destruct Hle as [He | [<- Hm]].
  - (* a smaller exponent: the second mantissa is normal, the first one
       has at most as many digits. *)
    destruct (bounded_inv m2 e2 Hb2) as (Hr2 & _ & Hc2).
    destruct (bounded_inv m1 e1 Hb1) as (Hr1 & _ & _).
    destruct Hc2 as [-> | Hd2]; [lia |].
    pose proof (digits2_pos_bounds m2) as [Hm2 _]. rewrite Hd2 in Hm2.
    change (2 ^ (24 - 1)) with (2 ^ 23) in Hm2.
    pose proof (mantissa_lt_2_24 m1 e1 Hb1) as Hm1.
    replace (- (e1 + 4)) with ((e2 - e1) + - (e2 + 4)) by lia.
    rewrite Z.pow_add_r, <- Z.div_div by lia.
    apply Z.div_le_mono; [lia |].
    apply Z.le_trans with (2 ^ 23); [| exact Hm2].
    apply Z.div_le_upper_bound; [lia |].
    assert (2 <= 2 ^ (e2 - e1)) by (apply (Z.pow_le_mono_r 2 1); lia).
    nia.
  - apply Z.div_le_mono; lia.
Qed.

(** C6: on the unit interval the conversion is defined, yields at least
    one, and is monotonically non-decreasing: for all binary32 numbers
    [v1 <= v2] between 0 and 1, [convertSampleValue] returns integers
    [n1] and [n2] with [1 <= n1 <= n2]. *)
Theorem convertSampleValue_total_positive_monotone (v1 v2 : spec_float) :
  in_unit_interval v1 -> in_unit_interval v2 -> Binary32.leb v1 v2 = true ->
  exists n1 n2 : Z,
    convertSampleValue v1 = Some n1 /\ convertSampleValue v2 = Some n2 /\
    1 <= n1 /\ 1 <= n2 /\ n1 <= n2.
Proof.
  intros Hv1 Hv2 Hle.
  exists (Z.max (sixteenfold v1) 1), (Z.max (sixteenfold v2) 1).
  rewrite !convertSampleValue_sixteenfold by assumption.
  pose proof (sixteenfold_mono v1 v2 Hv1 Hv2 Hle). repeat split; lia.
Qed.

Lemma convertSampleValue_total_positive_monotone_witness :
  exists n1 n2 : Z,
    convertSampleValue (Binary32.of_decimal 3 10) = Some n1 /\
    convertSampleValue (Binary32.of_decimal 7 10) = Some n2 /\
    1 <= n1 /\ 1 <= n2 /\ n1 <= n2.
Proof.
  apply (convertSampleValue_total_positive_monotone
           (Binary32.of_decimal 3 10) (Binary32.of_decimal 7 10));
    repeat split; vm_compute; reflexivity.
Defined.

(** C10: on the unit interval the sample count lies between 1 and 16. *)
Theorem convertSampleValue_at_most_16 (v : spec_float) :
  in_unit_interval v ->
  exists n : Z, convertSampleValue v = Some n /\ 1 <= n <= 16.
Proof.
  intros Hv. exists (Z.max (sixteenfold v) 1).
  rewrite convertSampleValue_sixteenfold by assumption.
  pose proof (sixteenfold_range v Hv). split; [reflexivity | lia].
Qed.

Lemma convertSampleValue_at_most_16_witness :
  exists n : Z, convertSampleValue Binary32.one = Some n /\ 1 <= n <= 16.
Proof.
  apply (convertSampleValue_at_most_16 Binary32.one).
  repeat split; vm_compute; reflexivity.
Defined.

Example convertSampleValue_one : convertSampleValue Binary32.one = Some 16.
Proof. reflexivity. Qed.
Example convertSampleValue_third :
  convertSampleValue (Binary32.of_decimal 3 10) = Some 4.
Proof. reflexivity. Qed.
Example convertSampleValue_tiny :
  convertSampleValue (S754_finite false 1 (-149)) = Some 1.
Proof. reflexivity. Qed.

(** ** Rounding to nearest even *)

Lemma round_half_even_bounds (q rem den : Z) :
  0 <= rem < den ->
  q <= round_half_even q rem den <= q + 1 /\
  2 * (q * den + rem) - den <= 2 * den * round_half_even q rem den
    <= 2 * (q * den + rem) + den.
Proof.
  intros H. unfold round_half_even.
  destruct (Z.compare_spec (2 * rem) den); [destruct (Z.even q) | |]; nia.
Qed.

Lemma round_half_even_below_half (q rem den : Z) :
  2 * rem < den -> round_half_even q rem den = q.
Proof.
  intros H. unfold round_half_even.
  destruct (Z.compare_spec (2 * rem) den); [lia | reflexivity | lia].
Qed.

(** Rounding the quotient of a division is monotone in the dividend. *)
Lemma round_half_even_mono (a b den : Z) :
  0 < den -> a <= b ->
  round_half_even (a / den) (a mod den) den
  <= round_half_even (b / den) (b mod den) den.
Proof.
  intros Hden Hab.
  pose proof (Z.mod_pos_bound a den Hden) as Ha.
  pose proof (Z.mod_pos_bound b den Hden) as Hb.
  pose proof (Z.div_mod a den ltac:(lia)) as Ea.
  pose proof (Z.div_mod b den ltac:(lia)) as Eb.
  pose proof (Z.div_le_mono a b den Hden Hab) as Hq.
  destruct (Z.eq_dec (a / den) (b / den)) as [Heq | Hne].
  - unfold round_half_even. rewrite Heq in *.
    destruct (Z.compare_spec (2 * (a mod den)) den);
      destruct (Z.compare_spec (2 * (b mod den)) den);
      destruct (Z.even (b / den)); lia.
  - pose proof (round_half_even_bounds (a / den) (a mod den) den Ha).
    pose proof (round_half_even_bounds (b / den) (b mod den) den Hb).
    lia.
Qed.

(** ** The shift of [binary_round_aux] *)

Lemma loc_of_shr_record_of_loc (m : Z) (l : location) :
  loc_of_shr_record (shr_record_of_loc m l) = l.
Proof. destruct l as [| []]; reflexivity. Qed.

Lemma shr_m_shr_record_of_loc (m : Z) (l : location) :
  shr_m (shr_record_of_loc m l) = m.
Proof. destruct l as [| []]; reflexivity. Qed.

Lemma round_nearest_even_spec (m : Z) (l : location) (rem den : Z) :
  0 < den -> loc_spec l rem den ->
  round_nearest_even m l = round_half_even m rem den.
Proof.
  unfold loc_spec, round_half_even. intros Hden.
  destruct l as [| c]; [intros -> | intros [_ ->]]; cbn [round_nearest_even].
  - destruct (Z.compare_spec (2 * 0) den); [lia | reflexivity | lia].
  - destruct c; reflexivity.
Qed.

(** One shift halves the mantissa and keeps the location in step with the
    remainder. *)
Lemma shr_1_spec (mx : Z) (k : Z) (mrs : shr_record) :
  0 <= mx -> 0 <= k ->
  shr_m mrs = mx / 2 ^ k ->
  loc_spec (loc_of_shr_record mrs) (mx mod 2 ^ k) (2 ^ k) ->
  shr_m (shr_1 mrs) = mx / 2 ^ (k + 1) /\
  loc_spec (loc_of_shr_record (shr_1 mrs)) (mx mod 2 ^ (k + 1)) (2 ^ (k + 1)).
Proof.
  intros Hmx Hk Hm Hl.
  assert (Hpow : 0 < 2 ^ k) by (apply Z.pow_pos_nonneg; lia).
  rewrite Z.pow_add_r, Z.pow_1_r by lia.
  rewrite <- Z.div_div by lia.
  rewrite Z.rem_mul_r by lia.
  pose proof (Z.mod_pos_bound mx (2 ^ k) Hpow) as Hrem.
  set (rem := mx mod 2 ^ k) in *. set (q := mx / 2 ^ k) in *.
  assert (Hq : 0 <= q) by (apply Z.div_pos; lia).
  destruct mrs as [m r s]. cbn [shr_m] in Hm. subst m.
  assert (Hrs : orb r s = false <-> rem = 0).
  { destruct r, s; cbn in Hl |- *; split; intros; try discriminate;
      try tauto; try (destruct Hl; contradiction). }
  assert (Hpar : q = 2 * (q / 2) + q mod 2) by (apply Z.div_mod; lia).
  pose proof (Z.mod_pos_bound q 2 ltac:(lia)) as Hq2.
  destruct q as [| p | p]; [| | lia].
  - (* the mantissa is zero *)
    cbn [shr_1 shr_m]. split; [reflexivity |].
    change (0 mod 2) with 0. rewrite Z.mul_0_r, Z.add_0_r.
    destruct (orb r s) eqn:Ers; cbn [loc_of_shr_record loc_spec].
    + assert (rem <> 0) by (intros H0; apply Hrs in H0; congruence).
      split; [assumption |]. apply Z.compare_lt_iff. lia.
    + apply Hrs. reflexivity.
  - destruct p as [p | p |]; cbn [shr_1 shr_m].
    + (* odd *)
      split; [lia |].
      replace (Zpos p~1 mod 2) with 1 by lia.
      destruct (orb r s) eqn:Ers; cbn [loc_of_shr_record loc_spec].
      * assert (rem <> 0) by (intros H0; apply Hrs in H0; congruence).
        split; [lia |]. apply Z.compare_gt_iff. lia.
      * assert (rem = 0) by (apply Hrs; reflexivity).
        split; [lia |]. apply Z.compare_eq_iff. lia.
    + (* even *)
      split; [lia |].
      replace (Zpos p~0 mod 2) with 0 by lia.
      rewrite Z.mul_0_r, Z.add_0_r.
      destruct (orb r s) eqn:Ers; cbn [loc_of_shr_record loc_spec].
      * assert (rem <> 0) by (intros H0; apply Hrs in H0; congruence).
        split; [assumption |]. apply Z.compare_lt_iff. lia.
      * apply Hrs. reflexivity.
    + (* one *)
      split; [reflexivity |]. change (1 mod 2) with 1.
      destruct (orb r s) eqn:Ers; cbn [loc_of_shr_record loc_spec].
      * assert (rem <> 0) by (intros H0; apply Hrs in H0; congruence).
        split; [lia |]. apply Z.compare_gt_iff. lia.
      * assert (rem = 0) by (apply Hrs; reflexivity).
        split; [lia |]. apply Z.compare_eq_iff. lia.
Qed.

Lemma shr_iter_spec (mx : Z) (n : nat) :
  0 <= mx ->
  let mrs := Nat.iter n shr_1 (Build_shr_record mx false false) in
  shr_m mrs = mx / 2 ^ Z.of_nat n /\
  loc_spec (loc_of_shr_record mrs) (mx mod 2 ^ Z.of_nat n) (2 ^ Z.of_nat n).
Proof.
  intros Hmx. induction n as [| n IH].
  - cbn. rewrite Z.div_1_r, Z.mod_1_r. split; reflexivity.
  - rewrite Nat.iter_succ, Nat2Z.inj_succ. unfold Z.succ.
    destruct IH as [IHm IHl]. apply shr_1_spec; (lia || assumption).
Qed.

(** Shifting by a positive amount and rounding yields the nearest-even
    quotient by the power of two. *)
Lemma shr_round_spec (mx e n : Z) :
  0 <= mx -> 0 < n ->
  let '(mrs, e') := shr (Build_shr_record mx false false) e n in
  e' = e + n /\
  round_nearest_even (shr_m mrs) (loc_of_shr_record mrs)
  = round_half_even (mx / 2 ^ n) (mx mod 2 ^ n) (2 ^ n).
Proof.
  intros Hmx Hn. destruct n as [| p | p]; try lia.
  cbn [shr]. split; [reflexivity |].
  rewrite iter_pos_nat.
  destruct (shr_iter_spec mx (Pos.to_nat p) Hmx) as [Hm Hl].
  rewrite positive_nat_Z in Hm, Hl.
  rewrite Hm at 1. apply round_nearest_even_spec; [| exact Hl].
  apply Z.pow_pos_nonneg; lia.
Qed.

Lemma shr_nonpos (mrs : shr_record) (e n : Z) : n <= 0 -> shr mrs e n = (mrs, e).
Proof. destruct n; [reflexivity | lia | reflexivity]. Qed.

Lemma binary_round_aux_renormalise (sx : bool) (mx ex : Z) (lx : location) :
  binary_round_aux 24 128 sx mx ex lx
  = let '(mrs', e') := shr_fexp 24 128 mx ex lx in
    renormalise sx (round_nearest_even (shr_m mrs') (loc_of_shr_record mrs')) e'.
Proof.
  unfold binary_round_aux, renormalise.
  destruct (shr_fexp 24 128 mx ex lx) as [mrs' e']. reflexivity.
Qed.

Lemma digits2_pos_le (m : positive) (d : Z) :
  Zpos m < 2 ^ d -> Zpos (digits2_pos m) <= d.
Proof.
  intros H. pose proof (digits2_pos_bounds m) as [Hl _].
  destruct (Z.le_gt_cases (Zpos (digits2_pos m)) d) as [Hle | Hgt]; [exact Hle |].
  assert (2 ^ d <= 2 ^ (Zpos (digits2_pos m) - 1)).
  { destruct (Z.le_gt_cases 0 d); [apply Z.pow_le_mono_r; lia |].
    rewrite (Z.pow_neg_r 2 d) by lia. apply Z.pow_nonneg. lia. }
  lia.
Qed.

Lemma digits2_pos_ge (m : positive) (d : Z) :
  2 ^ (d - 1) <= Zpos m -> d <= Zpos (digits2_pos m).
Proof.
  intros H. pose proof (digits2_pos_bounds m) as [_ Hu].
  destruct (Z.le_gt_cases d (Zpos (digits2_pos m))) as [Hle | Hgt]; [exact Hle |].
  assert (2 ^ Zpos (digits2_pos m) <= 2 ^ (d - 1))
    by (apply Z.pow_le_mono_r; lia).
  lia.
Qed.

Lemma digits2_pos_eq (m : positive) (d : Z) :
  2 ^ (d - 1) <= Zpos m < 2 ^ d -> Zpos (digits2_pos m) = d.
Proof.
  intros [Hl Hu]. pose proof (digits2_pos_le m d Hu).
  pose proof (digits2_pos_ge m d Hl). lia.
Qed.

(** A rounded mantissa fits 24 digits, or is [2^24] and moves to the next
    exponent. *)
Lemma renormalise_spec (sx : bool) (m e : Z) :
  -149 <= e <= 103 -> 0 <= m <= 2 ^ 24 ->
  renormalise sx m e
  = if m =? 0 then S754_zero sx
    else if m <? 2 ^ 24 then S754_finite sx (Z.to_pos m) e
         else S754_finite sx 8388608 (e + 1).
Proof.
  intros He Hm. unfold renormalise, shr_fexp.
  destruct m as [| p | p]; [| | lia].
  - cbn [Zdigits2 shr_record_of_loc Z.eqb].
    rewrite shr_nonpos by (unfold fexp, emin; lia). reflexivity.
  - cbn [Zdigits2 shr_record_of_loc Z.eqb].
    destruct (Z.ltb_spec (Zpos p) (2 ^ 24)) as [Hlt | Hge].
    + pose proof (digits2_pos_le p 24 Hlt).
      rewrite shr_nonpos by (unfold fexp, emin; lia).
      cbn [shr_m Z.to_pos].
      destruct (Z.leb_spec e (128 - 24)); [reflexivity | lia].
    + assert (Hp : Zpos p = 2 ^ 24) by lia.
      assert (Hd : Zpos (digits2_pos p) = 25)
        by (apply digits2_pos_eq; rewrite Hp; split;
            [apply Z.pow_le_mono_r | apply Z.pow_lt_mono_r]; lia).
      rewrite Hd.
      replace (fexp 24 128 (25 + e) - e) with 1 by (unfold fexp, emin; lia).
      change (2 ^ 24) with (Zpos 16777216) in Hp. injection Hp as ->.
      cbn [shr SpecFloat.iter_pos shr_1 shr_m].
      destruct (Z.leb_spec (e + 1) (128 - 24)); [reflexivity | lia].
Qed.

(** No shift: the rounding acts on the mantissa and the location it is
    given. *)
Lemma binary_round_aux_noshift (sx : bool) (mx : positive) (ex : Z)
    (lx : location) (rem den : Z) :
  0 < den -> loc_spec lx rem den ->
  fexp 24 128 (Zpos (digits2_pos mx) + ex) - ex <= 0 ->
  binary_round_aux 24 128 sx (Zpos mx) ex lx
  = renormalise sx (round_half_even (Zpos mx) rem den) ex.
Proof.
  intros Hden Hl Hn. rewrite binary_round_aux_renormalise.
  unfold shr_fexp. cbn [Zdigits2]. rewrite shr_nonpos by exact Hn.
  rewrite loc_of_shr_record_of_loc, shr_m_shr_record_of_loc.
  rewrite (round_nearest_even_spec _ _ rem den Hden Hl). reflexivity.
Qed.

(** A shift by [n > 0] digits of an exact mantissa: the mantissa is
    divided by [2^n] and rounded. *)
Lemma binary_round_aux_shift (sx : bool) (mx : positive) (ex n : Z) :
  fexp 24 128 (Zpos (digits2_pos mx) + ex) - ex = n -> 0 < n ->
  binary_round_aux 24 128 sx (Zpos mx) ex loc_Exact
  = renormalise sx
      (round_half_even (Zpos mx / 2 ^ n) (Zpos mx mod 2 ^ n) (2 ^ n)) (ex + n).
Proof.
  intros Hn Hpos. rewrite binary_round_aux_renormalise.
  unfold shr_fexp. cbn [Zdigits2 shr_record_of_loc]. rewrite Hn.
  pose proof (shr_round_spec (Zpos mx) ex n ltac:(lia) Hpos) as H.
  destruct (shr {| shr_m := Zpos mx; shr_r := false; shr_s := false |} ex n)
    as [mrs e'].
  destruct H as [-> ->]. reflexivity.
Qed.

(** ** Conversion of counts *)

Lemma pow2_split (a b : Z) : 0 <= a -> 0 <= b -> 2 ^ (a + b) = 2 ^ a * 2 ^ b.
Proof. intros. apply Z.pow_add_r; assumption. Qed.

(** The quotient of a [d]-digit number by [2^(d-24)] has 24 digits. *)
Lemma quotient_24_digits (c : positive) :
  let n := Zpos (digits2_pos c) - 24 in
  0 <= n -> 2 ^ 23 <= Zpos c / 2 ^ n < 2 ^ 24.
Proof.
  intros n Hn. pose proof (digits2_pos_bounds c) as [Hl Hu].
  assert (Hpow : 0 < 2 ^ n) by (apply Z.pow_pos_nonneg; lia).
  replace (Zpos (digits2_pos c) - 1) with (n + 23) in Hl by (unfold n; lia).
  replace (Zpos (digits2_pos c)) with (n + 24) in Hu by (unfold n; lia).
  rewrite pow2_split in Hl, Hu by lia.
  split; [apply Z.div_le_lower_bound | apply Z.div_lt_upper_bound]; lia.
Qed.

Lemma rounded_integer_large (c : positive) :
  2 ^ 24 <= Zpos c ->
  let n := Zpos (digits2_pos c) - 24 in
  let m2 := round_half_even (Zpos c / 2 ^ n) (Zpos c mod 2 ^ n) (2 ^ n) in
  0 < n /\ rounded_integer (Zpos c) = m2 * 2 ^ n /\ 2 ^ 23 <= m2 <= 2 ^ 24.
Proof.
  intros Hc n m2.
  assert (Hn : 0 < n).
  { pose proof (digits2_pos_ge c 25) as H.
    change (2 ^ (25 - 1)) with (2 ^ 24) in H. unfold n. lia. }
  assert (Hpow : 0 < 2 ^ n) by (apply Z.pow_pos_nonneg; lia).
  split; [exact Hn |]. split.
  - unfold rounded_integer. destruct (Z.ltb_spec (Zpos c) (2 ^ 24)); [lia |].
    reflexivity.
  - pose proof (quotient_24_digits c ltac:(fold n; lia)) as Hq. fold n in Hq.
    pose proof (round_half_even_bounds (Zpos c / 2 ^ n) (Zpos c mod 2 ^ n)
                  (2 ^ n) (Z.mod_pos_bound _ _ Hpow)) as [Hb _].
    fold m2 in Hb. lia.
Qed.

(** A count is converted to a normal number whose value is the rounded
    count. *)
Lemma of_Z_spec (c : Z) :
  1 <= c < 2 ^ 32 ->
  exists mc ec,
    Binary32.of_Z c = S754_finite false mc ec /\
    2 ^ 23 <= Zpos mc < 2 ^ 24 /\ -23 <= ec <= 9 /\
    Zpos mc * 2 ^ (ec + 23) = rounded_integer c * 2 ^ 23.
Proof.
  intros Hc. destruct c as [| c | c]; try lia.
  pose proof (digits2_pos_bounds c) as [Hdl Hdu].
  pose proof (Pos2Z.is_pos (digits2_pos c)) as Hdpos.
  assert (Hd32 : Zpos (digits2_pos c) <= 32) by (apply digits2_pos_le; lia).
  unfold Binary32.of_Z, Binary32.prec, Binary32.emax.
  cbn [binary_normalize]. unfold binary_round, shl_align.
  replace (fexp 24 128 (Zpos (digits2_pos c) + 0))
    with (Zpos (digits2_pos c) - 24) by (unfold fexp, emin; lia).
  rewrite Z.sub_0_r.
  destruct (Z.ltb_spec (Zpos c) (2 ^ 24)) as [Hsmall | Hlarge].
  - (* the count has at most 24 digits: the conversion is exact *)
    pose proof (digits2_pos_le c 24 Hsmall) as Hd24.
    set (j := Z.to_nat (24 - Zpos (digits2_pos c))).
    assert (Hj : Z.of_nat j = 24 - Zpos (digits2_pos c)) by (unfold j; lia).
    assert (Hres : (let '(mz, ez) :=
                      match Zpos (digits2_pos c) - 24 with
                      | Z.neg d => (Pos.iter xO c d, Zpos (digits2_pos c) - 24)
                      | _ => (c, 0)
                      end in
                    binary_round_aux 24 128 false (Zpos mz) ez loc_Exact)
                   = S754_finite false (Nat.iter j xO c)
                       (Zpos (digits2_pos c) - 24)).
    { destruct (Zpos (digits2_pos c) - 24) as [| k | k] eqn:Ek; try lia.
      - replace j with 0%nat by lia.
        change (Nat.iter 0 xO c) with c.
        rewrite <- (Z.add_0_r 0) at 2.
        apply (binary_round_aux_exact 24 128 false c 0 0);
          rewrite ?digits2_pos_iter_xO; change (Z.of_nat 0) with 0;
          unfold fexp, emin; lia.
      - rewrite Pos2Nat.inj_iter.
        replace (Pos.to_nat k) with j by lia.
        change (Nat.iter j xO c) with (Nat.iter 0 xO (Nat.iter j xO c)) at 1.
        rewrite <- (Z.add_0_r (Z.neg k)) at 2.
        apply (binary_round_aux_exact 24 128 false (Nat.iter j xO c) 0 (Z.neg k));
          rewrite ?digits2_pos_iter_xO; change (Z.of_nat 0) with 0;
          unfold fexp, emin; lia. }
    rewrite Hres. eexists _, _. split; [reflexivity |].
    rewrite Zpos_iter_xO, Hj.
    assert (Hshift : 2 ^ 23 <= Zpos c * 2 ^ (24 - Zpos (digits2_pos c)) < 2 ^ 24).
    { replace 23 with ((Zpos (digits2_pos c) - 1) + (24 - Zpos (digits2_pos c)))
        at 1 by lia.
      replace 24 with (Zpos (digits2_pos c) + (24 - Zpos (digits2_pos c)))
        at 4 by lia.
      rewrite !pow2_split by lia.
      assert (0 < 2 ^ (24 - Zpos (digits2_pos c)))
        by (apply Z.pow_pos_nonneg; lia).
      nia. }
    split; [exact Hshift |]. split; [lia |].
    unfold rounded_integer.
    destruct (Z.ltb_spec (Zpos c) (2 ^ 24)); [| lia].
    rewrite <- Z.mul_assoc, <- pow2_split by lia. do 2 f_equal. lia.
  - (* more than 24 digits: the count is rounded *)
    destruct (rounded_integer_large c Hlarge) as (Hn & Hr & Hm2).
    set (n := Zpos (digits2_pos c) - 24) in *.
    set (m2 := round_half_even (Zpos c / 2 ^ n) (Zpos c mod 2 ^ n) (2 ^ n)) in *.
    assert (H23 : 0 < 2 ^ 23) by reflexivity.
    assert (Hal : match n with
                  | Z.neg d => (Pos.iter xO c d, n)
                  | _ => (c, 0)
                  end = (c, 0)) by (destruct n; try lia; reflexivity).
    rewrite Hal.
    rewrite (binary_round_aux_shift false c 0 n)
      by (unfold fexp, emin; lia).
    rewrite renormalise_spec by lia. rewrite Z.add_0_l. fold m2.
    destruct (Z.eqb_spec m2 0) as [H0 | _]; [lia |].
    assert (Hpown : 0 < 2 ^ n) by (apply Z.pow_pos_nonneg; lia).
    destruct (Z.ltb_spec m2 (2 ^ 24)) as [Hlt | Hge].
    + eexists _, _. split; [reflexivity |].
      rewrite Z2Pos.id by lia.
      split; [lia |]. split; [lia |].
      rewrite Hr, pow2_split by lia. ring.
    + eexists _, _. split; [reflexivity |].
      split; [split; [apply Z.le_refl | reflexivity] |]. split; [lia |].
      rewrite Hr. assert (Hm : m2 = 2 ^ 24) by lia. rewrite Hm.
      replace (n + 1 + 23) with (24 + n) by lia.
      rewrite pow2_split by lia.
      change (Zpos 8388608) with (2 ^ 23). ring.
Qed.

Lemma rounded_integer_bounds (c : positive) :
  2 ^ 24 <= Zpos c ->
  2 ^ (Zpos (digits2_pos c) - 1) <= rounded_integer (Zpos c)
    <= 2 ^ Zpos (digits2_pos c).
Proof.
  intros Hc. destruct (rounded_integer_large c Hc) as (Hn & -> & Hm2).
  set (n := Zpos (digits2_pos c) - 24) in *.
  assert (Hpow : 0 < 2 ^ n) by (apply Z.pow_pos_nonneg; lia).
  assert (E1 : 2 ^ (Zpos (digits2_pos c) - 1) = 2 ^ 23 * 2 ^ n)
    by (rewrite <- pow2_split by lia; f_equal; unfold n; lia).
  assert (E2 : 2 ^ Zpos (digits2_pos c) = 2 ^ 24 * 2 ^ n)
    by (rewrite <- pow2_split by lia; f_equal; unfold n; lia).
  rewrite E1, E2. nia.
Qed.

(** Conversion is monotone. *)
Lemma rounded_integer_mono (a b : Z) :
  1 <= a <= b -> rounded_integer a <= rounded_integer b.
Proof.
  intros Hab. destruct a as [| a | a]; try lia. destruct b as [| b | b]; try lia.
  destruct (Z.ltb_spec (Zpos b) (2 ^ 24)) as [Hb | Hb].
  - unfold rounded_integer.
    destruct (Z.ltb_spec (Zpos a) (2 ^ 24)); [| lia].
    destruct (Z.ltb_spec (Zpos b) (2 ^ 24)); lia.
  - destruct (Z.ltb_spec (Zpos a) (2 ^ 24)) as [Ha | Ha].
    + pose proof (rounded_integer_bounds b Hb) as [Hl _].
      pose proof (digits2_pos_ge b 25 Hb) as Hd.
      assert (2 ^ 24 <= 2 ^ (Zpos (digits2_pos b) - 1))
        by (apply Z.pow_le_mono_r; lia).
      unfold rounded_integer at 1.
      destruct (Z.ltb_spec (Zpos a) (2 ^ 24)); lia.
    + pose proof (digits2_pos_bounds a) as [Hal Hau].
      pose proof (digits2_pos_bounds b) as [Hbl Hbu].
      assert (Hd : Zpos (digits2_pos a) <= Zpos (digits2_pos b)).
      { apply digits2_pos_le. lia. }
      destruct (Z.eq_dec (Zpos (digits2_pos a)) (Zpos (digits2_pos b)))
        as [Heq | Hne].
      * destruct (rounded_integer_large a Ha) as (Hn & -> & _).
        destruct (rounded_integer_large b Hb) as (_ & -> & _).
        rewrite Heq in *.
        set (n := Zpos (digits2_pos b) - 24) in *.
        assert (Hpow : 0 < 2 ^ n) by (apply Z.pow_pos_nonneg; lia).
        apply Z.mul_le_mono_nonneg_r; [lia |].
        apply round_half_even_mono; lia.
      * pose proof (rounded_integer_bounds a Ha) as [_ Hu].
        pose proof (rounded_integer_bounds b Hb) as [Hl _].
        assert (2 ^ Zpos (digits2_pos a) <= 2 ^ (Zpos (digits2_pos b) - 1))
          by (apply Z.pow_le_mono_r; lia).
        lia.
Qed.

(** The order of two counts is the order of the numbers they convert to:
    exponents first, then mantissas brought to the same exponent. *)
Lemma of_Z_le (c M : Z) (mc mM : positive) (ec eM : Z) :
  1 <= c <= M -> M < 2 ^ 32 ->
  Binary32.of_Z c = S754_finite false mc ec ->
  Binary32.of_Z M = S754_finite false mM eM ->
  2 ^ 23 <= Zpos mc < 2 ^ 24 /\ 2 ^ 23 <= Zpos mM < 2 ^ 24 /\
  -23 <= ec /\ ec <= eM /\ eM <= 9 /\
  Zpos mc <= Zpos mM * 2 ^ (eM - ec) /\
  (c = M -> mc = mM /\ ec = eM).
Proof.
  intros Hc HM Ec EM.
  destruct (of_Z_spec c ltac:(lia)) as (mc' & ec' & Ec' & Hmc & Hec & Hvc).
  destruct (of_Z_spec M ltac:(lia)) as (mM' & eM' & EM' & HmM & HeM & HvM).
  rewrite Ec in Ec'. injection Ec' as <- <-.
  rewrite EM in EM'. injection EM' as <- <-.
  pose proof (rounded_integer_mono c M Hc) as Hmono.
  assert (H23 : 0 < 2 ^ 23) by reflexivity.
  assert (Hsv : Zpos mc * 2 ^ (ec + 23) <= Zpos mM * 2 ^ (eM + 23)).
  { rewrite Hvc, HvM. apply Z.mul_le_mono_nonneg_r; lia. }
  assert (Hpc : 0 < 2 ^ (ec + 23)) by (apply Z.pow_pos_nonneg; lia).
  assert (Hpm : 0 < 2 ^ (eM + 23)) by (apply Z.pow_pos_nonneg; lia).
  assert (Hle : ec <= eM).
  { destruct (Z.le_gt_cases ec eM) as [H | H]; [exact H | exfalso].
    replace (ec + 23) with ((ec - eM - 1) + (1 + (eM + 23))) in Hsv by lia.
    rewrite (pow2_split (ec - eM - 1)), (pow2_split 1) in Hsv by lia.
    assert (HX : 1 <= 2 ^ (ec - eM - 1)) by (apply (Z.pow_le_mono_r 2 0); lia).
    change (2 ^ 1) with 2 in Hsv. change (2 ^ 24) with (2 * 2 ^ 23) in HmM.
    replace (Zpos mc * (2 ^ (ec - eM - 1) * (2 * 2 ^ (eM + 23))))
      with ((Zpos mc * 2 ^ (ec - eM - 1) * 2) * 2 ^ (eM + 23)) in Hsv by ring.
    apply Z.mul_le_mono_pos_r in Hsv; [| exact Hpm].
    assert (Zpos mc * 1 <= Zpos mc * 2 ^ (ec - eM - 1))
      by (apply Z.mul_le_mono_nonneg_l; lia).
    lia. }
  split; [exact Hmc |]. split; [exact HmM |]. split; [lia |].
  split; [exact Hle |]. split; [lia |]. split.
  - replace (eM + 23) with ((eM - ec) + (ec + 23)) in Hsv by lia.
    rewrite (pow2_split (eM - ec) (ec + 23)), Z.mul_assoc in Hsv by lia.
    apply Z.mul_le_mono_pos_r in Hsv; [exact Hsv | exact Hpc].
  - intros HcM. rewrite HcM in Ec. split; congruence.
Qed.

(** ** The reciprocal of the maximum *)

Lemma new_location_spec (nb k : Z) :
  0 < nb -> 0 <= k < nb -> loc_spec (new_location nb k) k nb.
Proof.
  intros Hnb Hk. unfold new_location, new_location_even, new_location_odd.
  destruct (Z.even nb) eqn:Hev; destruct (Z.eqb_spec k 0) as [-> | Hk0];
    cbn [loc_spec]; try reflexivity; (split; [exact Hk0 |]).
  - reflexivity.
  - assert (Hodd : Z.odd nb = true) by (rewrite <- Z.negb_even, Hev; reflexivity).
    apply Z.odd_spec in Hodd as [j Hj].
    destruct (Z.compare_spec (2 * k + 1) nb);
      [apply Z.compare_lt_iff | apply Z.compare_lt_iff | apply Z.compare_gt_iff];
      lia.
Qed.

Lemma div_eucl_div_mod (a b : Z) : Z.div_eucl a b = (a / b, a mod b).
Proof. unfold Z.div, Z.modulo. destruct (Z.div_eucl a b). reflexivity. Qed.

Lemma SFdiv_core_binary_one (mM : positive) (eM : Z) :
  Zpos (digits2_pos mM) = 24 -> -23 <= eM <= 9 ->
  SFdiv_core_binary 24 128 (Zpos 8388608) (-23) (Zpos mM) eM
  = (2 ^ 47 / Zpos mM, -47 - eM,
     new_location (Zpos mM) (2 ^ 47 mod Zpos mM)).
Proof.
  intros Hd He. unfold SFdiv_core_binary. cbn [Zdigits2]. rewrite Hd.
  change (Zpos (digits2_pos 8388608)) with 24.
  replace (Z.min (fexp 24 128 (24 + -23 - (24 + eM))) (-23 - eM))
    with (-47 - eM) by (unfold fexp, emin; lia).
  replace (-23 - eM - (-47 - eM)) with 24 by lia.
  change (Z.shiftl (Zpos 8388608) 24) with (2 ^ 47).
  rewrite div_eucl_div_mod. reflexivity.
Qed.

(** The reciprocal of a normal number between [1] and [2^33]: a normal
    number within half a unit in the last place of the quotient. *)
Lemma div_one_spec (mM : positive) (eM : Z) :
  2 ^ 23 <= Zpos mM < 2 ^ 24 -> -23 <= eM <= 9 ->
  exists qs es,
    Binary32.div Binary32.one (S754_finite false mM eM)
    = S754_finite false qs es /\
    2 ^ 23 <= Zpos qs < 2 ^ 24 /\
    ((es = -47 - eM /\
      2 ^ 48 - Zpos mM <= 2 * (Zpos qs * Zpos mM) <= 2 ^ 48 + Zpos mM) \/
     (es = -46 - eM /\ Zpos mM = 2 ^ 23 /\ Zpos qs = 2 ^ 23)).
Proof.
  intros Hm He.
  assert (Hd : Zpos (digits2_pos mM) = 24) by (apply digits2_pos_eq; exact Hm).
  change Binary32.one with (S754_finite false 8388608 (-23)).
  unfold Binary32.div, Binary32.prec, Binary32.emax, SFdiv.
  rewrite (SFdiv_core_binary_one mM eM Hd He). cbn [xorb].
  destruct (Z.eq_dec (Zpos mM) (2 ^ 23)) as [Heq | Hne].
  - (* a power of two: the quotient is exact *)
    change (2 ^ 23) with (Zpos 8388608) in Heq. injection Heq as ->.
    change (2 ^ 47 / Zpos 8388608) with (Zpos (Nat.iter 1%nat xO 8388608%positive)).
    change (new_location (Zpos 8388608) (2 ^ 47 mod Zpos 8388608))
      with loc_Exact.
    rewrite (binary_round_aux_exact 24 128 false 8388608%positive 1%nat (-47 - eM))
      by (rewrite ?digits2_pos_iter_xO;
          change (Zpos (digits2_pos 8388608)) with 24;
          change (Z.of_nat 1%nat) with 1; unfold fexp, emin; lia).
    eexists _, _. split; [reflexivity |].
    split; [split; [apply Z.le_refl | reflexivity] |].
    right. change (Z.of_nat 1%nat) with 1. repeat split; lia.
  - set (q := 2 ^ 47 / Zpos mM). set (r := 2 ^ 47 mod Zpos mM).
    assert (Hdm : 2 ^ 47 = Zpos mM * q + r) by (apply Z.div_mod; lia).
    assert (Hr : 0 <= r < Zpos mM) by (apply Z.mod_pos_bound; lia).
    assert (Hq : 2 ^ 23 <= q <= 2 ^ 24 - 2).
    { split; [apply Z.div_le_lower_bound; lia |].
      assert (q < 2 ^ 24 - 1); [| lia].
      apply Z.div_lt_upper_bound; lia. }
    destruct q as [| pq | pq] eqn:Eq; try lia. rewrite <- Eq in *.
    assert (Hdq : Zpos (digits2_pos pq) = 24)
      by (apply digits2_pos_eq; rewrite <- Eq; lia).
    rewrite Eq.
    rewrite (binary_round_aux_noshift false pq (-47 - eM) _ r (Zpos mM))
      by (try apply new_location_spec; try lia;
          rewrite Hdq; unfold fexp, emin; lia).
    rewrite <- Eq.
    pose proof (round_half_even_bounds q r (Zpos mM) Hr) as [Hb1 Hb2].
    set (m2 := round_half_even q r (Zpos mM)) in *.
    rewrite renormalise_spec by lia.
    destruct (Z.eqb_spec m2 0); [lia |].
    destruct (Z.ltb_spec m2 (2 ^ 24)); [| lia].
    eexists _, _. split; [reflexivity |].
    rewrite Z2Pos.id by lia. split; [lia |]. left. split; [reflexivity |].
    lia.
Qed.

(** ** The product of a count and the reciprocal *)

(** A 47- or 48-digit product of value below [1 + 2^-24] rounds to at
    most one, and to one or its predecessor if its value exceeds
    [1 - 2^-24]. *)
Lemma round_product (P : positive) (E : Z) :
  2 ^ 46 <= Zpos P < 2 ^ 48 -> -79 <= E <= -14 ->
  Zpos P * 2 ^ 24 < (2 ^ 24 + 1) * 2 ^ (- E) ->
  let r := binary_round_aux 24 128 false (Zpos P) E loc_Exact in
  (SFleb (S754_zero false) r = true /\
   SFleb r (S754_finite false 8388608 (-23)) = true) /\
  ((2 ^ 24 - 1) * 2 ^ (- E) < Zpos P * 2 ^ 24 ->
   r = S754_finite false 8388608 (-23) \/ r = S754_finite false 16777215 (-24)).
Proof.
  intros HP HE Hup r.
  pose proof (digits2_pos_bounds P) as [Hdl Hdu].
  assert (Hd47 : 47 <= Zpos (digits2_pos P)) by (apply digits2_pos_ge; lia).
  assert (Hd48 : Zpos (digits2_pos P) <= 48) by (apply digits2_pos_le; lia).
  set (d := Zpos (digits2_pos P)) in *.
  set (n := d - 24).
  assert (HN : 0 < 2 ^ n) by (apply Z.pow_pos_nonneg; unfold n; lia).
  pose proof (quotient_24_digits P ltac:(fold d; lia)) as Hq. fold d n in Hq.
  pose proof (Z.div_mod (Zpos P) (2 ^ n) ltac:(lia)) as Hdm.
  pose proof (Z.mod_pos_bound (Zpos P) (2 ^ n) HN) as Hrem.
  pose proof (round_half_even_bounds (Zpos P / 2 ^ n) (Zpos P mod 2 ^ n)
                (2 ^ n) Hrem) as [Hm2 _].
  (* the product is below two *)
  assert (Hk1 : d + E <= 1).
  { destruct (Z.le_gt_cases (d + E) 1) as [H | H]; [exact H | exfalso].
    assert (HX : 0 < 2 ^ (d - 2)) by (apply Z.pow_pos_nonneg; lia).
    assert (Hpw : 2 ^ (- E) <= 2 ^ (d - 2)) by (apply Z.pow_le_mono_r; lia).
    replace (d - 1) with (1 + (d - 2)) in Hdl by lia.
    rewrite pow2_split in Hdl by lia. change (2 ^ 1) with 2 in Hdl. lia. }
  unfold r.
  rewrite (binary_round_aux_shift false P E n)
    by (fold d; unfold fexp, emin, n; lia).
  set (q := Zpos P / 2 ^ n) in *. set (rem := Zpos P mod 2 ^ n) in *.
  set (m2 := round_half_even q rem (2 ^ n)) in *.
  rewrite renormalise_spec by (unfold n; lia).
  destruct (Z.eqb_spec m2 0) as [H0 | _]; [lia |].
  destruct (Z.eq_dec (d + E) 1) as [Heq | Hne].
  - (* between one and two: the mantissa is [2^23], rounded down *)
    assert (HE' : 2 ^ (- E) = 2 ^ 23 * 2 ^ n)
      by (rewrite <- pow2_split by (unfold n; lia); f_equal; unfold n; lia).
    rewrite HE' in Hup.
    assert (Hq23 : q = 2 ^ 23).
    { assert (q < 2 ^ 23 + 1); [| lia].
      apply Z.div_lt_upper_bound; lia. }
    assert (Hm : m2 = 2 ^ 23).
    { unfold m2. rewrite round_half_even_below_half; [exact Hq23 |].
      rewrite Hq23 in Hdm. lia. }
    rewrite Hm. replace (E + n) with (-23) by (unfold n; lia).
    change (2 ^ 23 <? 2 ^ 24) with true. cbv iota.
    change (Z.to_pos (2 ^ 23)) with 8388608%positive.
    split; [split; reflexivity | intros _; left; reflexivity].
  - assert (He1 : E + n <= -24) by (unfold n; lia).
    split.
    + destruct (Z.ltb_spec m2 (2 ^ 24)) as [Hlt | Hge].
      * split; [reflexivity |]. apply leb_finite_pos. left. lia.
      * split; [reflexivity |]. apply leb_finite_pos.
        destruct (Z.eq_dec (E + n + 1) (-23)) as [-> | Hn23];
          [right; split; [reflexivity | apply Pos.le_refl] | left; lia].
    + intros Hlow.
      assert (Hk0 : d + E = 0).
      { destruct (Z.le_gt_cases 0 (d + E)) as [H | H]; [lia | exfalso].
        assert (HY : 0 < 2 ^ d) by (apply Z.pow_pos_nonneg; lia).
        assert (Hpw : 2 ^ (1 + d) <= 2 ^ (- E))
          by (apply Z.pow_le_mono_r; lia).
        rewrite pow2_split in Hpw by lia. change (2 ^ 1) with 2 in Hpw. lia. }
      assert (HE' : 2 ^ (- E) = 2 ^ 24 * 2 ^ n)
        by (rewrite <- pow2_split by (unfold n; lia); f_equal; unfold n; lia).
      rewrite HE' in Hlow.
      assert (Hq24 : q = 2 ^ 24 - 1).
      { assert (2 ^ 24 - 1 <= q); [| lia].
        apply Z.div_le_lower_bound; lia. }
      replace (E + n) with (-24) by (unfold n; lia).
      destruct (Z.ltb_spec m2 (2 ^ 24)) as [Hlt | Hge].
      * right. assert (Hm : m2 = 2 ^ 24 - 1) by lia. rewrite Hm. reflexivity.
      * left. reflexivity.
Qed.

(** A count times the reciprocal of a count that is not smaller lies
    between 0 and 1; the maximum itself maps to 1 or to the number just
    below. *)
Lemma count_times_reciprocal (c M : Z) :
  0 <= c <= M -> 1 <= M < 2 ^ 32 ->
  let x := Binary32.mul (Binary32.of_Z c)
             (Binary32.div Binary32.one (Binary32.of_Z M)) in
  (Binary32.leb Binary32.zero x = true /\ Binary32.leb x Binary32.one = true) /\
  (c = M -> x = Binary32.one \/ x = below_one).
Proof.
  intros Hc HM x.
  destruct (of_Z_spec M ltac:(lia)) as (mM & eM & EM & HmM & HeM & _).
  destruct (div_one_spec mM eM HmM HeM) as (qs & es & Es & Hqs & Hes).
  destruct (Z.eq_dec c 0) as [-> | Hc0].
  - unfold x. rewrite EM, Es. split; [split; reflexivity | lia].
  - destruct (of_Z_spec c ltac:(lia)) as (mc & ec & Ec & _).
    destruct (of_Z_le c M mc mM ec eM ltac:(lia) ltac:(lia) Ec EM)
      as (Hmc & _ & Hec & Hle & HeM9 & Hval & Hsame).
    assert (H23 : 2 ^ 23 = 8388608) by reflexivity.
    assert (H24 : 2 ^ 24 = 16777216) by reflexivity.
    assert (H46 : 2 ^ 46 = 8388608 * 8388608) by reflexivity.
    assert (H48 : 2 ^ 48 = 16777216 * 16777216) by reflexivity.
    assert (HT : 0 < 2 ^ (eM - ec)) by (apply Z.pow_pos_nonneg; lia).
    assert (HP : 2 ^ 46 <= Zpos (mc * qs) < 2 ^ 48).
    { rewrite Pos2Z.inj_mul, H46, H48. rewrite H23, H24 in Hmc, Hqs.
      split; [apply Z.mul_le_mono_nonneg | apply Z.mul_lt_mono_nonneg]; lia. }
    assert (HE : -79 <= ec + es <= -14) by lia.
    assert (Hup : Zpos (mc * qs) * 2 ^ 24
                  < (2 ^ 24 + 1) * 2 ^ (- (ec + es))).
    { rewrite Pos2Z.inj_mul.
      destruct Hes as [[-> Hb] | (-> & HmM23 & Hqs23)].
      - replace (- (ec + (-47 - eM))) with (47 + (eM - ec)) by lia.
        rewrite pow2_split by lia.
        assert (Hstep : 2 * (Zpos mc * Zpos qs)
                        <= 2 * (Zpos qs * Zpos mM) * 2 ^ (eM - ec)).
        { replace (2 * (Zpos qs * Zpos mM) * 2 ^ (eM - ec))
            with (2 * (Zpos mM * 2 ^ (eM - ec) * Zpos qs)) by ring.
          apply Z.mul_le_mono_nonneg_l; [lia |].
          apply Z.mul_le_mono_nonneg_r; lia. }
        assert (Hstep2 : 2 * (Zpos qs * Zpos mM) * 2 ^ (eM - ec)
                         <= (2 ^ 48 + Zpos mM) * 2 ^ (eM - ec))
          by (apply Z.mul_le_mono_nonneg_r; lia).
        assert (Hstep3 : (2 ^ 48 + Zpos mM) * 2 ^ (eM - ec)
                         < (2 ^ 48 + 2 ^ 24) * 2 ^ (eM - ec))
          by (apply Z.mul_lt_mono_pos_r; lia).
        change (2 ^ 47) with 140737488355328.
        rewrite H24. rewrite H48, H24 in Hstep3. rewrite H48 in Hstep2. lia.
      - replace (- (ec + (-46 - eM))) with (46 + (eM - ec)) by lia.
        rewrite pow2_split by lia. rewrite Hqs23.
        rewrite HmM23 in Hval.
        assert (Hstep : Zpos mc * 2 ^ 23 <= 2 ^ 23 * 2 ^ (eM - ec) * 2 ^ 23)
          by (apply Z.mul_le_mono_nonneg_r; lia).
        rewrite H24, H46. rewrite H23 in Hstep |- *. lia. }
    assert (Hmul : x = binary_round_aux 24 128 false (Zpos (mc * qs))
                         (ec + es) loc_Exact).
    { unfold x. rewrite Ec, EM, Es. reflexivity. }
    destruct (round_product (mc * qs) (ec + es) HP HE Hup) as [Hin Hnear].
    rewrite Hmul. split; [exact Hin |].
    intros HcM. destruct (Hsame HcM) as [-> ->]. apply Hnear.
    rewrite Pos2Z.inj_mul.
    destruct Hes as [[-> Hb] | (-> & HmM23 & Hqs23)].
    + replace (- (eM + (-47 - eM))) with 47 by lia.
      change (2 ^ 47) with 140737488355328. rewrite H24.
      rewrite H48 in Hb. rewrite H24 in HmM.
      replace (Zpos mM * Zpos qs) with (Zpos qs * Zpos mM) by ring. lia.
    + replace (- (eM + (-46 - eM))) with 46 by lia.
      rewrite HmM23, Hqs23. reflexivity.
Qed.

(** ** The maximum of the counts *)

Lemma histogram_max_fold (data : list Z) (a : Z) :
  let m := fold_left (fun max v => if max <? v then v else max) data a in
  a <= m /\ Forall (fun v => v <= m) data /\ (m = a \/ In m data).
Proof.
  revert a. induction data as [| v data IH]; intros a; cbn [fold_left].
  - split; [lia |]. split; [constructor | left; reflexivity].
  - specialize (IH (if a <? v then v else a)).
    destruct IH as (Hle & Hall & Hin).
    destruct (Z.ltb_spec a v) as [Hav | Hav].
    + split; [lia |]. split; [constructor; [lia | exact Hall] |].
      right. destruct Hin as [-> | Hin]; [left; reflexivity | right; exact Hin].
    + split; [lia |]. split; [constructor; [lia | exact Hall] |].
      destruct Hin as [-> | Hin]; [left; reflexivity | right; right; exact Hin].
Qed.

Lemma histogram_max_spec (data : list Z) :
  Forall uint32 data -> Exists (fun c => c <> 0) data ->
  1 <= histogram_max data < 2 ^ 32 /\
  Forall (fun v => 0 <= v <= histogram_max data) data /\
  In (histogram_max data) data.
Proof.
  intros Hu Hnz. unfold histogram_max.
  destruct (histogram_max_fold data 0) as (H0 & Hall & Hin).
  set (m := fold_left (fun max v => if max <? v then v else max) data 0) in *.
  assert (Hpos : 1 <= m).
  { apply List.Exists_exists in Hnz as (c & Hc & Hc0).
    rewrite List.Forall_forall in Hu, Hall.
    specialize (Hu c Hc). specialize (Hall c Hc). unfold uint32 in Hu. lia. }
  assert (Hm : In m data) by (destruct Hin as [-> | Hin]; [lia | exact Hin]).
  split; [| split; [| exact Hm]].
  - rewrite List.Forall_forall in Hu. specialize (Hu m Hm). unfold uint32 in Hu. lia.
  - rewrite List.Forall_forall in Hu, Hall |- *. intros v Hv.
    specialize (Hu v Hv). specialize (Hall v Hv). unfold uint32 in Hu. lia.
Qed.

(** ** The histogram callback on counted tiles *)

(** C5 as stated fails: the callback multiplies by the reciprocal of the
    maximum, which is not the quotient by the maximum.  For the single
    count 41 the result is [16777215 * 2^-24], the number below 1, whereas
    [41 / 41] is 1. *)
Lemma tile_histogram_41_below_one :
  option_map (fun g' => m_values (hist (g_widgets g')))
    (tile_histogram (VUInt32s [41])
       {| g_widgets := constructed_widgets; g_sender := [] |})
  = Some [below_one] /\
  Binary32.div (Binary32.of_Z 41) (Binary32.of_Z 41) = Binary32.one /\
  Binary32.eqb below_one Binary32.one = false.
Proof. repeat split; reflexivity. Qed.

(** C5, amended: for counts that fit [std::uint32_t], one of them not
    zero, the callback outputs for each count [c] the binary32 product of
    [c] and the reciprocal [1 / max] of the maximum count; the output has
    the length of the input, every output value lies between 0 and 1, and
    an element holding the maximum maps to 1 or to the largest binary32
    number below 1. *)
Theorem tile_histogram_normalised (data : list Z) (g : GUI) :
  Forall uint32 data -> Exists (fun c => c <> 0) data ->
  exists g',
    tile_histogram (VUInt32s data) g = Some g' /\
    let out := m_values (hist (g_widgets g')) in
    let max := histogram_max data in
    Forall (fun v => v <= max) data /\ In max data /\
    out = map (fun c => Binary32.mul (Binary32.of_Z c)
                          (Binary32.div Binary32.one (Binary32.of_Z max))) data /\
    length out = length data /\
    Forall (fun x => Binary32.leb Binary32.zero x = true /\
                     Binary32.leb x Binary32.one = true) out /\
    (forall i, nth_error data i = Some max ->
               nth_error out i = Some Binary32.one \/
               nth_error out i = Some below_one).
Proof.
  intros Hu Hnz. eexists. split; [reflexivity |].
  cbn [Graph_set_values on_g_widgets g_widgets set_hist hist m_values].
  destruct (histogram_max_spec data Hu Hnz) as (Hmax & Hall & Hin).
  unfold histogram_normalise, histogram_scale.
  set (max := histogram_max data) in *.
  split; [eapply List.Forall_impl; [| exact Hall]; cbn; intros; lia |].
  split; [exact Hin |]. split; [reflexivity |].
  split; [apply List.length_map |]. split.
  - apply List.Forall_map. eapply List.Forall_impl; [| exact Hall].
    intros c Hc. cbn beta.
    apply (count_times_reciprocal c max Hc Hmax).
  - intros i Hi. rewrite List.nth_error_map, Hi. cbn [option_map].
    destruct (count_times_reciprocal max max ltac:(lia) Hmax) as [_ Hnear].
    destruct (Hnear eq_refl) as [-> | ->]; [left | right]; reflexivity.
Qed.

Lemma tile_histogram_normalised_witness :
  exists g',
    tile_histogram (VUInt32s [3; 41; 0])
      {| g_widgets := constructed_widgets; g_sender := [] |} = Some g' /\
    m_values (hist (g_widgets g'))
    = [S754_finite false 9820809 (-27); below_one; S754_zero false].
Proof.
  destruct (tile_histogram_normalised [3; 41; 0]
              {| g_widgets := constructed_widgets; g_sender := [] |})
    as (g' & Hg & _ & _ & Hout & _).
  - repeat constructor; unfold uint32; lia.
  - constructor. lia.
  - exists g'. split; [exact Hg |]. rewrite Hout. vm_compute. reflexivity.
Defined.

(** ** The constructed form *)

Lemma ControlsForm_new_eq (sender : PacketMuxer) :
  ControlsForm_new sender = Some (constructed_form, sender ++ initial_packets).
Proof.
  run_constructor. do 2 f_equal.
  unfold lambda2_callback, lambda1_callback, Y_callback, X_callback,
    gamma_callback, exposure_callback, fov_callback, serialise.
  rewrite <- !app_assoc. f_equal.
Qed.

(** ** The histogram callback on empty tiles *)

Lemma histogram_max_repeat_0 (n : nat) : histogram_max (repeat 0 n) = 0.
Proof.
  unfold histogram_max. induction n as [| n IH]; [reflexivity | exact IH].
Qed.

Lemma histogram_normalise_repeat_0 (n : nat) :
  histogram_normalise (repeat 0 (S n)) = repeat S754_nan (S n).
Proof.
  unfold histogram_normalise, histogram_scale.
  rewrite histogram_max_repeat_0.
  change (Binary32.div Binary32.one (Binary32.of_Z 0))
    with (S754_infinity false).
  generalize (S n). intros k. induction k as [| k IH]; [reflexivity |].
  cbn [repeat map]. rewrite IH. reflexivity.
Qed.

(** C1: the callback leaves the division by a zero maximum unguarded: on
    a histogram of [n + 1] empty tiles the scale is [1 / 0], infinite, and
    every normalised value is [0 * infinity], NaN, not [0.0].  The output
    keeps the length of the input. *)
Theorem tile_histogram_all_zero_is_nan (n : nat) (g : GUI) :
  exists g',
    tile_histogram (VUInt32s (repeat 0 (S n))) g = Some g' /\
    m_values (hist (g_widgets g')) = repeat S754_nan (S n) /\
    length (m_values (hist (g_widgets g'))) = length (repeat 0 (S n)).
Proof.
  eexists. split; [reflexivity |].
  cbn [Graph_set_values on_g_widgets g_widgets set_hist hist m_values].
  rewrite histogram_normalise_repeat_0, !repeat_length. split; reflexivity.
Qed.

Example tile_histogram_three_empty_tiles :
  histogram_normalise [0; 0; 0] = [S754_nan; S754_nan; S754_nan].
Proof. reflexivity. Qed.

(** ** Remote updates *)

Lemma form_subs_lookup (name : string) :
  form_subs !! name =
  if String.eqb name "tile_histogram" then Some tile_histogram
  else if String.eqb name "fov" then Some fov_update
  else None.
Proof.
  unfold form_subs.
  destruct (String.eqb_spec name "tile_histogram") as [-> | H1].
  - apply lookup_insert_eq.
  - rewrite lookup_insert_ne by congruence.
    destruct (String.eqb_spec name "fov") as [-> | H2].
    + apply lookup_insert_eq.
    + rewrite lookup_insert_ne by congruence. apply lookup_empty.
Qed.

Lemma fov_update_silent_idempotent : silent_idempotent fov_update.
Proof.
  intros packet g g' H. destruct packet; try discriminate H.
  injection H as <-. split; reflexivity.
Qed.

Lemma tile_histogram_silent_idempotent : silent_idempotent tile_histogram.
Proof.
  intros packet g g' H. destruct packet; try discriminate H.
  injection H as <-. split; reflexivity.
Qed.

Lemma dispatch_subscribed (this : ControlsForm) (sender : PacketMuxer)
    (name : string) (packet : value) (cb : subscription) :
  subs this !! name = Some cb -> silent_idempotent cb ->
  forall this' sender',
    dispatch name packet this sender = Some (this', sender') ->
    sender' = sender /\
    dispatch name packet this' sender' = Some (this', sender').
Proof.
  intros Hl Hcb this' sender'. unfold dispatch. rewrite Hl.
  destruct (cb packet _) as [g |] eqn:E; [| discriminate].
  intros H. injection H as <- <-. destruct (Hcb _ _ _ E) as [Hs Ht].
  cbn [g_sender] in Hs. split; [exact Hs |].
  unfold dispatch. cbn [subs widgets]. rewrite Hl.
  destruct g as [gw gs]. cbn [g_widgets g_sender] in *. rewrite Ht.
  reflexivity.
Qed.

(** No subscription of the form touches the frame. *)
Lemma dispatch_keeps_frame (this this' : ControlsForm)
    (sender sender' : PacketMuxer) (name : string) (packet : value) :
  dispatch name packet this sender = Some (this', sender') ->
  hdrHeader this' = hdrHeader this /\ hdrBuffer this' = hdrBuffer this.
Proof.
  unfold dispatch. destruct (subs this !! name) as [cb |].
  - destruct (cb packet _) as [g |]; [| discriminate].
    intros H. injection H as <- _. split; reflexivity.
  - intros H. injection H as <- _. split; reflexivity.
Qed.

(** The displayed value a remote field-of-view update leaves. *)
Lemma dispatch_fov (this : ControlsForm) (sender : PacketMuxer)
    (fovRadians : spec_float) :
  subs this = form_subs ->
  exists this',
    dispatch "fov" (VFloat fovRadians) this sender = Some (this', sender) /\
    m_value (sliders (widgets this') fovSlider)
    = Binary64.to_binary32
        (Binary64.div (Binary64.of_binary32 fovRadians) two_pi).
Proof.
  intros Hs. unfold dispatch. rewrite Hs, form_subs_lookup.
  eexists. split; reflexivity.
Qed.

(** C3: on a form with the constructor's subscriptions, a dispatched
    packet leaves the sender as it was (nothing is published, on any
    channel), and dispatching the same packet again changes nothing: the
    form after the second application is the form after the first.  A
    field-of-view packet carrying [v] is always applied, and shows
    [v / (2 pi)] on the slider. *)
Theorem remote_update_silent_idempotent (this : ControlsForm)
    (sender : PacketMuxer) (name : string) (packet : value) (v : spec_float) :
  subs this = form_subs ->
  (forall this' sender',
      dispatch name packet this sender = Some (this', sender') ->
      sender' = sender /\
      dispatch name packet this' sender' = Some (this', sender')) /\
  (exists this',
      dispatch "fov" (VFloat v) this sender = Some (this', sender) /\
      m_value (sliders (widgets this') fovSlider)
      = Binary64.to_binary32 (Binary64.div (Binary64.of_binary32 v) two_pi)).
Proof.
  intros Hs. split; [| apply dispatch_fov; exact Hs].
  pose proof (form_subs_lookup name) as Hl. rewrite <- Hs in Hl.
  destruct (String.eqb name "tile_histogram");
    [| destruct (String.eqb name "fov")].
  - exact (dispatch_subscribed _ _ _ _ _ Hl tile_histogram_silent_idempotent).
  - exact (dispatch_subscribed _ _ _ _ _ Hl fov_update_silent_idempotent).
  - intros this' sender'. unfold dispatch. rewrite Hl.
    intros H. injection H as <- <-. rewrite Hl. split; reflexivity.
Qed.

Lemma remote_update_silent_idempotent_witness :
  (forall this' sender',
      dispatch "fov" (VFloat fov_payload) constructed_form [] = Some (this', sender') ->
      sender' = [] /\
      dispatch "fov" (VFloat fov_payload) this' sender' = Some (this', sender')) /\
  (exists this',
      dispatch "fov" (VFloat fov_payload) constructed_form [] = Some (this', []) /\
      m_value (sliders (widgets this') fovSlider)
      = Binary64.to_binary32
          (Binary64.div (Binary64.of_binary32 fov_payload) two_pi)).
Proof.
  apply (remote_update_silent_idempotent constructed_form [] "fov"
           (VFloat fov_payload) fov_payload).
  reflexivity.
Defined.

(** C7: once the form is built, ["fov"] is published with [1.5708f] and
    the same payload is dispatched back.  The dispatch is applied, the sender
    holds after it exactly the packets it held before (so no further
    ["fov"] packet), and the slider shows a binary32 number within
    [2^-24] of [1.5708 / (2 pi)], for pi anywhere between the two
    sixteen-digit bounds. *)
Theorem fov_echo_sets_slider_without_publishing (sender0 : PacketMuxer) :
  let published :=
    serialise (sender0 ++ initial_packets) "fov" (VFloat fov_payload) in
  ControlsForm_new sender0 = Some (constructed_form, sender0 ++ initial_packets) /\
  exists this',
    dispatch "fov" (VFloat fov_payload) constructed_form published
    = Some (this', published) /\
    sent_on "fov" published
    = sent_on "fov" (sender0 ++ initial_packets) ++ [VFloat fov_payload] /\
    m_value (sliders (widgets this') fovSlider) = S754_finite false 8388627 (-25) /\
    within tolerance (to_Q (m_value (sliders (widgets this') fovSlider)))
      ((15708 # 10000) / (2 * pi_lo)) /\
    within tolerance (to_Q (m_value (sliders (widgets this') fovSlider)))
      ((15708 # 10000) / (2 * pi_hi)).
Proof.
  intros published. split; [apply ControlsForm_new_eq |].
  destruct (dispatch_fov constructed_form published fov_payload eq_refl)
    as (this' & Hd & Hv).
  exists this'. split; [exact Hd |]. split.
  - unfold published, serialise, sent_on.
    rewrite List.filter_app, map_app. reflexivity.
  - rewrite Hv.
    change (Binary64.to_binary32
              (Binary64.div (Binary64.of_binary32 fov_payload) two_pi))
      with (S754_finite false 8388627 (-25)).
    split; [reflexivity |].
    split; apply Qle_bool_iff; vm_compute; reflexivity.
Qed.

(** ** Publishing at construction *)

(** C8 as stated fails: the rotation wheel is bound to ["env_rotation"]
    and nothing is published on that channel while the form is built. *)
Lemma rotation_wheel_publishes_nothing :
  ~ (forall b : binding,
        exists this sender,
          ControlsForm_new [] = Some (this, sender) /\
          length (sent_on (channel b) sender) = 1%nat).
Proof.
  intros H. destruct (H RotationWheel) as (this & sender & Hnew & Hlen).
  rewrite ControlsForm_new_eq in Hnew. injection Hnew as _ <-.
  vm_compute in Hlen. discriminate Hlen.
Qed.

(** C8, amended: construction gives each of the seven sliders its default
    displayed value and publishes, once and on the slider's channel, the
    value the slider's callback computes from that default; nothing is
    published for the rotation wheel, the device chooser and the stop
    button. *)
Theorem construction_publishes_slider_defaults (sender0 : PacketMuxer) :
  exists this,
    ControlsForm_new sender0 = Some (this, sender0 ++ initial_packets) /\
    (forall s : slider_id,
        m_value (sliders (widgets this) s) = default_value s /\
        sent_on (channel (SliderBinding s)) initial_packets
        = [VFloat (default_published s)] /\
        exists cb,
          m_callback (sliders (widgets this) s) = Some cb /\
          cb (default_value s) []
          = [(channel (SliderBinding s), VFloat (default_published s))]) /\
    sent_on (channel RotationWheel) initial_packets = [] /\
    sent_on (channel DeviceChooser) initial_packets = [] /\
    sent_on (channel StopButton) initial_packets = [].
Proof.
  exists constructed_form. split; [apply ControlsForm_new_eq |].
  split; [| repeat split; reflexivity].
  intros s. split; [destruct s; reflexivity |].
  split; [destruct s; vm_compute; reflexivity |].
  destruct s; eexists; (split; [reflexivity | vm_compute; reflexivity]).
Qed.

(** ** Exit codes *)

Lemma BOOST_LOG_TRIVIAL_In (level severity : severity_level) (msg : string)
    (e : event) :
  In e (BOOST_LOG_TRIVIAL level severity msg) ->
  e = Log severity msg /\ passes level severity = true.
Proof.
  unfold BOOST_LOG_TRIVIAL. destruct (passes level severity); [| intros []].
  intros [<- | []]. split; reflexivity.
Qed.

Lemma BOOST_LOG_TRIVIAL_passes (level severity : severity_level) (msg : string) :
  passes level severity = true ->
  BOOST_LOG_TRIVIAL level severity msg = [Log severity msg].
Proof. intros H. unfold BOOST_LOG_TRIVIAL. rewrite H. reflexivity. Qed.

Lemma BOOST_LOG_TRIVIAL_dropped (level severity : severity_level) (msg : string) :
  passes level severity = false -> BOOST_LOG_TRIVIAL level severity msg = [].
Proof. intros H. unfold BOOST_LOG_TRIVIAL. rewrite H. reflexivity. Qed.

(** What [jsonFileToMap] hands to the log are records of severity
    [debug]. *)
Lemma jsonFileToMap_logged (env : Environment) (level : severity_level)
    (file : string) (m : gmap string string) (loaded : list event) :
  jsonFileToMap env level file = inr (m, loaded) ->
  Forall (fun e => exists msg, e = Log debug msg) loaded.
Proof.
  unfold jsonFileToMap. destruct (read_json env file) as [what | pt];
    [discriminate |].
  intros [= Hfold]. apply (f_equal snd) in Hfold. cbn [snd] in Hfold.
  subst loaded.
  assert (H : forall acc : gmap string string * list event,
             Forall (fun e => exists msg, e = Log debug msg) (snd acc) ->
             Forall (fun e => exists msg, e = Log debug msg)
               (snd (fold_left
                       (fun acc p =>
                          (map_insert (fst p) (snd p) (fst acc),
                           snd acc ++
                           BOOST_LOG_TRIVIAL level debug
                             ("Loaded NIF entry. Name: '" +:+ fst p
                              +:+ "' remote-path: '" +:+ snd p +:+ "'")))
                       pt acc))).
  { induction pt as [| p pt IH]; intros acc Hacc; [exact Hacc |].
    cbn [fold_left]. apply IH. cbn [snd]. apply Forall_app. split; [exact Hacc |].
    apply List.Forall_forall. intros e He.
    apply BOOST_LOG_TRIVIAL_In in He as [-> _]. eexists. reflexivity. }
  apply H. constructor.
Qed.

(** The runs of [main] on a command line that parses and a level Boost
    knows: the model paths do not load; the server does not answer; the
    window does not initialise; the session runs to its end.  [loaded]
    are the lines of the model paths that passed the filter. *)
Lemma main_cases (env : Environment) (args : Options) (level : severity_level) :
  command_line env = Parsed args ->
  read_level (opt_log_level args) = Some level ->
  let host := opt_host args in
  let port := opt_port args in
  let w := opt_width args in
  let h := opt_height args in
  let could_not :=
    BOOST_LOG_TRIVIAL level info
      ("Could not conect to server " +:+ host +:+ ":" +:+ to_string port) in
  let connected :=
    BOOST_LOG_TRIVIAL level info
      ("Connected to server " +:+ host +:+ ":" +:+ to_string port) in
  exists loaded,
    Forall (fun e => exists msg, e = Log debug msg) loaded /\
    ((~ nif_paths_load env args /\
      exists what,
        main env = (BOOST_LOG_TRIVIAL level error ("Error: " +:+ what),
                    Returned EXIT_FAILURE)) \/
     (nif_paths_load env args /\ Connect env host port = false /\
      main env
      = ((loaded ++ could_not)
         ++ BOOST_LOG_TRIVIAL level error ("Error: " +:+ "Unable to connect"),
         Returned EXIT_FAILURE)) \/
     (nif_paths_load env args /\ Connect env host port = true /\
      Initialize env w h = false /\
      main env
      = (loaded ++ [Connected host port] ++ connected
         ++ [GuiCreated; GuiInitialize w h], Returned 1)) \/
     (nif_paths_load env args /\ Connect env host port = true /\
      Initialize env w h = true /\
      main env
      = ((loaded ++ [Connected host port] ++ connected
          ++ [GuiCreated; GuiInitialize w h])
         ++ repeat GuiFrame (frames env) ++ [GuiCleanup; Disconnected],
         Returned EXIT_SUCCESS))).
Proof.
  intros Hc Hl host port w h could_not connected.
  unfold main. rewrite Hc, Hl. unfold main_try.
  fold host port w h. fold could_not connected.
  assert (Hload :
    (exists what,
        (if String.eqb (opt_nif_paths args) EmptyString then inr (∅, [])
         else jsonFileToMap env level (opt_nif_paths args)) = inl what /\
        ~ nif_paths_load env args) \/
    (exists m loaded,
        (if String.eqb (opt_nif_paths args) EmptyString then inr (∅, [])
         else jsonFileToMap env level (opt_nif_paths args)) = inr (m, loaded) /\
        Forall (fun e => exists msg, e = Log debug msg) loaded /\
        nif_paths_load env args)).
  { unfold nif_paths_load.
    destruct (String.eqb_spec (opt_nif_paths args) EmptyString) as [He | He].
    - right. exists ∅, []. split; [reflexivity |].
      split; [constructor | left; exact He].
    - destruct (jsonFileToMap env level (opt_nif_paths args))
        as [what | [m loaded]] eqn:E.
      + left. exists what. split; [reflexivity |].
        unfold jsonFileToMap in E.
        intros [H | [pt H]]; [congruence |]. rewrite H in E. discriminate E.
      + right. exists m, loaded. split; [reflexivity |].
        split; [exact (jsonFileToMap_logged _ _ _ _ _ E) |].
        right. unfold jsonFileToMap in E.
        destruct (read_json env (opt_nif_paths args)) as [what | pt];
          [discriminate E | exists pt; reflexivity]. }
  destruct Hload as [(what & -> & Hn) | (m & loaded & -> & Hlog & Hn)].
  - exists []. split; [constructor |]. left. split; [exact Hn |].
    exists what. reflexivity.
  - exists loaded. split; [exact Hlog |]. right.
    destruct (Connect env host port) eqn:Ec; cbn [negb].
    + right. destruct (Initialize env w h) eqn:Ei; cbn [negb].
      * right. repeat (split; [assumption || reflexivity |]). reflexivity.
      * left. repeat (split; [assumption || reflexivity |]). reflexivity.
    + left. repeat (split; [assumption || reflexivity |]). reflexivity.
Qed.

(** On a command line that parses and with a level Boost knows, [main]
    returns 0 after a session that connected, initialised its window and
    ran until the window was closed.  It returns [EXIT_FAILURE], which is
    not 0, when the connection is refused, and then no window was created
    or initialised before; it returns a non-zero code as well when the
    JSON file of model paths does not load and when the window cannot be
    initialised. *)
Lemma main_exit_codes (env : Environment) (args : Options)
    (level : severity_level) :
  command_line env = Parsed args ->
  read_level (opt_log_level args) = Some level ->
  let host := opt_host args in
  let port := opt_port args in
  let w := opt_width args in
  let h := opt_height args in
  (nif_paths_load env args -> Connect env host port = true ->
   Initialize env w h = true ->
   snd (main env) = Returned 0) /\
  (nif_paths_load env args -> Connect env host port = false ->
   snd (main env) = Returned EXIT_FAILURE /\ EXIT_FAILURE <> 0 /\
   forallb (fun e => negb (is_gui_event e)) (fst (main env)) = true) /\
  (~ nif_paths_load env args ->
   snd (main env) = Returned EXIT_FAILURE /\ EXIT_FAILURE <> 0) /\
  (nif_paths_load env args -> Connect env host port = true ->
   Initialize env w h = false ->
   snd (main env) = Returned 1).
Proof.
  intros Hc Hl host port w h.
  pose proof (main_cases env args level Hc Hl) as Hcases. cbv zeta in Hcases.
  fold host port w h in Hcases.
  destruct Hcases as (loaded & Hlog & Hcases).
  destruct Hcases
    as [(Hn & what & E) | [(Hn & Hco & E) | [(Hn & Hco & Hi & E) | (Hn & Hco & Hi & E)]]];
    rewrite E; cbn [fst snd];
    (split; [| split; [| split]]);
    try (intros; congruence); try (intros; contradiction);
    try (intros; reflexivity).
  - intros _. split; [reflexivity | discriminate].
  - intros _ _. split; [reflexivity |]. split; [discriminate |].
    apply forallb_forall. intros e He.
    rewrite !in_app_iff in He. destruct He as [[He | He] | He].
    + rewrite List.Forall_forall in Hlog. destruct (Hlog e He) as [msg ->].
      reflexivity.
    + apply BOOST_LOG_TRIVIAL_In in He as [-> _]. reflexivity.
    + apply BOOST_LOG_TRIVIAL_In in He as [-> _]. reflexivity.
Qed.

(** A command line that [parseOptions] throws on, [--help] included, ends
    the process through [std::terminate]: the call stands outside the [try]
    block, so [main] returns no code at all. *)
Lemma main_rejected_command_line (env : Environment) :
  (forall args, command_line env <> Parsed args) ->
  main env = ([], Terminated).
Proof.
  intros H. unfold main.
  destruct (command_line env) as [args | |]; [destruct (H args eq_refl) | |];
    reflexivity.
Qed.


(** ** The exported image *)

Lemma int_of_in_range (z : Z) :
  INT_MIN <= z <= INT_MAX -> int_of z = Some z.
Proof.
  intros [H1 H2]. unfold int_of.
  apply Z.leb_le in H1. apply Z.leb_le in H2. rewrite H1, H2. reflexivity.
Qed.

Lemma int_of_out_of_range (z : Z) : INT_MAX < z -> int_of z = None.
Proof.
  intros H. unfold int_of. apply Z.leb_gt in H.
  rewrite H, andb_false_r. reflexivity.
Qed.

Lemma length_float_bytes (l : list spec_float) :
  length (flat_map float_bytes l) = (4 * length l)%nat.
Proof.
  induction l as [| x l IH]; [reflexivity |].
  cbn [flat_map]. rewrite length_app, IH. cbn [float_bytes length]. lia.
Qed.

Section Completed_frame.
Variable this : ControlsForm.
Let w := width (hdrHeader this).
Let h := height (hdrHeader this).
Hypothesis Hw : 1 <= w.
Hypothesis Hh : 1 <= h.
Hypothesis Hframe : completed_frame this.
Hypothesis Hint : w * h * 3 <= INT_MAX.

Lemma write_row_pfm_row (r : nat) (f : list Byte.byte) :
  Z.of_nat r < h ->
  write_row this (Z.of_nat r) f = Some (f ++ pfm_row (hdrBuffer this) w r).
Proof using Hw Hh Hframe Hint.
  intros Hr. unfold write_row, pfm_row. fold w.
  assert (Hrw : 0 <= Z.of_nat r * w <= (h - 1) * w) by nia.
  assert (Hwh : w * 3 <= w * h * 3) by nia.
  assert (Hmin : INT_MIN <= 0) by (unfold INT_MIN; lia).
  unfold int_mul. rewrite (int_of_in_range (Z.of_nat r * w)) by nia.
  cbn [mbind option_bind].
  rewrite (int_of_in_range (Z.of_nat r * w * 3)) by nia.
  cbn [mbind option_bind].
  rewrite (int_of_in_range (w * 3)) by nia.
  cbn [mbind option_bind].
  unfold completed_frame in Hframe. fold w h in Hframe.
  assert (Hfit : Z.of_nat r * w * 3 + w * 3 <= Z.of_nat (length (hdrBuffer this)))
    by nia.
  replace (0 <=? Z.of_nat r * w * 3) with true by (symmetry; apply Z.leb_le; nia).
  replace (0 <=? w * 3) with true by (symmetry; apply Z.leb_le; nia).
  replace (Z.of_nat r * w * 3 + w * 3 <=? Z.of_nat (length (hdrBuffer this)))
    with true by (symmetry; apply Z.leb_le; exact Hfit).
  cbn [andb]. do 4 f_equal.
  replace (Z.of_nat r * w * 3) with (Z.of_nat r * (w * 3)) by ring.
  rewrite Z2Nat.inj_mul, Nat2Z.id by nia. reflexivity.
Qed.

Lemma write_rows_pfm_rows (n : nat) (f : list Byte.byte) :
  Z.of_nat n <= h ->
  write_rows this n f
  = Some (f ++ flat_map (pfm_row (hdrBuffer this) w) (rev (seq 0 n))).
Proof using Hw Hh Hframe Hint.
  revert f. induction n as [| n IH]; intros f Hn.
  - cbn. rewrite app_nil_r. reflexivity.
  - cbn [write_rows]. rewrite write_row_pfm_row by lia.
    cbn [mbind option_bind]. rewrite IH by lia.
    rewrite seq_S, rev_app_distr. cbn [rev app flat_map Nat.add].
    rewrite <- app_assoc. reflexivity.
Qed.

Lemma length_pfm_row (r : nat) :
  Z.of_nat r < h ->
  Z.of_nat (length (pfm_row (hdrBuffer this) w r)) = w * 3 * 4.
Proof using Hw Hh Hframe Hint.
  intros Hr. unfold pfm_row.
  rewrite length_float_bytes, length_take, length_drop.
  unfold completed_frame in Hframe. fold w h in Hframe.
  assert (Hoff : Z.of_nat (r * Z.to_nat (w * 3)) = Z.of_nat r * (w * 3)).
  { rewrite Nat2Z.inj_mul, Z2Nat.id by lia. reflexivity. }
  assert (Hfit : Z.of_nat r * (w * 3) + w * 3
                 <= Z.of_nat (length (hdrBuffer this))) by nia.
  lia.
Qed.

Lemma savePfm_completed_frame (fileName : string)
    (fs : gmap string (list Byte.byte)) :
  savePfm fileName this fs
  = Some (<[fileName := pfm_image (hdrBuffer this) w h]> fs).
Proof using Hw Hh Hframe Hint.
  unfold savePfm, pfm_image. fold w h.
  destruct (hdrBuffer this) as [| x buffer] eqn:Hb.
  - unfold completed_frame in Hframe. rewrite Hb in Hframe.
    fold w h in Hframe. cbn [length Z.of_nat] in Hframe. nia.
  - rewrite <- Hb. unfold int_sub.
    rewrite (int_of_in_range (h - 1)) by (unfold INT_MIN; nia).
    cbn [mbind option_bind].
    replace (h - 1 + 1) with h by lia.
    rewrite write_rows_pfm_rows by lia. reflexivity.
Qed.
End Completed_frame.

Lemma pfm_header_2_1 :
  pfm_header 2 1
  = list_byte_of_string ("PF" +:+ LF +:+ "2 1" +:+ LF +:+ "-1.0" +:+ LF).
Proof. reflexivity. Qed.

Lemma repeat_cons {A} (x : A) (n : nat) :
  n <> 0%nat -> repeat x n = x :: repeat x (Nat.pred n).
Proof. destruct n; [congruence | reflexivity]. Qed.

Example savePfm_small_frame_bytes :
  option_map (fun fs => fs !! "frame.pfm"%string)
    (savePfm "frame.pfm" small_frame ∅)
  = Some (Some (list_byte_of_string ("PF" +:+ LF +:+ "2 1" +:+ LF +:+ "-1.0" +:+ LF)
                ++ flat_map float_bytes (map Binary32.of_Z [1; 2; 3; 4; 5; 6]))).
Proof. vm_compute. reflexivity. Qed.

Example float_bytes_one :
  float_bytes Binary32.one = [Byte.x00; Byte.x00; Byte.x80; Byte.x3f].
Proof. reflexivity. Qed.

(** * Further properties *)

(** ** Sequences of inbound packets *)

Lemma dispatch_subs (this this' : ControlsForm) (sender sender' : PacketMuxer)
    (name : string) (packet : value) :
  dispatch name packet this sender = Some (this', sender') ->
  subs this' = subs this.
Proof.
  unfold dispatch. destruct (subs this !! name) as [cb |].
  - destruct (cb packet _) as [g |]; [| discriminate].
    intros H. injection H as <- _. reflexivity.
  - intros H. injection H as <- _. reflexivity.
Qed.

Lemma dispatch_sender (this this' : ControlsForm) (sender sender' : PacketMuxer)
    (name : string) (packet : value) :
  subs this = form_subs ->
  dispatch name packet this sender = Some (this', sender') ->
  sender' = sender.
Proof.
  intros Hs. pose proof (form_subs_lookup name) as Hl. rewrite <- Hs in Hl.
  destruct (String.eqb name "tile_histogram");
    [| destruct (String.eqb name "fov")].
  - intros Hd.
    apply (dispatch_subscribed _ _ _ _ _ Hl tile_histogram_silent_idempotent
             _ _ Hd).
  - intros Hd.
    apply (dispatch_subscribed _ _ _ _ _ Hl fov_update_silent_idempotent
             _ _ Hd).
  - unfold dispatch. rewrite Hl. intros H. injection H as _ <-. reflexivity.
Qed.

Lemma dispatch_all_app (before after : list (string * value))
    (this : ControlsForm) (sender : PacketMuxer) :
  dispatch_all (before ++ after) this sender
  = match dispatch_all before this sender with
    | Some (this', sender') => dispatch_all after this' sender'
    | None => None
    end.
Proof.
  revert this sender. induction before as [| [name packet] before IH];
    intros this sender; cbn [dispatch_all app]; [reflexivity |].
  destruct (dispatch name packet this sender) as [[this' sender'] |];
    [apply IH | reflexivity].
Qed.

Lemma kept_refl (this : ControlsForm) : kept this this.
Proof. unfold kept. repeat split; reflexivity. Qed.

Lemma kept_trans (a b c : ControlsForm) : kept a b -> kept b c -> kept a c.
Proof.
  unfold kept.
  intros (A1 & A2 & A3 & A4 & A5 & A6 & A7 & A8 & A9)
         (B1 & B2 & B3 & B4 & B5 & B6 & B7 & B8 & B9).
  split; [congruence |]. split; [congruence |]. split; [congruence |].
  split; [intros s; rewrite B4; apply A4 |].
  split; [intros s Hs; rewrite B5 by exact Hs; apply A5; exact Hs |].
  repeat split; congruence.
Qed.

Lemma dispatch_kept (this this' : ControlsForm) (sender sender' : PacketMuxer)
    (name : string) (packet : value) :
  subs this = form_subs ->
  dispatch name packet this sender = Some (this', sender') ->
  kept this this'.
Proof.
  intros Hs. pose proof (form_subs_lookup name) as Hl. rewrite <- Hs in Hl.
  unfold dispatch. rewrite Hl. clear Hl.
  destruct (String.eqb name "tile_histogram");
    [| destruct (String.eqb name "fov")].
  - destruct packet; try discriminate. intros H. injection H as <- _.
    unfold kept. do 3 (split; [reflexivity |]).
    split; [intros []; reflexivity |].
    split; [intros [] Hne; reflexivity |]. repeat split; reflexivity.
  - destruct packet; try discriminate. intros H. injection H as <- _.
    unfold kept. do 3 (split; [reflexivity |]).
    split; [intros []; reflexivity |].
    split; [intros [] Hne; (reflexivity || congruence) |].
    repeat split; reflexivity.
  - intros H. injection H as <- _. apply kept_refl.
Qed.

Lemma dispatch_all_kept (inbound : list (string * value))
    (this this' : ControlsForm) (sender sender' : PacketMuxer) :
  subs this = form_subs ->
  dispatch_all inbound this sender = Some (this', sender') ->
  kept this this' /\ sender' = sender.
Proof.
  revert this sender. induction inbound as [| [name packet] inbound IH];
    intros this sender Hs; cbn [dispatch_all].
  - intros H. injection H as <- <-. split; [apply kept_refl | reflexivity].
  - destruct (dispatch name packet this sender) as [[this1 sender1] |] eqn:Hd;
      [| discriminate].
    intros Hall.
    pose proof (dispatch_kept _ _ _ _ _ _ Hs Hd) as Hk.
    pose proof (dispatch_sender _ _ _ _ _ _ Hs Hd) as ->.
    assert (Hs1 : subs this1 = form_subs)
      by (destruct Hk as (Hk & _); rewrite Hk; exact Hs).
    destruct (IH this1 sender Hs1 Hall) as [Hk' ->].
    split; [exact (kept_trans _ _ _ Hk Hk') | reflexivity].
Qed.

Lemma dispatch_decodable (this : ControlsForm) (sender : PacketMuxer)
    (name : string) (packet : value) :
  subs this = form_subs -> decodable (name, packet) = true ->
  exists this', dispatch name packet this sender = Some (this', sender).
Proof.
  intros Hs. pose proof (form_subs_lookup name) as Hl. rewrite <- Hs in Hl.
  unfold decodable, dispatch. rewrite Hl. clear Hl. cbn [fst snd].
  destruct (String.eqb name "fov") eqn:Ef.
  - apply String.eqb_eq in Ef as ->. cbn [String.eqb Ascii.eqb Bool.eqb].
    destruct packet; try discriminate. intros _. eexists. reflexivity.
  - destruct (String.eqb name "tile_histogram").
    + destruct packet; try discriminate. intros _. eexists. reflexivity.
    + intros _. eexists. reflexivity.
Qed.

Lemma dispatch_all_decodable (inbound : list (string * value))
    (this : ControlsForm) (sender : PacketMuxer) :
  subs this = form_subs -> forallb decodable inbound = true ->
  exists this', dispatch_all inbound this sender = Some (this', sender).
Proof.
  revert this. induction inbound as [| [name packet] inbound IH];
    intros this Hs Hall; cbn [dispatch_all].
  - eexists. reflexivity.
  - cbn [forallb] in Hall. apply andb_prop in Hall as [Hd Hall].
    destruct (dispatch_decodable this sender name packet Hs Hd) as [this1 H1].
    rewrite H1. apply IH; [| exact Hall].
    rewrite (dispatch_subs _ _ _ _ _ _ H1). exact Hs.
Qed.

(** X1: whatever packets arrive after construction, and in whatever
    order, nothing is published in response, the subscriptions stay, the
    frame buffer stays empty, and an export still writes nothing. *)
Theorem inbound_never_publishes_nor_fills_frame
    (inbound : list (string * value)) (sender : PacketMuxer)
    (this' : ControlsForm) (sender' : PacketMuxer)
    (fileName : string) (fs : gmap string (list Byte.byte)) :
  dispatch_all inbound constructed_form sender = Some (this', sender') ->
  sender' = sender /\ subs this' = form_subs /\ hdrBuffer this' = [] /\
  savePfm fileName this' fs = Some fs.
Proof.
  intros H.
  destruct (dispatch_all_kept inbound constructed_form this' sender sender'
              eq_refl H) as [(Hsubs & _ & Hbuf & _) ->].
  split; [reflexivity |]. split; [exact Hsubs |]. split; [exact Hbuf |].
  unfold savePfm. rewrite Hbuf. reflexivity.
Qed.

Lemma inbound_never_publishes_nor_fills_frame_witness :
  exists this',
    dispatch_all sample_inbound constructed_form initial_packets
    = Some (this', initial_packets) /\
    savePfm "frame.pfm" this' ∅ = Some ∅.
Proof.
  destruct (dispatch_all_decodable sample_inbound constructed_form
              initial_packets eq_refl eq_refl) as [this' E].
  destruct (inbound_never_publishes_nor_fills_frame sample_inbound
              initial_packets this' initial_packets "frame.pfm" ∅ E)
    as (_ & _ & _ & Hsave).
  exists this'. split; [exact E | exact Hsave].
Defined.

(** X2: a sequence of inbound packets leaves every callback of the form
    in place (the sliders', the rotation wheel's, the device chooser's and
    the stop button's), leaves the value of every slider other than the
    field-of-view one, and leaves the caption of the histogram. *)
Theorem inbound_keeps_local_controls (inbound : list (string * value))
    (this this' : ControlsForm) (sender sender' : PacketMuxer) :
  subs this = form_subs ->
  dispatch_all inbound this sender = Some (this', sender') ->
  (forall s, m_callback (sliders (widgets this') s)
             = m_callback (sliders (widgets this) s)) /\
  (forall s, s <> fovSlider ->
             m_value (sliders (widgets this') s)
             = m_value (sliders (widgets this) s)) /\
  rotationWheel (widgets this') = rotationWheel (widgets this) /\
  deviceChooser (widgets this') = deviceChooser (widgets this) /\
  stopButton (widgets this') = stopButton (widgets this) /\
  m_caption (hist (widgets this')) = m_caption (hist (widgets this)).
Proof.
  intros Hs H.
  destruct (dispatch_all_kept inbound this this' sender sender' Hs H)
    as [(_ & _ & _ & Hk) _].
  exact Hk.
Qed.

Lemma inbound_keeps_local_controls_witness :
  exists this',
    dispatch_all sample_inbound constructed_form [] = Some (this', []) /\
    m_value (sliders (widgets this') exposureSlider)
    = default_value exposureSlider /\
    m_callback (sliders (widgets this') fovSlider) = Some fov_callback.
Proof.
  destruct (dispatch_all_decodable sample_inbound constructed_form []
              eq_refl eq_refl) as [this' E].
  destruct (inbound_keeps_local_controls sample_inbound constructed_form this'
              [] [] eq_refl E) as (Hcb & Hval & _).
  exists this'. split; [exact E |]. split.
  - apply (Hval exposureSlider). discriminate.
  - apply (Hcb fovSlider).
Defined.

(** A packet on another channel than ["fov"] leaves the field-of-view
    slider. *)
Lemma dispatch_other_keeps_fov (this this' : ControlsForm)
    (sender sender' : PacketMuxer) (name : string) (packet : value) :
  subs this = form_subs -> name <> "fov"%string ->
  dispatch name packet this sender = Some (this', sender') ->
  sliders (widgets this') fovSlider = sliders (widgets this) fovSlider.
Proof.
  intros Hs Hne. unfold dispatch. rewrite Hs, form_subs_lookup.
  destruct (String.eqb name "tile_histogram");
    [| destruct (String.eqb_spec name "fov")].
  - destruct packet; try discriminate. intros H. injection H as <- _.
    reflexivity.
  - congruence.
  - intros H. injection H as <- _. reflexivity.
Qed.

Lemma dispatch_all_other_keeps_fov (inbound : list (string * value))
    (this this' : ControlsForm) (sender sender' : PacketMuxer) :
  subs this = form_subs ->
  Forall (fun p => fst p <> "fov"%string) inbound ->
  dispatch_all inbound this sender = Some (this', sender') ->
  sliders (widgets this') fovSlider = sliders (widgets this) fovSlider.
Proof.
  revert this sender. induction inbound as [| [name packet] inbound IH];
    intros this sender Hs Hall; cbn [dispatch_all].
  - intros H. injection H as <- _. reflexivity.
  - destruct (dispatch name packet this sender) as [[this1 sender1] |] eqn:Hd;
      [| discriminate].
    apply List.Forall_cons_iff in Hall as [Hne Hall]. cbn [fst] in Hne.
    intros H.
    rewrite (IH this1 sender1) by
      (try exact Hall; try exact H;
       rewrite (dispatch_subs _ _ _ _ _ _ Hd); exact Hs).
    apply (dispatch_other_keeps_fov _ _ _ _ _ _ Hs Hne Hd).
Qed.

(** X3: the last field-of-view packet wins.  After any inbound sequence,
    the slider shows [v / (2 pi)] for the payload [v] of the most recent
    ["fov"] packet, whatever was received before it and whatever arrived on
    other channels after it. *)
Theorem last_fov_packet_wins (before after : list (string * value))
    (v : spec_float) (this this' : ControlsForm)
    (sender sender' : PacketMuxer) :
  subs this = form_subs ->
  Forall (fun p => fst p <> "fov"%string) after ->
  dispatch_all (before ++ ("fov"%string, VFloat v) :: after) this sender
  = Some (this', sender') ->
  m_value (sliders (widgets this') fovSlider) = fov_shown v.
Proof.
  intros Hs Hafter. rewrite dispatch_all_app.
  destruct (dispatch_all before this sender) as [[this1 sender1] |] eqn:Hb;
    [| discriminate].
  destruct (dispatch_all_kept _ _ _ _ _ Hs Hb) as [(Hs1 & _) _].
  rewrite Hs in Hs1. cbn [dispatch_all].
  destruct (dispatch_fov this1 sender1 v Hs1) as (this2 & Hd & Hv).
  rewrite Hd. intros Hrest.
  rewrite (dispatch_all_other_keeps_fov after this2 this' sender1 sender')
    by (try exact Hafter; try exact Hrest;
        rewrite (dispatch_subs _ _ _ _ _ _ Hd); exact Hs1).
  exact Hv.
Qed.

Lemma last_fov_packet_wins_witness :
  exists this' sender',
    dispatch_all
      ([("fov"%string, VFloat Binary32.one)]
       ++ ("fov"%string, VFloat fov_payload)
          :: [("tile_histogram"%string, VUInt32s [1; 2])])
      constructed_form [] = Some (this', sender') /\
    m_value (sliders (widgets this') fovSlider) = fov_shown fov_payload.
Proof.
  destruct (dispatch_all_decodable
              ([("fov"%string, VFloat Binary32.one)]
               ++ ("fov"%string, VFloat fov_payload)
                  :: [("tile_histogram"%string, VUInt32s [1; 2])])
              constructed_form [] eq_refl eq_refl) as [this' E].
  exists this', []. split; [exact E |].
  apply (last_fov_packet_wins [("fov"%string, VFloat Binary32.one)]
           [("tile_histogram"%string, VUInt32s [1; 2])] fov_payload
           constructed_form this' [] [] eq_refl); [| exact E].
  repeat constructor. cbn. discriminate.
Defined.

(** A packet on a channel the form has not subscribed to, its own
    outbound channels included, is dropped: neither the form nor the sender
    changes. *)
Lemma dispatch_unsubscribed_is_dropped (this : ControlsForm)
    (sender : PacketMuxer) (name : string) (packet : value) :
  subs this = form_subs ->
  name <> "fov"%string -> name <> "tile_histogram"%string ->
  dispatch name packet this sender = Some (this, sender).
Proof.
  intros Hs Hf Ht. unfold dispatch. rewrite Hs, form_subs_lookup.
  destruct (String.eqb_spec name "tile_histogram"); [congruence |].
  destruct (String.eqb_spec name "fov"); [congruence |]. reflexivity.
Qed.

(** ** The export on arbitrary headers and buffers *)

Lemma int_of_Some (z z' : Z) :
  int_of z = Some z' -> z' = z /\ INT_MIN <= z <= INT_MAX.
Proof.
  unfold int_of. destruct (INT_MIN <=? z) eqn:H1; [| discriminate].
  destruct (z <=? INT_MAX) eqn:H2; [| discriminate].
  intros [= <-]. apply Z.leb_le in H1. apply Z.leb_le in H2. lia.
Qed.

Lemma int_of_None (z : Z) :
  int_of z = None -> z < INT_MIN \/ INT_MAX < z.
Proof.
  unfold int_of. destruct (INT_MIN <=? z) eqn:H1.
  - destruct (z <=? INT_MAX) eqn:H2; [discriminate |].
    apply Z.leb_gt in H2. right. exact H2.
  - apply Z.leb_gt in H1. left. exact H1.
Qed.

(** One pass of the row loop, read backwards: when it returns, no [int]
    product overflowed, the row lies inside the buffer, and the row's
    bytes were appended. *)
Lemma write_row_Some (this : ControlsForm) (r : Z) (f f' : list Byte.byte) :
  write_row this r f = Some f' ->
  let w := width (hdrHeader this) in
  r * w * 3 <= INT_MAX /\ w * 3 <= INT_MAX /\
  0 <= r * w * 3 /\ 0 <= w * 3 /\
  r * w * 3 + w * 3 <= Z.of_nat (length (hdrBuffer this)) /\
  f' = f ++ flat_map float_bytes
              (take (Z.to_nat (w * 3)) (drop (Z.to_nat (r * w * 3)) (hdrBuffer this))).
Proof.
  intros H w. unfold write_row, int_mul in H. fold w in H.
  destruct (int_of (r * w)) as [rw |] eqn:E1; [| discriminate H].
  apply int_of_Some in E1 as [-> E1]. cbn [mbind option_bind] in H.
  destruct (int_of (r * w * 3)) as [offset |] eqn:E2; [| discriminate H].
  apply int_of_Some in E2 as [-> E2]. cbn [mbind option_bind] in H.
  destruct (int_of (w * 3)) as [count |] eqn:E3; [| discriminate H].
  apply int_of_Some in E3 as [-> E3]. cbn [mbind option_bind] in H.
  destruct (0 <=? r * w * 3) eqn:B1; [| discriminate H].
  destruct (0 <=? w * 3) eqn:B2; [| discriminate H].
  destruct (r * w * 3 + w * 3 <=? Z.of_nat (length (hdrBuffer this))) eqn:B3;
    [| discriminate H].
  cbn [andb] in H. injection H as <-.
  apply Z.leb_le in B1. apply Z.leb_le in B2. apply Z.leb_le in B3.
  repeat (split; [lia |]). reflexivity.
Qed.

Lemma write_rows_Some (this : ControlsForm) (n : nat) (f f' : list Byte.byte) :
  write_rows this n f = Some f' ->
  let w := width (hdrHeader this) in
  exists samples,
    f' = f ++ samples /\
    Z.of_nat (length samples) = 12 * w * Z.of_nat n.
Proof.
  intros H w. revert f H. induction n as [| n IH]; intros f H.
  - cbn in H. injection H as <-. exists []. rewrite app_nil_r.
    split; [reflexivity | cbn; lia].
  - cbn [write_rows] in H.
    destruct (write_row this (Z.of_nat n) f) as [f1 |] eqn:E; [| discriminate H].
    cbn [mbind option_bind] in H.
    apply write_row_Some in E. fold w in E.
    destruct E as (_ & _ & Ho & Hc & Hfit & ->).
    destruct (IH _ H) as (samples & -> & Hlen).
    eexists. rewrite <- app_assoc. split; [reflexivity |].
    rewrite length_app, length_float_bytes, length_take, length_drop.
    lia.
Qed.

(** With samples held, the export opens the file and runs the row loop. *)
Lemma savePfm_held (this : ControlsForm) (fileName : string)
    (fs : gmap string (list Byte.byte)) :
  hdrBuffer this <> [] ->
  savePfm fileName this fs
  = (r ← int_sub (height (hdrHeader this)) 1;
     f' ← write_rows this (Z.to_nat (r + 1))
            (pfm_header (width (hdrHeader this)) (height (hdrHeader this)));
     Some (<[fileName := f']> fs)).
Proof.
  intros Hb. unfold savePfm.
  destruct (hdrBuffer this); [congruence | reflexivity].
Qed.

(** X4: whenever the export returns, it has changed no file but the named
    one; and if samples were held, the named file now consists of the
    header for the recorded width and height followed by exactly
    [12 * width * max(height, 0)] bytes of samples. *)
Theorem savePfm_only_named_file (this : ControlsForm) (fileName : string)
    (fs fs' : gmap string (list Byte.byte)) :
  savePfm fileName this fs = Some fs' ->
  let w := width (hdrHeader this) in
  let h := height (hdrHeader this) in
  (forall other, other <> fileName -> fs' !! other = fs !! other) /\
  (hdrBuffer this <> [] ->
   exists samples,
     fs' !! fileName = Some (pfm_header w h ++ samples) /\
     Z.of_nat (length samples) = 12 * w * Z.max h 0).
Proof.
  intros H w h.
  destruct (decide (hdrBuffer this = [])) as [Hb | Hb].
  - unfold savePfm in H. rewrite Hb in H. injection H as <-.
    split; [reflexivity | congruence].
  - rewrite savePfm_held in H by exact Hb. fold w h in H. unfold int_sub in H.
    destruct (int_of (h - 1)) as [r |] eqn:E; [| discriminate H].
    apply int_of_Some in E as [-> E]. cbn [mbind option_bind] in H.
    destruct (write_rows this (Z.to_nat (h - 1 + 1)) (pfm_header w h))
      as [f' |] eqn:Ef; [| discriminate H].
    cbn [mbind option_bind] in H. injection H as <-.
    split.
    + intros other Hne. apply lookup_insert_ne. congruence.
    + intros _. apply write_rows_Some in Ef. fold w in Ef.
      destruct Ef as (samples & -> & Hlen).
      exists samples. split; [apply lookup_insert_eq |].
      rewrite Hlen. replace (h - 1 + 1) with h by lia.
      destruct (Z.le_gt_cases h 0) as [Hh | Hh].
      * rewrite Z2Nat.nonpos, Z.max_r by lia. reflexivity.
      * rewrite Z2Nat.id, Z.max_l by lia. reflexivity.
Qed.

Lemma savePfm_only_named_file_witness :
  exists fs' samples,
    savePfm "frame.pfm" small_frame {["other.txt"%string := [Byte.x00]]} = Some fs' /\
    fs' !! "other.txt"%string = Some [Byte.x00] /\
    fs' !! "frame.pfm"%string = Some (pfm_header 2 1 ++ samples) /\
    Z.of_nat (length samples) = 24.
Proof.
  assert (E : savePfm "frame.pfm" small_frame {["other.txt"%string := [Byte.x00]]}
              = Some (<["frame.pfm"%string :=
                         pfm_header 2 1 ++
                         flat_map float_bytes (map Binary32.of_Z [1; 2; 3; 4; 5; 6])]>
                        {["other.txt"%string := [Byte.x00]]})).
  { vm_compute. reflexivity. }
  destruct (savePfm_only_named_file small_frame "frame.pfm" _ _ E)
    as [Hother Hfile].
  destruct Hfile as (samples & Hs & Hlen); [discriminate |].
  eexists _, samples. split; [exact E |]. split.
  - rewrite Hother by discriminate. reflexivity.
  - split; [exact Hs | exact Hlen].
Defined.

(** A row inside the buffer is written when its offset and the row
    length fit an [int]. *)
Lemma write_row_inside (this : ControlsForm) (r : nat) (f : list Byte.byte) :
  let w := width (hdrHeader this) in
  0 <= w -> Z.of_nat r * w * 3 <= INT_MAX -> w * 3 <= INT_MAX ->
  Z.of_nat r * w * 3 + w * 3 <= Z.of_nat (length (hdrBuffer this)) ->
  write_row this (Z.of_nat r) f = Some (f ++ pfm_row (hdrBuffer this) w r).
Proof.
  intros w Hw Ho Hc Hfit. unfold write_row, pfm_row, int_mul. fold w.
  assert (Hmin : INT_MIN <= 0) by (unfold INT_MIN; lia).
  rewrite (int_of_in_range (Z.of_nat r * w)) by nia.
  cbn [mbind option_bind].
  rewrite (int_of_in_range (Z.of_nat r * w * 3)) by nia.
  cbn [mbind option_bind].
  rewrite (int_of_in_range (w * 3)) by nia.
  cbn [mbind option_bind].
  replace (0 <=? Z.of_nat r * w * 3) with true by (symmetry; apply Z.leb_le; nia).
  replace (0 <=? w * 3) with true by (symmetry; apply Z.leb_le; nia).
  replace (Z.of_nat r * w * 3 + w * 3 <=? Z.of_nat (length (hdrBuffer this)))
    with true by (symmetry; apply Z.leb_le; exact Hfit).
  cbn [andb]. do 4 f_equal.
  replace (Z.of_nat r * w * 3) with (Z.of_nat r * (w * 3)) by ring.
  rewrite Z2Nat.inj_mul, Nat2Z.id by nia. reflexivity.
Qed.

Lemma write_rows_inside (this : ControlsForm) (n : nat) (f : list Byte.byte) :
  let w := width (hdrHeader this) in
  0 <= w -> (Z.of_nat n - 1) * w * 3 <= INT_MAX -> w * 3 <= INT_MAX ->
  w * Z.of_nat n * 3 <= Z.of_nat (length (hdrBuffer this)) ->
  write_rows this n f
  = Some (f ++ flat_map (pfm_row (hdrBuffer this) w) (rev (seq 0 n))).
Proof.
  intros w Hw. revert f. induction n as [| n IH]; intros f Ho Hc Hfit.
  - cbn. rewrite app_nil_r. reflexivity.
  - cbn [write_rows]. fold w in IH.
    rewrite write_row_inside; fold w; [| exact Hw | nia | exact Hc | nia].
    cbn [mbind option_bind]. rewrite IH by nia.
    rewrite seq_S, rev_app_distr. cbn [rev app flat_map Nat.add].
    rewrite <- app_assoc. reflexivity.
Qed.

(** With samples held and at least one column and one row, the export
    writes the image when the buffer holds the samples of every row and
    the [int] products of the row loop do not overflow. *)
Lemma savePfm_inside (this : ControlsForm) (fileName : string)
    (fs : gmap string (list Byte.byte)) :
  let w := width (hdrHeader this) in
  let h := height (hdrHeader this) in
  hdrBuffer this <> [] -> 1 <= w -> 1 <= h ->
  w * h * 3 <= Z.of_nat (length (hdrBuffer this)) /\
  (h - 1) * w * 3 <= INT_MAX /\ w * 3 <= INT_MAX ->
  savePfm fileName this fs
  = Some (<[fileName := pfm_image (hdrBuffer this) w h]> fs).
Proof.
  intros w h Hb Hw Hh (Hfit & Ho & Hc). rewrite savePfm_held by exact Hb.
  unfold pfm_image. fold w h. unfold int_sub.
  rewrite (int_of_in_range (h - 1)) by (unfold INT_MIN; nia).
  cbn [mbind option_bind]. replace (h - 1 + 1) with h by lia.
  rewrite write_rows_inside; fold w; rewrite ?Z2Nat.id by lia;
    [reflexivity | lia | exact Ho | exact Hc | exact Hfit].
Qed.

(** Otherwise the first pass of the row loop, on the last row, already
    overflows or reads outside the buffer. *)
Lemma savePfm_outside (this : ControlsForm) (fileName : string)
    (fs : gmap string (list Byte.byte)) :
  let w := width (hdrHeader this) in
  let h := height (hdrHeader this) in
  hdrBuffer this <> [] -> 1 <= w -> 1 <= h ->
  Z.of_nat (length (hdrBuffer this)) < w * h * 3 \/
  INT_MAX < (h - 1) * w * 3 \/ INT_MAX < w * 3 ->
  savePfm fileName this fs = None.
Proof.
  intros w h Hb Hw Hh Hbad.
  destruct (savePfm fileName this fs) as [fs' |] eqn:E; [| reflexivity].
  exfalso. rewrite savePfm_held in E by exact Hb. fold w h in E.
  unfold int_sub in E.
  destruct (int_of (h - 1)) as [r |] eqn:E1; [| discriminate E].
  apply int_of_Some in E1 as [-> E1]. cbn [mbind option_bind] in E.
  replace (h - 1 + 1) with h in E by lia.
  destruct (Z.to_nat h) as [| n] eqn:En; [lia |].
  cbn [write_rows] in E.
  destruct (write_row this (Z.of_nat n) (pfm_header w h)) as [f1 |] eqn:Er;
    [| discriminate E].
  apply write_row_Some in Er. fold w in Er.
  destruct Er as (Ho & Hc & _ & _ & Hfit & _).
  assert (Hn : Z.of_nat n = h - 1) by lia. rewrite Hn in *.
  destruct Hbad as [Hbad | [Hbad | Hbad]]; nia.
Qed.

(** X5: for a header of at least one column and one row and a buffer that
    holds samples, the export is defined exactly when the buffer holds at
    least [w * h * 3] samples and the row length [w * 3] and the offset
    [(h - 1) * w * 3] of the last row fit an [int]; it then writes the
    image of the first [w * h * 3] samples.  A frame received only in
    part has no defined export. *)
Theorem savePfm_defined_iff (this : ControlsForm) (fileName : string)
    (fs : gmap string (list Byte.byte)) :
  let w := width (hdrHeader this) in
  let h := height (hdrHeader this) in
  hdrBuffer this <> [] -> 1 <= w -> 1 <= h ->
  (w * h * 3 <= Z.of_nat (length (hdrBuffer this)) /\
   (h - 1) * w * 3 <= INT_MAX /\ w * 3 <= INT_MAX ->
   savePfm fileName this fs
   = Some (<[fileName := pfm_image (hdrBuffer this) w h]> fs)) /\
  (Z.of_nat (length (hdrBuffer this)) < w * h * 3 \/
   INT_MAX < (h - 1) * w * 3 \/ INT_MAX < w * 3 ->
   savePfm fileName this fs = None).
Proof.
  intros w h Hb Hw Hh. split.
  - apply (savePfm_inside this fileName fs Hb Hw Hh).
  - apply (savePfm_outside this fileName fs Hb Hw Hh).
Qed.

Lemma savePfm_defined_iff_witness :
  savePfm "frame.pfm" small_frame ∅
  = Some (<["frame.pfm"%string := pfm_image (hdrBuffer small_frame) 2 1]> ∅).
Proof.
  apply (savePfm_defined_iff small_frame "frame.pfm" ∅).
  - discriminate.
  - cbn. lia.
  - cbn. lia.
  - cbn. unfold INT_MAX. lia.
Defined.

(** X6: with samples held but a header of no rows (a height from
    [INT_MIN + 1] to 0) or of no columns (width 0, height at least 1), the
    export truncates the named file to the bare header. *)
Theorem savePfm_degenerate_header (this : ControlsForm) (fileName : string)
    (fs : gmap string (list Byte.byte)) :
  let w := width (hdrHeader this) in
  let h := height (hdrHeader this) in
  hdrBuffer this <> [] ->
  INT_MIN < h <= 0 \/ (w = 0 /\ 1 <= h <= INT_MAX) ->
  savePfm fileName this fs = Some (<[fileName := pfm_header w h]> fs).
Proof.
  intros w h Hb Hd. rewrite savePfm_held by exact Hb. fold w h.
  unfold int_sub.
  rewrite (int_of_in_range (h - 1)) by (unfold INT_MIN, INT_MAX in *; lia).
  cbn [mbind option_bind]. replace (h - 1 + 1) with h by lia.
  destruct Hd as [Hd | [Hw Hd]].
  - rewrite Z2Nat.nonpos by lia. reflexivity.
  - rewrite write_rows_inside; fold w; rewrite ?Z2Nat.id by lia;
      [| lia | unfold INT_MAX; lia | unfold INT_MAX; lia | lia].
    cbn [mbind option_bind]. do 2 f_equal.
    rewrite <- (app_nil_r (pfm_header w h)) at 2. f_equal.
    induction (rev (seq 0 (Z.to_nat h))) as [| r l IH]; [reflexivity |].
    cbn [flat_map]. rewrite IH, app_nil_r. unfold pfm_row. rewrite Hw.
    reflexivity.
Qed.

Lemma savePfm_degenerate_header_witness :
  savePfm "frame.pfm" pending_frame ∅
  = Some (<["frame.pfm"%string := pfm_header 0 0]> ∅).
Proof.
  apply (savePfm_degenerate_header pending_frame "frame.pfm" ∅).
  - discriminate.
  - left. cbn. unfold INT_MIN. lia.
Defined.

(** ** The image of a completed frame *)

Lemma completed_frame_held (this : ControlsForm) :
  1 <= width (hdrHeader this) -> 1 <= height (hdrHeader this) ->
  completed_frame this -> hdrBuffer this <> [].
Proof.
  unfold completed_frame. intros Hw Hh Hframe Hb. rewrite Hb in Hframe.
  cbn [length Z.of_nat] in Hframe. nia.
Qed.

Lemma length_pfm_row_completed (this : ControlsForm) (r : nat) :
  let w := width (hdrHeader this) in
  let h := height (hdrHeader this) in
  1 <= w -> 1 <= h -> completed_frame this -> Z.of_nat r < h ->
  Z.of_nat (length (pfm_row (hdrBuffer this) w r)) = w * 3 * 4.
Proof.
  intros w h Hw Hh Hframe Hr. unfold pfm_row.
  rewrite length_float_bytes, length_take, length_drop.
  unfold completed_frame in Hframe. fold w h in Hframe.
  assert (Hoff : Z.of_nat (r * Z.to_nat (w * 3)) = Z.of_nat r * (w * 3)).
  { rewrite Nat2Z.inj_mul, Z2Nat.id by lia. reflexivity. }
  assert (Hfit : Z.of_nat r * (w * 3) + w * 3
                 <= Z.of_nat (length (hdrBuffer this))) by nia.
  lia.
Qed.

(** C4 as stated fails on frames for which an [int] product of the row
    loop overflows.  For a completed frame 715827883 pixels wide and one
    pixel high the row length [width * 3] overflows; for a completed frame
    one pixel wide and 715827884 pixels high the offset
    [(height - 1) * width * 3] of the last row overflows.  On both the
    export has no defined result. *)
Lemma savePfm_wide_frame_undefined :
  1 <= width (hdrHeader wide_frame) /\ 1 <= height (hdrHeader wide_frame) /\
  completed_frame wide_frame /\
  savePfm "frame.pfm" wide_frame ∅ = None /\
  savePfm "frame.pfm" wide_frame ∅
  <> Some (<["frame.pfm"%string :=
              pfm_image (hdrBuffer wide_frame) (width (hdrHeader wide_frame))
                (height (hdrHeader wide_frame))]> ∅) /\
  1 <= width (hdrHeader tall_frame) /\ 1 <= height (hdrHeader tall_frame) /\
  completed_frame tall_frame /\
  savePfm "frame.pfm" tall_frame ∅ = None.
Proof.
  assert (Hnone : savePfm "frame.pfm" wide_frame ∅ = None).
  { unfold savePfm, wide_frame. cbn [hdrBuffer hdrHeader width height].
    rewrite repeat_cons by lia.
    change (int_sub 1 1) with (Some 0). cbn [mbind option_bind].
    change (Z.to_nat (0 + 1)) with 1%nat. cbn [write_rows Z.of_nat].
    unfold write_row. cbn [hdrBuffer hdrHeader width height].
    change (int_mul 0 715827883) with (Some 0). cbn [mbind option_bind].
    change (int_mul 0 3) with (Some 0). cbn [mbind option_bind].
    unfold int_mul. rewrite int_of_out_of_range by (unfold INT_MAX; lia).
    reflexivity. }
  assert (Htall : completed_frame tall_frame).
  { unfold completed_frame, tall_frame. cbn [hdrBuffer hdrHeader width height].
    rewrite repeat_length, Z2Nat.id by lia. reflexivity. }
  split; [cbn; lia |]. split; [cbn; lia |]. split.
  - unfold completed_frame, wide_frame. cbn [hdrBuffer hdrHeader width height].
    rewrite repeat_length, Z2Nat.id by lia. reflexivity.
  - split; [exact Hnone |]. split; [rewrite Hnone; discriminate |].
    split; [cbn; lia |]. split; [cbn; lia |]. split; [exact Htall |].
    apply savePfm_outside.
    + apply completed_frame_held; [cbn; lia | cbn; lia | exact Htall].
    + cbn. lia.
    + cbn. lia.
    + right. left. cbn [tall_frame hdrHeader width height].
      unfold INT_MAX. lia.
Qed.

(** C4, amended: for a completed frame of width [w >= 1] and height
    [h >= 1] whose row length [w * 3] and last row offset
    [(h - 1) * w * 3] fit an [int], [savePfm] leaves in the named file
    exactly the header ["PF\n<w> <h>\n-1.0\n"] followed by the rows from
    the bottom one ([h - 1]) to the top one ([0]), each row the
    [w * 3 * 4] bytes of its samples; the header of a 2 x 1 frame is
    ["PF\n2 1\n-1.0\n"].  The two bounds are exact: for a completed frame
    outside them the export has no defined result. *)
Theorem savePfm_writes_pfm_image (this : ControlsForm) (fileName : string)
    (fs : gmap string (list Byte.byte)) :
  let w := width (hdrHeader this) in
  let h := height (hdrHeader this) in
  1 <= w -> 1 <= h -> completed_frame this ->
  (w * 3 <= INT_MAX /\ (h - 1) * w * 3 <= INT_MAX ->
   savePfm fileName this fs
   = Some (<[fileName :=
              pfm_header w h ++
              flat_map (pfm_row (hdrBuffer this) w) (rev (seq 0 (Z.to_nat h)))]> fs) /\
   (forall r : nat,
       Z.of_nat r < h ->
       Z.of_nat (length (pfm_row (hdrBuffer this) w r)) = w * 3 * 4)) /\
  (INT_MAX < w * 3 \/ INT_MAX < (h - 1) * w * 3 ->
   savePfm fileName this fs = None) /\
  pfm_header 2 1
  = list_byte_of_string ("PF" +:+ LF +:+ "2 1" +:+ LF +:+ "-1.0" +:+ LF).
Proof.
  intros w h Hw Hh Hframe.
  pose proof (completed_frame_held this Hw Hh Hframe) as Hb.
  assert (Hlen : Z.of_nat (length (hdrBuffer this)) = w * h * 3)
    by exact Hframe.
  split; [| split].
  - intros [Hc Ho]. split.
    + apply (savePfm_inside this fileName fs Hb Hw Hh).
      fold w h. lia.
    + intros r. apply (length_pfm_row_completed this r Hw Hh Hframe).
  - intros Hbad. apply (savePfm_outside this fileName fs Hb Hw Hh).
    fold w h. right. destruct Hbad as [Hbad | Hbad]; [right | left]; exact Hbad.
  - exact pfm_header_2_1.
Qed.

Lemma savePfm_writes_pfm_image_witness :
  savePfm "frame.pfm" two_row_frame ∅
  = Some {["frame.pfm"%string :=
             list_byte_of_string ("PF" +:+ LF +:+ "1 2" +:+ LF +:+ "-1.0" +:+ LF)
             ++ flat_map float_bytes (map Binary32.of_Z [4; 5; 6; 1; 2; 3])]}.
Proof.
  pose proof (savePfm_writes_pfm_image two_row_frame "frame.pfm" ∅) as H.
  cbv zeta in H.
  destruct H as [Hin _]; [cbn; lia | cbn; lia | reflexivity |].
  destruct Hin as [E _]; [split; cbn; unfold INT_MAX; lia |].
  rewrite E. vm_compute. reflexivity.
Defined.

(** ** Repeated exports, and what the file retains *)

(** X7: the export replaces the named file rather than appending to it:
    the result does not depend on what the file held before, and exporting
    a second time changes nothing. *)
Theorem savePfm_replaces_file (this : ControlsForm) (fileName : string)
    (fs fs' : gmap string (list Byte.byte)) :
  savePfm fileName this fs = Some fs' ->
  savePfm fileName this fs' = Some fs' /\
  (hdrBuffer this <> [] ->
   forall old, savePfm fileName this (<[fileName := old]> fs) = Some fs').
Proof.
  intros H. destruct (decide (hdrBuffer this = [])) as [Hb | Hb].
  - split; [| congruence]. unfold savePfm in *. rewrite Hb in *.
    injection H as <-. reflexivity.
  - rewrite savePfm_held in H by exact Hb.
    destruct (int_sub (height (hdrHeader this)) 1) as [r |] eqn:Er;
      [| discriminate H].
    cbn [mbind option_bind] in H.
    destruct (write_rows this (Z.to_nat (r + 1))
                (pfm_header (width (hdrHeader this)) (height (hdrHeader this))))
      as [f' |] eqn:Ef; [| discriminate H].
    cbn [mbind option_bind] in H. injection H as <-.
    split; [| intros _ old]; rewrite savePfm_held by exact Hb;
      rewrite Er; cbn [mbind option_bind]; rewrite Ef;
      cbn [mbind option_bind]; rewrite insert_insert_eq; reflexivity.
Qed.

Lemma savePfm_replaces_file_witness :
  exists fs',
    savePfm "frame.pfm" small_frame ∅ = Some fs' /\
    savePfm "frame.pfm" small_frame fs' = Some fs' /\
    savePfm "frame.pfm" small_frame {["frame.pfm"%string := [Byte.x00]]}
    = Some fs'.
Proof.
  assert (E : savePfm "frame.pfm" small_frame ∅
              = Some {["frame.pfm"%string :=
                         pfm_header 2 1 ++
                         flat_map float_bytes
                           (map Binary32.of_Z [1; 2; 3; 4; 5; 6])]}).
  { vm_compute. reflexivity. }
  destruct (savePfm_replaces_file small_frame "frame.pfm" _ _ E) as [H1 H2].
  eexists. split; [exact E |]. split; [exact H1 |].
  apply (H2 ltac:(discriminate) [Byte.x00]).
Defined.

Lemma byte_of_Z_inj (a b : Z) :
  0 <= a < 256 -> 0 <= b < 256 -> byte_of_Z a = byte_of_Z b -> a = b.
Proof.
  intros Ha Hb. unfold byte_of_Z.
  rewrite !Z.mod_small by lia.
  destruct (Byte.of_N (Z.to_N a)) as [x |] eqn:Ex.
  2:{ apply Byte.of_N_None_iff in Ex. lia. }
  destruct (Byte.of_N (Z.to_N b)) as [y |] eqn:Ey.
  2:{ apply Byte.of_N_None_iff in Ey. lia. }
  intros ->. apply Byte.to_of_N in Ex. apply Byte.to_of_N in Ey. lia.
Qed.

Lemma byte_of_Z_mod (z : Z) : byte_of_Z z = byte_of_Z (z mod 256).
Proof. unfold byte_of_Z. rewrite Z.mod_mod by lia. reflexivity. Qed.

Lemma bytes_decompose (a : Z) :
  0 <= a < 2 ^ 32 ->
  a = a mod 256 + 256 * ((a / 2 ^ 8) mod 256)
      + 2 ^ 16 * ((a / 2 ^ 16) mod 256) + 2 ^ 24 * ((a / 2 ^ 24) mod 256).
Proof.
  intros Ha.
  change (2 ^ 16) with (2 ^ 8 * 2 ^ 8). change (2 ^ 24) with (2 ^ 8 * 2 ^ 8 * 2 ^ 8).
  rewrite <- !Z.div_div by lia. change (2 ^ 8) with 256.
  set (a1 := a / 256). set (a2 := a1 / 256). set (a3 := a2 / 256).
  pose proof (Z.div_mod a 256 ltac:(lia)) as H0. fold a1 in H0.
  pose proof (Z.div_mod a1 256 ltac:(lia)) as H1. fold a2 in H1.
  pose proof (Z.div_mod a2 256 ltac:(lia)) as H2. fold a3 in H2.
  assert (H3 : 0 <= a3 < 256).
  { unfold a3, a2, a1. split; [repeat apply Z.div_pos; lia |].
    repeat (apply Z.div_lt_upper_bound; [lia |]).
    change (2 ^ 32) with (256 * (256 * (256 * 256))) in Ha. lia. }
  rewrite (Z.mod_small a3) by lia. lia.
Qed.

(** The four bytes determine the 32 bits. *)
Lemma float_bytes_bits (x y : spec_float) :
  0 <= bits_of_binary32 x < 2 ^ 32 -> 0 <= bits_of_binary32 y < 2 ^ 32 ->
  float_bytes x = float_bytes y -> bits_of_binary32 x = bits_of_binary32 y.
Proof.
  unfold float_bytes. set (a := bits_of_binary32 x). set (b := bits_of_binary32 y).
  intros Ha Hb H. injection H as H0 H1 H2 H3.
  rewrite (byte_of_Z_mod a), (byte_of_Z_mod b) in H0.
  rewrite (byte_of_Z_mod (a / 2 ^ 8)), (byte_of_Z_mod (b / 2 ^ 8)) in H1.
  rewrite (byte_of_Z_mod (a / 2 ^ 16)), (byte_of_Z_mod (b / 2 ^ 16)) in H2.
  rewrite (byte_of_Z_mod (a / 2 ^ 24)), (byte_of_Z_mod (b / 2 ^ 24)) in H3.
  apply byte_of_Z_inj in H0; [| apply Z.mod_pos_bound; lia ..].
  apply byte_of_Z_inj in H1; [| apply Z.mod_pos_bound; lia ..].
  apply byte_of_Z_inj in H2; [| apply Z.mod_pos_bound; lia ..].
  apply byte_of_Z_inj in H3; [| apply Z.mod_pos_bound; lia ..].
  rewrite (bytes_decompose a Ha), (bytes_decompose b Hb), H0, H1, H2, H3.
  reflexivity.
Qed.

Lemma bits_of_binary32_finite (s : bool) (m : positive) (e : Z) :
  bounded Binary32.prec Binary32.emax m e = true ->
  let rest := (e + 149) * 2 ^ 23 + Zpos m in
  0 < rest < 255 * 2 ^ 23.
Proof.
  intros Hb rest. subst rest.
  destruct (bounded_inv m e Hb) as (Hr & _ & _).
  pose proof (mantissa_lt_2_24 m e Hb). pose proof (Pos2Z.is_pos m). lia.
Qed.

Lemma bits_of_binary32_range (x : spec_float) :
  Binary32.valid x = true -> 0 <= bits_of_binary32 x < 2 ^ 32.
Proof.
  destruct x as [s | s | | s m e]; intros Hv.
  - destruct s; cbn; lia.
  - destruct s; cbn; lia.
  - cbn; lia.
  - pose proof (bits_of_binary32_finite s m e Hv) as H. cbv zeta in H.
    unfold bits_of_binary32. destruct s; lia.
Qed.

Lemma finite_rest_inj (mx my : positive) (ex ey : Z) :
  bounded Binary32.prec Binary32.emax mx ex = true ->
  bounded Binary32.prec Binary32.emax my ey = true ->
  (ex + 149) * 2 ^ 23 + Zpos mx = (ey + 149) * 2 ^ 23 + Zpos my ->
  mx = my /\ ex = ey.
Proof.
  intros Hx Hy Hrest.
  destruct (bounded_inv mx ex Hx) as (Hrx & Hdx & Hcx).
  destruct (bounded_inv my ey Hy) as (Hry & Hdy & Hcy).
  pose proof (mantissa_lt_2_24 mx ex Hx) as Hmx.
  pose proof (mantissa_lt_2_24 my ey Hy) as Hmy.
  pose proof (digits2_pos_bounds mx) as [Hlx _].
  pose proof (digits2_pos_bounds my) as [Hly _].
  assert (He : ex = ey).
  { destruct (Z.lt_trichotomy ex ey) as [Hlt | [Heq | Hgt]]; [| exact Heq |].
    - destruct Hcy as [-> | Hd]; [lia |]. rewrite Hd in Hly.
      change (2 ^ (24 - 1)) with (2 ^ 23) in Hly. nia.
    - destruct Hcx as [-> | Hd]; [lia |]. rewrite Hd in Hlx.
      change (2 ^ (24 - 1)) with (2 ^ 23) in Hlx. nia. }
  subst ey. split; [lia | reflexivity].
Qed.

(** Numbers of binary32 with the same encoding are the same. *)
Lemma bits_of_binary32_inj (x y : spec_float) :
  Binary32.valid x = true -> Binary32.valid y = true ->
  bits_of_binary32 x = bits_of_binary32 y -> x = y.
Proof.
  intros Hx Hy.
  destruct x as [sx | sx | | sx mx ex]; destruct y as [sy | sy | | sy my ey];
    unfold bits_of_binary32; intros H.
  - destruct sx, sy; first [reflexivity | exfalso; lia].
  - destruct sx, sy; exfalso; lia.
  - destruct sx; exfalso; lia.
  - pose proof (bits_of_binary32_finite sy my ey Hy) as Hfy. cbv zeta in Hfy.
    destruct sx, sy; exfalso; lia.
  - destruct sx, sy; exfalso; lia.
  - destruct sx, sy; first [reflexivity | exfalso; lia].
  - destruct sx; exfalso; lia.
  - pose proof (bits_of_binary32_finite sy my ey Hy) as Hfy. cbv zeta in Hfy.
    destruct sx, sy; exfalso; lia.
  - destruct sy; exfalso; lia.
  - destruct sy; exfalso; lia.
  - reflexivity.
  - pose proof (bits_of_binary32_finite sy my ey Hy) as Hfy. cbv zeta in Hfy.
    destruct sy; exfalso; lia.
  - pose proof (bits_of_binary32_finite sx mx ex Hx) as Hfx. cbv zeta in Hfx.
    destruct sx, sy; exfalso; lia.
  - pose proof (bits_of_binary32_finite sx mx ex Hx) as Hfx. cbv zeta in Hfx.
    destruct sx, sy; exfalso; lia.
  - pose proof (bits_of_binary32_finite sx mx ex Hx) as Hfx. cbv zeta in Hfx.
    destruct sx; exfalso; lia.
  - pose proof (bits_of_binary32_finite sx mx ex Hx) as Hfx. cbv zeta in Hfx.
    pose proof (bits_of_binary32_finite sy my ey Hy) as Hfy. cbv zeta in Hfy.
    assert (Hs : sx = sy)
      by (destruct sx, sy; first [reflexivity | exfalso; lia]).
    subst sy.
    destruct (finite_rest_inj mx my ex ey Hx Hy) as [-> ->];
      [destruct sx; lia | reflexivity].
Qed.

Lemma float_bytes_inj (x y : spec_float) :
  Binary32.valid x = true -> Binary32.valid y = true ->
  float_bytes x = float_bytes y -> x = y.
Proof.
  intros Hx Hy H. apply bits_of_binary32_inj; [exact Hx | exact Hy |].
  apply float_bytes_bits;
    [apply bits_of_binary32_range; exact Hx
    | apply bits_of_binary32_range; exact Hy | exact H].
Qed.

Lemma flat_map_float_bytes_inj (l1 l2 : list spec_float) :
  Forall (fun x => Binary32.valid x = true) l1 ->
  Forall (fun x => Binary32.valid x = true) l2 ->
  flat_map float_bytes l1 = flat_map float_bytes l2 -> l1 = l2.
Proof.
  intros H1. revert l2. induction H1 as [| x l1 Hx H1 IH]; intros l2 H2 H.
  - destruct l2 as [| y l2]; [reflexivity | discriminate H].
  - destruct H2 as [| y l2 Hy H2]; [discriminate H |].
    cbn [flat_map] in H.
    assert (Hxy : float_bytes x = float_bytes y /\
                  flat_map float_bytes l1 = flat_map float_bytes l2).
    { unfold float_bytes in *. cbn [app] in H. injection H as -> -> -> -> H.
      split; [reflexivity | exact H]. }
    destruct Hxy as [Hxy Hrest].
    rewrite (float_bytes_inj x y Hx Hy Hxy), (IH l2 H2 Hrest). reflexivity.
Qed.

Lemma take_add_drop {A} (a c : nat) (l : list A) :
  take (a + c) l = take a l ++ take c (drop a l).
Proof.
  revert l. induction a as [| a IH]; intros l; [reflexivity |].
  destruct l as [| x l]; [destruct c; reflexivity |].
  cbn [Nat.add take drop app]. rewrite IH. reflexivity.
Qed.

(** The rows written determine the samples they were taken from. *)
Lemma pfm_rows_inj (b1 b2 : list spec_float) (w : Z) (n : nat) :
  Forall (fun x => Binary32.valid x = true) b1 ->
  Forall (fun x => Binary32.valid x = true) b2 ->
  length b1 = length b2 ->
  flat_map (pfm_row b1 w) (rev (seq 0 n))
  = flat_map (pfm_row b2 w) (rev (seq 0 n)) ->
  take (n * Z.to_nat (w * 3)) b1 = take (n * Z.to_nat (w * 3)) b2.
Proof.
  intros H1 H2 Hlen. induction n as [| n IH]; [reflexivity |].
  rewrite seq_S, rev_app_distr. cbn [rev app flat_map Nat.add].
  intros H. apply app_inj_1 in H as [Hrow Hrest].
  - specialize (IH Hrest). unfold pfm_row in Hrow.
    apply flat_map_float_bytes_inj in Hrow.
    + replace (S n * Z.to_nat (w * 3))%nat
        with (n * Z.to_nat (w * 3) + Z.to_nat (w * 3))%nat by lia.
      rewrite !take_add_drop, IH, Hrow. reflexivity.
    + apply Forall_take, Forall_drop. exact H1.
    + apply Forall_take, Forall_drop. exact H2.
  - unfold pfm_row. rewrite !length_float_bytes, !length_take, !length_drop.
    rewrite Hlen. reflexivity.
Qed.

(** X8: the export loses nothing.  Two completed frames of the same
    width and height whose exports leave the same bytes in the file hold
    the same samples. *)
Theorem savePfm_lossless (this1 this2 : ControlsForm) (fileName : string)
    (fs1 fs2 fs1' fs2' : gmap string (list Byte.byte)) :
  hdrHeader this1 = hdrHeader this2 ->
  let w := width (hdrHeader this1) in
  let h := height (hdrHeader this1) in
  1 <= w -> 1 <= h -> w * h * 3 <= INT_MAX ->
  completed_frame this1 -> completed_frame this2 ->
  Forall (fun x => Binary32.valid x = true) (hdrBuffer this1) ->
  Forall (fun x => Binary32.valid x = true) (hdrBuffer this2) ->
  savePfm fileName this1 fs1 = Some fs1' ->
  savePfm fileName this2 fs2 = Some fs2' ->
  fs1' !! fileName = fs2' !! fileName ->
  hdrBuffer this1 = hdrBuffer this2.
Proof.
  intros Hh w h Hw Hh1 Hint Hc1 Hc2 Hv1 Hv2 Hs1 Hs2 Hfile.
  assert (Hw2 : 1 <= width (hdrHeader this2)) by (rewrite <- Hh; exact Hw).
  assert (Hh2 : 1 <= height (hdrHeader this2)) by (rewrite <- Hh; exact Hh1).
  assert (Hint2 : width (hdrHeader this2) * height (hdrHeader this2) * 3 <= INT_MAX)
    by (rewrite <- Hh; exact Hint).
  rewrite (savePfm_completed_frame this1 Hw Hh1 Hc1 Hint) in Hs1.
  rewrite (savePfm_completed_frame this2 Hw2 Hh2 Hc2 Hint2) in Hs2.
  injection Hs1 as <-. injection Hs2 as <-.
  rewrite !lookup_insert_eq in Hfile. injection Hfile as Hfile.
  rewrite <- Hh in Hfile. fold w h in Hfile.
  unfold pfm_image in Hfile. apply app_inv_head in Hfile.
  unfold completed_frame in Hc1, Hc2. rewrite <- Hh in Hc2. fold w h in Hc1, Hc2.
  assert (Hlen : length (hdrBuffer this1) = length (hdrBuffer this2)) by lia.
  pose proof (pfm_rows_inj _ _ w (Z.to_nat h) Hv1 Hv2 Hlen Hfile) as Htake.
  assert (Hn : (Z.to_nat h * Z.to_nat (w * 3))%nat = length (hdrBuffer this1)).
  { apply Nat2Z.inj. rewrite Nat2Z.inj_mul, !Z2Nat.id, Hc1 by lia. ring. }
  rewrite Hn in Htake. rewrite Hlen in Htake at 2.
  rewrite !firstn_all in Htake. exact Htake.
Qed.

Lemma savePfm_lossless_witness :
  hdrBuffer small_frame = hdrBuffer small_frame.
Proof.
  apply (savePfm_lossless small_frame small_frame "frame.pfm" ∅ ∅
           {["frame.pfm"%string :=
               pfm_header 2 1 ++
               flat_map float_bytes (map Binary32.of_Z [1; 2; 3; 4; 5; 6])]}
           {["frame.pfm"%string :=
               pfm_header 2 1 ++
               flat_map float_bytes (map Binary32.of_Z [1; 2; 3; 4; 5; 6])]}
           eq_refl);
    try (vm_compute; congruence); try reflexivity;
    repeat constructor.
Defined.

(** ** The export without samples *)




(** ** The model paths *)

Lemma map_insert_lookup (name path other : string) (m : gmap string string) :
  map_insert name path m !! other
  = match m !! other with
    | Some v => Some v
    | None => if String.eqb name other then Some path else None
    end.
Proof.
  unfold map_insert. destruct (String.eqb_spec name other) as [-> | Hne].
  - destruct (m !! other) as [v |] eqn:E; [exact E |].
    apply lookup_insert_eq.
  - destruct (m !! name) as [v |] eqn:E.
    + destruct (m !! other); reflexivity.
    + rewrite lookup_insert_ne by exact Hne. destruct (m !! other); reflexivity.
Qed.

Lemma jsonFileToMap_fold (level : severity_level) (pt : list (string * string))
    (acc : gmap string string * list event) (name : string) :
  let line (p : string * string) :=
    ("Loaded NIF entry. Name: '" +:+ fst p
     +:+ "' remote-path: '" +:+ snd p +:+ "'")%string in
  let result :=
    fold_left
      (fun acc p =>
         (map_insert (fst p) (snd p) (fst acc),
          snd acc ++ BOOST_LOG_TRIVIAL level debug (line p)))
      pt acc in
  fst result !! name
  = match fst acc !! name with
    | Some v => Some v
    | None => option_map snd (List.find (fun p => String.eqb (fst p) name) pt)
    end /\
  snd result
  = snd acc ++ (if passes level debug
                then map (fun p => Log debug (line p)) pt else []).
Proof.
  intros line. revert acc. induction pt as [| p pt IH]; intros acc;
    cbn [fold_left].
  - cbn. split; [destruct (fst acc !! name); reflexivity |].
    destruct (passes level debug); rewrite app_nil_r; reflexivity.
  - specialize (IH (map_insert (fst p) (snd p) (fst acc),
                    snd acc ++ BOOST_LOG_TRIVIAL level debug (line p))).
    cbv zeta in IH. destruct IH as [IH1 IH2]. split.
    + rewrite IH1. cbn [fst]. rewrite map_insert_lookup. cbn [List.find].
      destruct (fst acc !! name); [reflexivity |].
      destruct (String.eqb (fst p) name); reflexivity.
    + rewrite IH2. cbn [snd]. unfold BOOST_LOG_TRIVIAL.
      destruct (passes level debug); cbn [map];
        rewrite <- app_assoc; reflexivity.
Qed.

(** X9: when the file of model paths names a model more than once, the
    map keeps the path of the first entry with that name
    ([std::map::insert] does not overwrite), and a name that does not occur
    is not in the map.  One line is logged for every entry, kept or not,
    when the filter in force lets severity [debug] pass (the levels [trace]
    and [debug]); under any other level, the default [info] among them,
    nothing is logged. *)
Theorem jsonFileToMap_first_entry_wins (env : Environment)
    (level : severity_level) (file : string) (pt : list (string * string)) :
  read_json env file = inr pt ->
  exists m logged,
    jsonFileToMap env level file = inr (m, logged) /\
    (forall name,
        m !! name
        = option_map snd (List.find (fun p => String.eqb (fst p) name) pt)) /\
    logged
    = if passes level debug
      then map (fun p => Log debug ("Loaded NIF entry. Name: '" +:+ fst p
                                    +:+ "' remote-path: '" +:+ snd p +:+ "'"))
             pt
      else [].
Proof.
  intros H. unfold jsonFileToMap. rewrite H.
  eexists _, _. split; [apply f_equal, surjective_pairing |]. split.
  - intros name. destruct (jsonFileToMap_fold level pt (∅, []) name) as [H1 _].
    cbv zeta in H1. rewrite H1. cbn [fst]. rewrite lookup_empty. reflexivity.
  - destruct (jsonFileToMap_fold level pt (∅, []) EmptyString) as [_ H2].
    cbv zeta in H2. rewrite H2. reflexivity.
Qed.

Lemma jsonFileToMap_first_entry_wins_witness :
  (exists m,
      jsonFileToMap local_server info "models.json" = inr (m, []) /\
      m !! "head"%string = Some "/nif/head-v1"%string /\
      m !! "tail"%string = None) /\
  (exists m logged,
      jsonFileToMap local_server debug "models.json" = inr (m, logged) /\
      length logged = 3%nat).
Proof.
  split.
  - destruct (jsonFileToMap_first_entry_wins local_server info "models.json"
                _ eq_refl) as (m & logged & E & Hm & Hl).
    exists m. cbn in Hl. subst logged. split; [exact E |]. split.
    + rewrite Hm. reflexivity.
    + rewrite Hm. reflexivity.
  - destruct (jsonFileToMap_first_entry_wins local_server debug "models.json"
                _ eq_refl) as (m & logged & E & _ & Hl).
    exists m, logged. split; [exact E |]. rewrite Hl. reflexivity.
Defined.

(** ** The event trace of a run *)

Lemma last_log (events : list event) (level severity : severity_level)
    (msg : string) :
  passes level severity = true ->
  last (events ++ BOOST_LOG_TRIVIAL level severity msg)
  = Some (Log severity msg).
Proof.
  intros H. rewrite BOOST_LOG_TRIVIAL_passes by exact H. apply last_snoc.
Qed.

Lemma loaded_not_error (loaded : list event) (msg : string) :
  Forall (fun e => exists msg, e = Log debug msg) loaded ->
  ~ In (Log error msg) loaded.
Proof.
  intros Hlog Hin. rewrite List.Forall_forall in Hlog.
  destruct (Hlog _ Hin) as [msg' H]. discriminate H.
Qed.

(** X10: among the runs on a command line that parses and with a level
    Boost knows, an error line is logged exactly in those in which an
    exception was thrown inside the [try] block and the filter lets
    severity [error] pass.  If the model paths do not load or the server
    does not answer, the code is [EXIT_FAILURE]; the last event is then the
    line ["Error: <what>"] unless the level is [fatal], under which no
    error line is logged.  In every other run no error line is logged at
    any level, so a window that fails to initialise makes the client
    return 1 silently. *)
Theorem main_error_line (env : Environment) (args : Options)
    (level : severity_level) :
  command_line env = Parsed args ->
  read_level (opt_log_level args) = Some level ->
  let host := opt_host args in
  let port := opt_port args in
  (nif_paths_load env args /\ Connect env host port = true ->
   forall msg, ~ In (Log error msg) (fst (main env))) /\
  (~ (nif_paths_load env args /\ Connect env host port = true) ->
   snd (main env) = Returned EXIT_FAILURE /\
   (passes level error = true ->
    exists what,
      last (fst (main env)) = Some (Log error ("Error: " +:+ what))) /\
   (passes level error = false ->
    forall msg, ~ In (Log error msg) (fst (main env)))).
Proof.
  intros Hc Hl host port. subst host port.
  pose proof (main_cases env args level Hc Hl) as Hcases. cbv zeta in Hcases.
  destruct Hcases as (loaded & Hlog & Hcases).
  destruct Hcases
    as [(Hn & what & E) | [(Hn & Hco & E) | [(Hn & Hco & Hi & E) | (Hn & Hco & Hi & E)]]];
    rewrite E; cbn [fst snd].
  - split; [intros [Hn' _]; contradiction |].
    intros _. split; [reflexivity |]. split.
    + intros Hp. exists what. apply (last_log [] _ _ _ Hp).
    + intros Hp msg. rewrite BOOST_LOG_TRIVIAL_dropped by exact Hp. intros [].
  - split; [intros [_ H]; congruence |].
    intros _. split; [reflexivity |]. split.
    + intros Hp. exists "Unable to connect"%string. apply last_log. exact Hp.
    + intros Hp msg.
      rewrite (BOOST_LOG_TRIVIAL_dropped level error _ Hp).
      rewrite app_nil_r, in_app_iff. intros [H | H].
      * exact (loaded_not_error loaded msg Hlog H).
      * apply BOOST_LOG_TRIVIAL_In in H as [H _]. discriminate H.
  - split; [| intros H; destruct H; split; assumption].
    intros _ msg. rewrite !in_app_iff. cbn [In].
    intros [H | [[H | []] | [H | [H | [H | []]]]]]; try discriminate H.
    + exact (loaded_not_error loaded msg Hlog H).
    + apply BOOST_LOG_TRIVIAL_In in H as [H _]. discriminate H.
  - split; [| intros H; destruct H; split; assumption].
    intros _ msg. rewrite !in_app_iff. cbn [In].
    intros [[H | [[H | []] | [H | [H | [H | []]]]]] | [H | [H | [H | []]]]];
      try discriminate H.
    + exact (loaded_not_error loaded msg Hlog H).
    + apply BOOST_LOG_TRIVIAL_In in H as [H _]. discriminate H.
    + apply repeat_spec in H. discriminate H.
Qed.

Lemma main_error_line_witness :
  snd (main no_server) = Returned EXIT_FAILURE /\
  exists what,
    last (fst (main no_server)) = Some (Log error ("Error: " +:+ what)).
Proof.
  destruct (main_error_line no_server default_options info eq_refl eq_refl)
    as [_ H].
  destruct H as (Hcode & Hline & _); [intros [_ H]; discriminate H |].
  split; [exact Hcode | exact (Hline eq_refl)].
Defined.

Lemma filter_frames (n : nat) (rest : list event) :
  List.filter is_frame (repeat GuiFrame n ++ rest)
  = repeat GuiFrame n ++ List.filter is_frame rest.
Proof.
  induction n as [| n IH]; [reflexivity |].
  cbn [repeat app List.filter is_frame]. rewrite IH. reflexivity.
Qed.

Lemma filter_frames_logs (logs : list event) :
  Forall (fun e => exists severity msg, e = Log severity msg) logs ->
  List.filter is_frame logs = [].
Proof.
  induction 1 as [| e logs (severity & msg & ->) _ IH]; [reflexivity |].
  cbn [List.filter is_frame]. exact IH.
Qed.

Lemma loaded_logs (loaded : list event) :
  Forall (fun e => exists msg, e = Log debug msg) loaded ->
  Forall (fun e => exists severity msg, e = Log severity msg) loaded.
Proof.
  apply List.Forall_impl. intros e [msg ->]. eexists _, _. reflexivity.
Qed.

Lemma BOOST_LOG_TRIVIAL_logs (level severity : severity_level) (msg : string) :
  Forall (fun e => exists severity msg, e = Log severity msg)
    (BOOST_LOG_TRIVIAL level severity msg).
Proof.
  apply List.Forall_forall. intros e He.
  apply BOOST_LOG_TRIVIAL_In in He as [-> _]. eexists _, _. reflexivity.
Qed.

Lemma logs_not_In (logs : list event) (e : event) :
  Forall (fun e => exists severity msg, e = Log severity msg) logs ->
  (forall severity msg, e <> Log severity msg) -> ~ In e logs.
Proof.
  intros Hlogs Hne Hin. rewrite List.Forall_forall in Hlogs.
  destruct (Hlogs e Hin) as (severity & msg & ->). exact (Hne _ _ eq_refl).
Qed.

(** X11: the calls that end the [try] block, [gui.Cleanup()] and the
    resets of the sender and the socket, are reached exactly in the runs
    that return [EXIT_SUCCESS]; such a run shows as many frames as
    [BeginFrame] allowed, every other run shows none. *)
Theorem main_frames_and_cleanup (env : Environment) (args : Options) :
  command_line env = Parsed args ->
  (In GuiCleanup (fst (main env)) <-> snd (main env) = Returned EXIT_SUCCESS) /\
  (In Disconnected (fst (main env)) <-> snd (main env) = Returned EXIT_SUCCESS) /\
  List.filter is_frame (fst (main env))
  = if succeeded (snd (main env))
    then repeat GuiFrame (frames env) else [].
Proof.
  intros Hc.
  destruct (read_level (opt_log_level args)) as [level |] eqn:Hl.
  2:{ unfold main. rewrite Hc, Hl. cbn [fst snd]. split; [| split].
      - split; [intros [] | discriminate].
      - split; [intros [] | discriminate].
      - reflexivity. }
  pose proof (main_cases env args level Hc Hl) as Hcases. cbv zeta in Hcases.
  destruct Hcases as (loaded & Hlog & Hcases).
  pose proof (loaded_logs loaded Hlog) as Hlogs.
  assert (Hnone : forall e : event,
             (forall severity msg, e <> Log severity msg) -> ~ In e loaded)
    by (intros e He; apply (logs_not_In loaded e Hlogs He)).
  assert (Hlogged : forall (e : event) severity msg,
             (forall severity msg, e <> Log severity msg) ->
             ~ In e (BOOST_LOG_TRIVIAL level severity msg))
    by (intros e severity msg He;
        apply (logs_not_In _ e (BOOST_LOG_TRIVIAL_logs level severity msg) He)).
  destruct Hcases
    as [(Hn & what & E) | [(Hn & Hco & E) | [(Hn & Hco & Hi & E) | (Hn & Hco & Hi & E)]]];
    rewrite E; cbn [fst snd].
  - split; [| split].
    + split; [| discriminate]. intros H. exfalso.
      apply (Hlogged GuiCleanup error _ ltac:(discriminate) H).
    + split; [| discriminate]. intros H. exfalso.
      apply (Hlogged Disconnected error _ ltac:(discriminate) H).
    + apply filter_frames_logs, BOOST_LOG_TRIVIAL_logs.
  - split; [| split].
    + split; [| discriminate]. rewrite !in_app_iff. intros [[H | H] | H]; exfalso.
      * apply (Hnone GuiCleanup ltac:(discriminate) H).
      * apply (Hlogged GuiCleanup info _ ltac:(discriminate) H).
      * apply (Hlogged GuiCleanup error _ ltac:(discriminate) H).
    + split; [| discriminate]. rewrite !in_app_iff. intros [[H | H] | H]; exfalso.
      * apply (Hnone Disconnected ltac:(discriminate) H).
      * apply (Hlogged Disconnected info _ ltac:(discriminate) H).
      * apply (Hlogged Disconnected error _ ltac:(discriminate) H).
    + apply filter_frames_logs. repeat apply Forall_app_2;
        [exact Hlogs | apply BOOST_LOG_TRIVIAL_logs | apply BOOST_LOG_TRIVIAL_logs].
  - split; [| split].
    + split; [| discriminate]. rewrite !in_app_iff. cbn [In].
      intros [H | [[H | []] | [H | [H | [H | []]]]]]; try discriminate H; exfalso.
      * apply (Hnone GuiCleanup ltac:(discriminate) H).
      * apply (Hlogged GuiCleanup info _ ltac:(discriminate) H).
    + split; [| discriminate]. rewrite !in_app_iff. cbn [In].
      intros [H | [[H | []] | [H | [H | [H | []]]]]]; try discriminate H; exfalso.
      * apply (Hnone Disconnected ltac:(discriminate) H).
      * apply (Hlogged Disconnected info _ ltac:(discriminate) H).
    + rewrite !List.filter_app, (filter_frames_logs loaded Hlogs),
        (filter_frames_logs _ (BOOST_LOG_TRIVIAL_logs level info _)).
      reflexivity.
  - split; [| split].
    + split; [reflexivity |]. intros _.
      apply in_or_app. right. apply in_or_app. right. left. reflexivity.
    + split; [reflexivity |]. intros _.
      apply in_or_app. right. apply in_or_app. right. right. left. reflexivity.
    + rewrite List.filter_app, filter_frames.
      rewrite !List.filter_app, (filter_frames_logs loaded Hlogs),
        (filter_frames_logs _ (BOOST_LOG_TRIVIAL_logs level info _)).
      cbn [List.filter is_frame app succeeded Z.eqb EXIT_SUCCESS].
      rewrite app_nil_r. reflexivity.
Qed.

Lemma main_frames_and_cleanup_witness :
  snd (main local_server) = Returned EXIT_SUCCESS /\
  In GuiCleanup (fst (main local_server)) /\
  List.filter is_frame (fst (main local_server)) = [GuiFrame; GuiFrame; GuiFrame].
Proof.
  destruct (main_frames_and_cleanup local_server _ eq_refl) as (Hclean & _ & Hf).
  split; [reflexivity |]. split.
  - apply Hclean. reflexivity.
  - rewrite Hf. reflexivity.
Defined.

(** ** The sample-count conversion outside the unit interval *)

Lemma renormalise_overflow (sx : bool) (p : positive) (e : Z) :
  Zpos p < 2 ^ 24 -> 104 < e -> renormalise sx (Zpos p) e = S754_infinity sx.
Proof.
  intros Hp He. unfold renormalise, shr_fexp.
  cbn [Zdigits2 shr_record_of_loc].
  pose proof (digits2_pos_le p 24 Hp).
  rewrite shr_nonpos by (unfold fexp, emin; lia).
  cbn [shr_m].
  destruct (Z.leb_spec e (128 - 24)); [lia | reflexivity].
Qed.

(** From 2^124 on, sixteen times a number overflows. *)
Lemma mul_16_overflow (s : bool) (m : positive) (e : Z) :
  bounded Binary32.prec Binary32.emax m e = true -> 100 < e ->
  Binary32.mul (S754_finite s m e) (Binary32.of_Z 16) = S754_infinity s.
Proof.
  intros Hb He. destruct (bounded_inv m e Hb) as (Hr & Hd & Hc).
  destruct Hc as [Hc | Hc]; [lia |].
  change (Binary32.of_Z 16) with (S754_finite false 8388608 (-19)).
  unfold Binary32.mul, SFmul.
  replace (xorb s false) with s by (destruct s; reflexivity).
  replace (m * 8388608)%positive with (Nat.iter 23 xO m)
    by (rewrite Pos.mul_comm; reflexivity).
  change Binary32.prec with 24. change Binary32.emax with 128.
  rewrite (binary_round_aux_shift s (Nat.iter 23 xO m) (e + -19) 23).
  - rewrite Zpos_iter_xO. change (Z.of_nat 23) with 23.
    rewrite Z.div_mul, Z.mod_mul by lia.
    change (round_half_even (Zpos m) 0 (2 ^ 23)) with (Zpos m).
    apply renormalise_overflow; [| lia].
    apply (mantissa_lt_2_24 m e Hb).
  - rewrite digits2_pos_iter_xO. unfold fexp, emin. lia.
  - lia.
Qed.

(** The conversion of a finite number, in integers: [t] is the integer
    part of sixteen times its magnitude. *)
Lemma convertSampleValue_finite (s : bool) (m : positive) (e : Z) :
  bounded Binary32.prec Binary32.emax m e = true ->
  convertSampleValue (S754_finite s m e)
  = let t := Z.shiftl (Zpos m) (e + 4) in
    if s then (if t =? 0 then Some 1 else None)
    else if t <? 2 ^ 32 then Some (Z.max t 1) else None.
Proof.
  intros Hb. cbv zeta. unfold convertSampleValue.
  assert (Ht : 0 <= Z.shiftl (Zpos m) (e + 4)) by (apply Z.shiftl_nonneg; lia).
  destruct (Z.le_gt_cases e 100) as [He | He].
  - destruct (mul_16_exact s m e Hb He) as [j ->].
    unfold Binary32.to_uint32, Binary32.trunc. rewrite shiftl_iter_xO.
    destruct s; cbn [cond_Zopp].
    + destruct (Z.eqb_spec (Z.shiftl (Zpos m) (e + 4)) 0) as [-> | Hne];
        [reflexivity |].
      replace (0 <=? - Z.shiftl (Zpos m) (e + 4)) with false
        by (symmetry; apply Z.leb_gt; lia).
      reflexivity.
    + replace (0 <=? Z.shiftl (Zpos m) (e + 4)) with true
        by (symmetry; apply Z.leb_le; exact Ht).
      cbn [andb]. destruct (Z.shiftl (Zpos m) (e + 4) <? 2 ^ 32); reflexivity.
  - rewrite mul_16_overflow by assumption. cbn.
    assert (Hbig : 2 ^ 32 <= Z.shiftl (Zpos m) (e + 4)).
    { rewrite Z.shiftl_mul_pow2 by lia.
      assert (2 ^ 32 <= 2 ^ (e + 4)) by (apply Z.pow_le_mono_r; lia).
      nia. }
    destruct s.
    + destruct (Z.eqb_spec (Z.shiftl (Zpos m) (e + 4)) 0); [lia | reflexivity].
    + destruct (Z.ltb_spec (Z.shiftl (Zpos m) (e + 4)) (2 ^ 32));
        [lia | reflexivity].
Qed.

(** The rational value of a finite number as one fraction. *)
Lemma to_Q_finite (s : bool) (m : positive) (e : Z) (q : Q) :
  to_Q (S754_finite s m e) = Some q ->
  0 <= e /\ q = inject_Z (cond_Zopp s (Zpos m * 2 ^ e)) \/
  e < 0 /\ q = Qmake (cond_Zopp s (Zpos m)) (Z.to_pos (2 ^ (- e))).
Proof.
  cbn [to_Q]. destruct (Z.leb_spec 0 e) as [He | He]; intros [= <-].
  - left. split; [exact He | reflexivity].
  - right. split; [exact He | reflexivity].
Qed.

Lemma shiftl_sixteenth (m : positive) (e : Z) :
  e < 0 -> Z.shiftl (Zpos m) (e + 4) = (16 * Zpos m) / 2 ^ (- e).
Proof.
  intros He. destruct (Z.le_gt_cases 0 (e + 4)) as [H4 | H4].
  - rewrite Z.shiftl_mul_pow2 by exact H4.
    replace 16 with (2 ^ (e + 4) * 2 ^ (- e))
      by (rewrite <- Z.pow_add_r by lia; replace (e + 4 + - e) with 4 by lia;
          reflexivity).
    replace (2 ^ (e + 4) * 2 ^ (- e) * Zpos m)
      with (Zpos m * 2 ^ (e + 4) * 2 ^ (- e)) by ring.
    rewrite Z.div_mul by (apply Z.pow_nonzero; lia). reflexivity.
  - rewrite Z.shiftl_div_pow2 by lia.
    replace (2 ^ (- e)) with (16 * 2 ^ (- (e + 4)))
      by (change 16 with (2 ^ 4); rewrite <- Z.pow_add_r by lia;
          f_equal; lia).
    rewrite Z.div_mul_cancel_l by (try apply Z.pow_nonzero; lia).
    reflexivity.
Qed.

(** The conversion is the integer part of sixteen times the value, raised
    to one, wherever that number fits. *)
Lemma convertSampleValue_Qfloor (v : spec_float) (q : Q) :
  Binary32.valid v = true -> to_Q v = Some q ->
  (-1 # 16 < q)%Q -> (q < inject_Z (2 ^ 28))%Q ->
  convertSampleValue v = Some (Z.max (Qfloor (inject_Z 16 * q)) 1).
Proof.
  intros Hv Hq Hlo Hhi. destruct v as [s | s | | s m e]; try discriminate Hq.
  - injection Hq as <-. destruct s; reflexivity.
  - rewrite (convertSampleValue_finite s m e Hv). cbv zeta.
    pose proof (Pos2Z.is_pos m) as Hm.
    destruct (to_Q_finite s m e q Hq) as [[He ->] | [He ->]].
    + assert (Hp : 0 < 2 ^ e) by (apply Z.pow_pos_nonneg; lia).
      rewrite Z.shiftl_mul_pow2 by lia.
      unfold Qlt in Hlo, Hhi. cbn [Qnum Qden inject_Z] in Hlo, Hhi.
      cbn [Qfloor Qmult inject_Z Qnum Qden Pos.mul].
      rewrite Z.div_1_r.
      replace (Zpos m * 2 ^ (e + 4)) with (16 * (Zpos m * 2 ^ e))
        by (rewrite Z.pow_add_r by lia; change (2 ^ 4) with 16; ring).
      destruct s; cbn [cond_Zopp] in *; [nia |].
      replace (16 * (Zpos m * 2 ^ e) <? 2 ^ 32) with true; [reflexivity |].
      symmetry. apply Z.ltb_lt. change (2 ^ 32) with (16 * 2 ^ 28). lia.
    + assert (Hp : 0 < 2 ^ (- e)) by (apply Z.pow_pos_nonneg; lia).
      rewrite shiftl_sixteenth by exact He.
      unfold Qlt in Hlo, Hhi. cbn [Qnum Qden inject_Z] in Hlo, Hhi.
      rewrite Z2Pos.id in Hlo, Hhi by exact Hp.
      cbn [Qfloor Qmult inject_Z Qnum Qden].
      rewrite Pos.mul_1_l, Z2Pos.id by exact Hp.
      destruct s; cbn [cond_Zopp] in *.
      * assert (Hsmall : 16 * Zpos m < 2 ^ (- e)) by lia.
        rewrite Z.div_small by lia. cbn [Z.eqb].
        replace (16 * - Zpos m / 2 ^ (- e)) with (-1); [reflexivity |].
        apply Z.div_unique with (2 ^ (- e) - 16 * Zpos m); lia.
      * replace (16 * Zpos m / 2 ^ (- e) <? 2 ^ 32) with true; [reflexivity |].
        symmetry. apply Z.ltb_lt. apply Z.div_lt_upper_bound; [lia |].
        change (2 ^ 32) with (16 * 2 ^ 28). nia.
Qed.

(** X12: for every binary32 number [v] with [-1/16 < v < 2^28] the
    conversion returns the integer part of [16 * v], raised to 1 when that
    is smaller. *)
Theorem convertSampleValue_floor (v : spec_float) (q : Q) :
  Binary32.valid v = true -> to_Q v = Some q ->
  (-1 # 16 < q)%Q -> (q < inject_Z (2 ^ 28))%Q ->
  convertSampleValue v = Some (Z.max (Qfloor (inject_Z 16 * q)) 1).
Proof. exact (convertSampleValue_Qfloor v q). Qed.

Lemma convertSampleValue_floor_witness :
  convertSampleValue (Binary32.of_decimal 25 10) = Some 40.
Proof.
  exact (convertSampleValue_floor (Binary32.of_decimal 25 10) _
           eq_refl eq_refl eq_refl eq_refl).
Defined.

(** X13: outside that range the conversion has no defined result: for a
    number of at most [-1/16] or at least [2^28], for an infinity and for
    NaN the product does not fit a [std::uint32_t]. *)
Theorem convertSampleValue_undefined (v : spec_float) :
  Binary32.valid v = true ->
  (forall q, to_Q v = Some q ->
             (q <= -1 # 16)%Q \/ (inject_Z (2 ^ 28) <= q)%Q) ->
  convertSampleValue v = None.
Proof.
  intros Hv Hout. destruct v as [s | s | | s m e].
  - destruct (Hout 0%Q eq_refl) as [H | H]; unfold Qle in H; cbn in H; lia.
  - reflexivity.
  - reflexivity.
  - rewrite (convertSampleValue_finite s m e Hv). cbv zeta.
    pose proof (Pos2Z.is_pos m) as Hm.
    destruct (to_Q (S754_finite s m e)) as [q |] eqn:Hq; [| discriminate Hq].
    specialize (Hout q eq_refl).
    destruct (to_Q_finite s m e q Hq) as [[He ->] | [He ->]].
    + assert (Hp : 0 < 2 ^ e) by (apply Z.pow_pos_nonneg; lia).
      rewrite Z.shiftl_mul_pow2 by lia.
      replace (Zpos m * 2 ^ (e + 4)) with (16 * (Zpos m * 2 ^ e))
        by (rewrite Z.pow_add_r by lia; change (2 ^ 4) with 16; ring).
      unfold Qle in Hout. cbn [Qnum Qden inject_Z] in Hout.
      destruct s; cbn [cond_Zopp] in Hout.
      * destruct (Z.eqb_spec (16 * (Zpos m * 2 ^ e)) 0); [nia | reflexivity].
      * destruct (Z.ltb_spec (16 * (Zpos m * 2 ^ e)) (2 ^ 32)); [| reflexivity].
        change (2 ^ 32) with (16 * 2 ^ 28) in *. nia.
    + assert (Hp : 0 < 2 ^ (- e)) by (apply Z.pow_pos_nonneg; lia).
      rewrite shiftl_sixteenth by exact He.
      unfold Qle in Hout. cbn [Qnum Qden inject_Z] in Hout.
      rewrite Z2Pos.id in Hout by exact Hp.
      destruct s; cbn [cond_Zopp] in Hout.
      * destruct (Z.eqb_spec (16 * Zpos m / 2 ^ (- e)) 0) as [H0 | H0];
          [| reflexivity].
        apply Z.div_small_iff in H0; [| lia]. lia.
      * destruct (Z.ltb_spec (16 * Zpos m / 2 ^ (- e)) (2 ^ 32)) as [Hlt | Hge];
          [| reflexivity].
        destruct Hout as [H | H]; [lia |].
        exfalso. apply (Z.lt_irrefl (2 ^ 32)).
        eapply Z.le_lt_trans; [| exact Hlt].
        apply Z.div_le_lower_bound; [lia |].
        change (2 ^ 32) with (16 * 2 ^ 28). nia.
Qed.

Lemma convertSampleValue_undefined_witness :
  convertSampleValue (Binary32.of_Z (-1)) = None /\
  convertSampleValue (Binary32.of_Z (2 ^ 28)) = None /\
  convertSampleValue S754_nan = None.
Proof.
  split; [| split].
  - apply (convertSampleValue_undefined (Binary32.of_Z (-1)) eq_refl).
    intros q [= <-]. left. vm_compute. discriminate.
  - apply (convertSampleValue_undefined (Binary32.of_Z (2 ^ 28)) eq_refl).
    intros q [= <-]. right. vm_compute. discriminate.
  - apply (convertSampleValue_undefined S754_nan eq_refl).
    intros q H. discriminate H.
Defined.

(** X14: the conversion does not cap its result at 16: from [17/16] on
    (and below [2^28]) it returns more than 16. *)
Theorem convertSampleValue_exceeds_16 (v : spec_float) (q : Q) :
  Binary32.valid v = true -> to_Q v = Some q ->
  (17 # 16 <= q)%Q -> (q < inject_Z (2 ^ 28))%Q ->
  exists n, convertSampleValue v = Some n /\ 16 < n.
Proof.
  intros Hv Hq Hlo Hhi. eexists. split.
  - apply (convertSampleValue_Qfloor v q Hv Hq); [| exact Hhi].
    eapply Qlt_le_trans; [| exact Hlo]. reflexivity.
  - apply Z.lt_le_trans with 17; [lia |].
    apply Z.le_trans with (Qfloor (inject_Z 16 * q)); [| lia].
    change 17 with (Qfloor (inject_Z 17)).
    apply Qfloor_resp_le.
    unfold Qle in *. cbn [Qnum Qden inject_Z Qmult] in *. lia.
Qed.

Lemma convertSampleValue_exceeds_16_witness :
  exists n, convertSampleValue (Binary32.of_Z 2) = Some n /\ 16 < n.
Proof.
  apply (convertSampleValue_exceeds_16 (Binary32.of_Z 2) _ eq_refl eq_refl);
    [vm_compute; discriminate | reflexivity].
Defined.

(** ** The range of the published slider values *)

(** Rounding never crosses a representable number: a mantissa [P] at
    exponent [E] whose value is at most that of the normal number
    [mc * 2^ec] rounds to a number of at most that magnitude. *)
Lemma round_le_representable (s : bool) (P : positive) (E : Z)
    (mc : positive) (ec : Z) :
  -149 <= ec <= 103 -> 2 ^ 23 <= Zpos mc < 2 ^ 24 -> E <= ec ->
  Zpos P <= Zpos mc * 2 ^ (ec - E) ->
  let r := binary_round_aux 24 128 s (Zpos P) E loc_Exact in
  r = S754_zero s \/
  exists m' e',
    r = S754_finite s m' e' /\ Zpos m' < 2 ^ 24 /\
    (e' < ec \/ (e' = ec /\ Zpos m' <= Zpos mc)).
Proof.
  intros Hec Hmc HE HP r. subst r.
  pose proof (digits2_pos_bounds P) as [Hlo Hhi].
  pose proof (Pos2Z.is_pos (digits2_pos P)) as Hdpos.
  set (d := Zpos (digits2_pos P)) in *.
  assert (Hd : d + E - 24 <= ec).
  { assert (H : 2 ^ (d - 1) < 2 ^ (24 + (ec - E))).
    { eapply Z.le_lt_trans; [exact Hlo |].
      eapply Z.le_lt_trans; [exact HP |].
      rewrite Z.pow_add_r by lia.
      apply Z.mul_lt_mono_pos_r; [apply Z.pow_pos_nonneg; lia | lia]. }
    apply Z.pow_lt_mono_r_iff in H; lia. }
  remember (fexp 24 128 (d + E)) as E' eqn:HE'.
  assert (HE'max : E' = Z.max (d + E - 24) (-149))
    by (rewrite HE'; unfold fexp, emin; lia).
  destruct (Z.le_gt_cases (E' - E) 0) as [Hn | Hn].
  - (* no digit is discarded *)
    rewrite (binary_round_aux_noshift s P E loc_Exact 0 1);
      [| lia | reflexivity | fold d; rewrite <- HE'; exact Hn].
    change (round_half_even (Zpos P) 0 1) with (Zpos P).
    assert (HP24 : Zpos P < 2 ^ 24).
    { eapply Z.lt_le_trans; [exact Hhi |]. apply Z.pow_le_mono_r; lia. }
    rewrite renormalise_spec by lia.
    cbn [Z.eqb]. replace (Zpos P <? 2 ^ 24) with true
      by (symmetry; apply Z.ltb_lt; exact HP24).
    right. exists P, E. split; [reflexivity |]. split; [exact HP24 |].
    destruct (Z.eq_dec E ec) as [-> | Hne]; [right | left; lia].
    split; [reflexivity |]. rewrite Z.sub_diag in HP. lia.
  - (* [n] digits are discarded *)
    set (n := E' - E) in *.
    rewrite (binary_round_aux_shift s P E n);
      [| fold d; rewrite <- HE'; reflexivity | lia].
    replace (E + n) with E' by (unfold n; lia).
    assert (Hpn : 0 < 2 ^ n) by (apply Z.pow_pos_nonneg; lia).
    pose proof (Z.mod_pos_bound (Zpos P) (2 ^ n) Hpn) as Hrem.
    pose proof (Z.div_mod (Zpos P) (2 ^ n) ltac:(lia)) as Hdm.
    set (q := Zpos P / 2 ^ n) in *. set (rem := Zpos P mod 2 ^ n) in *.
    destruct (round_half_even_bounds q rem (2 ^ n) Hrem) as [[HR1 HR2] _].
    set (K := Zpos mc * 2 ^ (ec - E')).
    assert (HK : 2 ^ n * K = Zpos mc * 2 ^ (ec - E)).
    { unfold K. replace (ec - E) with (n + (ec - E')) by (unfold n; lia).
      rewrite Z.pow_add_r by lia. ring. }
    assert (Hq0 : 0 <= q) by (apply Z.div_pos; lia).
    assert (HqK : q <= K) by (apply Z.div_le_upper_bound; lia).
    assert (HRK : round_half_even q rem (2 ^ n) <= K).
    { destruct (Z.eq_dec rem 0) as [H0 | H0].
      - rewrite round_half_even_below_half by lia. exact HqK.
      - assert (q < K) by nia. lia. }
    assert (Hq24 : q < 2 ^ 24).
    { apply Z.div_lt_upper_bound; [lia |].
      eapply Z.lt_le_trans; [exact Hhi |].
      rewrite <- Z.pow_add_r by lia. apply Z.pow_le_mono_r; lia. }
    rewrite renormalise_spec by lia.
    set (R := round_half_even q rem (2 ^ n)) in *.
    destruct (Z.eqb_spec R 0) as [HR0 | HR0]; [left; reflexivity | right].
    assert (HKle : ec = E' -> K = Zpos mc).
    { intros ->. unfold K. rewrite Z.sub_diag. lia. }
    destruct (Z.ltb_spec R (2 ^ 24)) as [Hlt | Hge].
    + exists (Z.to_pos R), E'. split; [reflexivity |].
      rewrite Z2Pos.id by lia. split; [exact Hlt |].
      destruct (Z.eq_dec E' ec) as [He | He]; [right | left; lia].
      split; [exact He |]. rewrite <- HKle by congruence. exact HRK.
    + exists 8388608%positive, (E' + 1). split; [reflexivity |].
      split; [reflexivity |].
      assert (E' <> ec).
      { intros He. rewrite HKle in HRK by congruence. lia. }
      destruct (Z.eq_dec (E' + 1) ec) as [He | He]; [right | left; lia].
      split; [exact He |]. change (Zpos 8388608) with (2 ^ 23). lia.
Qed.

(** A number of the unit interval times a normal constant of binary32
    lies between 0 and the constant, in either order of the factors. *)
Lemma mul_unit_interval (v : spec_float) (mc : positive) (ec : Z) :
  in_unit_interval v -> -149 <= ec <= 103 -> 2 ^ 23 <= Zpos mc < 2 ^ 24 ->
  let c := S754_finite false mc ec in
  (Binary32.leb Binary32.zero (Binary32.mul v c) = true /\
   Binary32.leb (Binary32.mul v c) c = true) /\
  Binary32.mul c v = Binary32.mul v c.
Proof.
  intros Hv Hec Hmc c. subst c.
  destruct (in_unit_interval_inv v Hv) as [[s ->] | (m & e & -> & Hb & He)].
  - destruct s; (split; [split |]; reflexivity).
  - split.
    + unfold Binary32.mul, SFmul. cbn [xorb].
      change Binary32.prec with 24. change Binary32.emax with 128.
      destruct (bounded_inv m e Hb) as (Hr & _ & _).
      pose proof (mantissa_lt_2_24 m e Hb) as Hm.
      assert (Hm1 : Zpos m <= 2 ^ (- e)).
      { destruct He as [He | [-> Hm23]]; [| exact Hm23].
        apply Z.lt_le_incl. eapply Z.lt_le_trans; [exact Hm |].
        apply Z.pow_le_mono_r; lia. }
      destruct (round_le_representable false (m * mc) (e + ec) mc ec Hec Hmc)
        as [-> | (m' & e' & -> & _ & Hle)].
      * lia.
      * replace (ec - (e + ec)) with (- e) by lia.
        rewrite Pos2Z.inj_mul. nia.
      * split; reflexivity.
      * split; [reflexivity |]. apply leb_finite_pos.
        destruct Hle as [Hlt | [-> Hle]]; [left; exact Hlt | right].
        split; [reflexivity | exact Hle].
    + unfold Binary32.mul, SFmul. cbn [xorb].
      rewrite Pos.mul_comm, Z.add_comm. reflexivity.
Qed.

(** X15: on the form the constructor returns, the field-of-view, gamma,
    X, Y and lambda sliders publish, for a slider value between 0 and 1,
    exactly one packet, on the slider's own channel, after the packets
    already queued; its payload lies between 0 and the slider's scale
    (360, 4, 1280, 720, 100): rounding never takes it out of that
    range. *)
Theorem slider_payload_in_range (sender0 out : PacketMuxer)
    (this : ControlsForm) (s : slider_id) (scale v : spec_float)
    (sender : PacketMuxer) :
  ControlsForm_new sender0 = Some (this, out) ->
  slider_scale s = Some scale -> in_unit_interval v ->
  exists cb p,
    m_callback (sliders (widgets this) s) = Some cb /\
    cb v sender = sender ++ [(slider_channel s, VFloat p)] /\
    Binary32.leb Binary32.zero p = true /\ Binary32.leb p scale = true.
Proof.
  intros Hnew Hs Hv. rewrite ControlsForm_new_eq in Hnew.
  injection Hnew as <- _.
  assert (Hrange : forall mc ec,
             scale = S754_finite false mc ec ->
             -149 <= ec <= 103 -> 2 ^ 23 <= Zpos mc < 2 ^ 24 ->
             (Binary32.leb Binary32.zero (Binary32.mul v scale) = true /\
              Binary32.leb (Binary32.mul v scale) scale = true) /\
             Binary32.mul scale v = Binary32.mul v scale).
  { intros mc ec -> Hec Hmc. exact (mul_unit_interval v mc ec Hv Hec Hmc). }
  destruct s; cbn [slider_scale] in Hs; try discriminate Hs;
    injection Hs as <-.
  - destruct (Hrange 11796480%positive (-15)) as [[H0 H1] _];
      [reflexivity | lia | split; [apply Z.leb_le | apply Z.ltb_lt]; reflexivity |].
    exists fov_callback, (Binary32.mul v f360).
    split; [reflexivity |]. split; [reflexivity |]. split; assumption.
  - destruct (Hrange 8388608%positive (-21)) as [[H0 H1] Hc];
      [reflexivity | lia | split; [apply Z.leb_le | apply Z.ltb_lt]; reflexivity |].
    exists gamma_callback, (Binary32.mul f4 v).
    split; [reflexivity |]. split; [reflexivity |].
    rewrite Hc. split; assumption.
  - destruct (Hrange 10485760%positive (-13)) as [[H0 H1] _];
      [reflexivity | lia | split; [apply Z.leb_le | apply Z.ltb_lt]; reflexivity |].
    exists X_callback, (Binary32.mul v (Binary32.of_Z 1280)).
    split; [reflexivity |]. split; [reflexivity |]. split; assumption.
  - destruct (Hrange 11796480%positive (-14)) as [[H0 H1] _];
      [reflexivity | lia | split; [apply Z.leb_le | apply Z.ltb_lt]; reflexivity |].
    exists Y_callback, (Binary32.mul v (Binary32.of_Z 720)).
    split; [reflexivity |]. split; [reflexivity |]. split; assumption.
  - destruct (Hrange 13107200%positive (-17)) as [[H0 H1] _];
      [reflexivity | lia | split; [apply Z.leb_le | apply Z.ltb_lt]; reflexivity |].
    exists lambda1_callback, (Binary32.mul v (Binary32.of_Z 100)).
    split; [reflexivity |]. split; [reflexivity |]. split; assumption.
  - destruct (Hrange 13107200%positive (-17)) as [[H0 H1] _];
      [reflexivity | lia | split; [apply Z.leb_le | apply Z.ltb_lt]; reflexivity |].
    exists lambda2_callback, (Binary32.mul v (Binary32.of_Z 100)).
    split; [reflexivity |]. split; [reflexivity |]. split; assumption.
Qed.

Lemma slider_payload_in_range_witness :
  exists cb p,
    m_callback (sliders (widgets constructed_form) fovSlider) = Some cb /\
    cb (default_value fovSlider) [] = [("fov"%string, VFloat p)] /\
    Binary32.leb Binary32.zero p = true /\ Binary32.leb p f360 = true.
Proof.
  apply (slider_payload_in_range [] _ constructed_form fovSlider f360
           (default_value fovSlider) [] (ControlsForm_new_eq []));
    [reflexivity | split; [| split]; reflexivity].
Defined.

(** ** The range of the published exposure *)

Lemma shl_align_spec (mx : positive) (ex ex' : Z) :
  snd (shl_align mx ex ex') = Z.min ex ex' /\
  Zpos (fst (shl_align mx ex ex'))
  = Zpos mx * 2 ^ (ex - Z.min ex ex').
Proof.
  unfold shl_align. destruct (ex' - ex) as [| d | d] eqn:Ed; cbn [fst snd].
  - rewrite Z.min_l by lia. rewrite Z.sub_diag. lia.
  - rewrite Z.min_l by lia. rewrite Z.sub_diag. lia.
  - rewrite Z.min_r by lia. split; [reflexivity |].
    rewrite Pos2Nat.inj_iter.
    change (nat_rect (fun _ : nat => positive) mx (fun _ : nat => xO) (Pos.to_nat d))
      with (Nat.iter (Pos.to_nat d) xO mx).
    rewrite Zpos_iter_xO, positive_nat_Z. f_equal. f_equal. lia.
Qed.

(** [round_le_representable] for a mantissa that is first aligned. *)
Lemma binary_round_le_representable (s : bool) (P : positive) (E : Z)
    (mc : positive) (ec : Z) :
  -149 <= ec <= 103 -> 2 ^ 23 <= Zpos mc < 2 ^ 24 -> E <= ec ->
  Zpos P <= Zpos mc * 2 ^ (ec - E) ->
  let r := binary_round 24 128 s P E in
  r = S754_zero s \/
  exists m' e',
    r = S754_finite s m' e' /\ Zpos m' < 2 ^ 24 /\
    (e' < ec \/ (e' = ec /\ Zpos m' <= Zpos mc)).
Proof.
  intros Hec Hmc HE HP. unfold binary_round.
  pose proof (shl_align_spec P E (fexp 24 128 (Zpos (digits2_pos P) + E)))
    as [Hez Hmz].
  destruct (shl_align P E (fexp 24 128 (Zpos (digits2_pos P) + E)))
    as [mz ez]. cbn [fst snd] in Hez, Hmz.
  apply round_le_representable; [exact Hec | exact Hmc | lia |].
  rewrite Hmz, <- Hez.
  replace (ec - ez) with ((ec - E) + (E - ez)) by lia.
  rewrite Z.pow_add_r by lia.
  assert (0 < 2 ^ (E - ez)) by (apply Z.pow_pos_nonneg; lia).
  nia.
Qed.

(** A number of at most one half in magnitude. *)
Lemma sub_half_bounded (v : spec_float) :
  in_unit_interval v ->
  let r := Binary32.sub v f_half in
  (exists s, r = S754_zero s) \/
  exists s m' e',
    r = S754_finite s m' e' /\ Zpos m' < 2 ^ 24 /\
    (e' < -24 \/ (e' = -24 /\ Zpos m' <= 2 ^ 23)).
Proof.
  intros Hv r. subst r.
  change f_half with (S754_finite false 8388608 (-24)).
  destruct (in_unit_interval_inv v Hv) as [[s ->] | (m & e & -> & Hb & He)].
  - right. exists true, 8388608%positive, (-24).
    split; [destruct s; reflexivity |]. split; [reflexivity |].
    right. split; [reflexivity |]. apply Z.le_refl.
  - unfold Binary32.sub, SFsub. cbn [cond_Zopp].
    change Binary32.prec with 24. change Binary32.emax with 128.
    destruct (bounded_inv m e Hb) as (Hr & _ & _).
    pose proof (mantissa_lt_2_24 m e Hb) as Hm.
    assert (Hm1 : Zpos m <= 2 ^ (- e)).
    { destruct He as [He | [-> Hm23]]; [| exact Hm23].
      apply Z.lt_le_incl. eapply Z.lt_le_trans; [exact Hm |].
      apply Z.pow_le_mono_r; lia. }
    set (ez := Z.min e (-24)).
    destruct (shl_align_spec m e ez) as [_ H1].
    destruct (shl_align_spec 8388608 (-24) ez) as [_ H2].
    rewrite Z.min_r in H1 by (unfold ez; lia).
    rewrite Z.min_r in H2 by (unfold ez; lia).
    set (a := Zpos (fst (shl_align m e ez))) in *.
    set (b := Zpos (fst (shl_align 8388608 (-24) ez))) in *.
    change (Zpos 8388608) with (2 ^ 23) in H2.
    assert (Hez : ez <= -24) by (unfold ez; lia).
    assert (Hez' : ez <= e) by (unfold ez; lia).
    assert (Ha : 0 < a <= 2 * b).
    { rewrite H1, H2. split.
      - apply Z.mul_pos_pos; [lia | apply Z.pow_pos_nonneg; lia].
      - assert (Hl : 2 ^ (- e) * 2 ^ (e - ez) = 2 ^ (- ez))
          by (rewrite <- Z.pow_add_r by lia; f_equal; lia).
        assert (Hr' : 2 * (2 ^ 23 * 2 ^ (-24 - ez)) = 2 ^ (- ez)).
        { replace (- ez) with (1 + (23 + (-24 - ez))) by lia.
          rewrite !Z.pow_add_r by lia. reflexivity. }
        rewrite Hr', <- Hl.
        apply Z.mul_le_mono_nonneg_r; [apply Z.pow_nonneg; lia | exact Hm1]. }
    assert (Hb0 : 0 < b).
    { rewrite H2. apply Z.mul_pos_pos; [lia | apply Z.pow_pos_nonneg; lia]. }
    destruct (a - b) as [| p | p] eqn:Hd; cbn [binary_normalize].
    + left. exists false. reflexivity.
    + destruct (binary_round_le_representable false p ez 8388608 (-24))
        as [-> | (m' & e' & -> & Hm' & Hle)];
        [lia | split; [apply Z.le_refl | reflexivity] | exact Hez | | |].
      * change (Zpos 8388608) with (2 ^ 23). rewrite <- H2. lia.
      * left. exists false. reflexivity.
      * right. exists false, m', e'. split; [reflexivity |].
        split; [exact Hm' | exact Hle].
    + destruct (binary_round_le_representable true p ez 8388608 (-24))
        as [-> | (m' & e' & -> & Hm' & Hle)];
        [lia | split; [apply Z.le_refl | reflexivity] | exact Hez | | |].
      * change (Zpos 8388608) with (2 ^ 23). rewrite <- H2. lia.
      * left. exists true. reflexivity.
      * right. exists true, m', e'. split; [reflexivity |].
        split; [exact Hm' | exact Hle].
Qed.

(** The order on negative canonical numbers. *)
Lemma leb_finite_neg (m1 m2 : positive) (e1 e2 : Z) :
  SFleb (S754_finite true m1 e1) (S754_finite true m2 e2) = true <->
  e2 < e1 \/ (e1 = e2 /\ (m2 <= m1)%positive).
Proof.
  unfold SFleb, SFcompare.
  change (Pos.compare_cont Eq m1 m2) with (Pos.compare m1 m2).
  destruct (Z.compare_spec e1 e2) as [He | He | He].
  - destruct (Pos.compare_spec m1 m2) as [Hm | Hm | Hm]; cbn [CompOpp];
      (split; [intros H; first [discriminate H | right; split; [exact He | lia]]
              | intros [H | [_ H]]; first [reflexivity | lia]]).
  - split; [discriminate | intros [H | [H _]]; lia].
  - split; [intros _; left; exact He | reflexivity].
Qed.

(** Four times a number of at most one half in magnitude lies between
    -2 and 2. *)
Lemma exposure_range (v : spec_float) :
  in_unit_interval v ->
  let p := Binary32.mul f4 (Binary32.sub v f_half) in
  Binary32.leb (Binary32.of_Z (-2)) p = true /\
  Binary32.leb p (Binary32.of_Z 2) = true.
Proof.
  intros Hv p. subst p.
  change (Binary32.of_Z (-2)) with (S754_finite true 8388608 (-22)).
  change (Binary32.of_Z 2) with (S754_finite false 8388608 (-22)).
  change f4 with (S754_finite false 8388608 (-21)).
  destruct (sub_half_bounded v Hv)
    as [[s ->] | (s & m' & e' & -> & Hm' & Hle)].
  - destruct s; split; reflexivity.
  - unfold Binary32.mul, SFmul. cbn [xorb].
    change Binary32.prec with 24. change Binary32.emax with 128.
    pose proof (Pos2Z.is_pos m') as Hpos.
    assert (Hm1 : Zpos m' <= 2 ^ (-1 - e')).
    { destruct Hle as [He | [-> Hm23]]; [| exact Hm23].
      apply Z.lt_le_incl. eapply Z.lt_le_trans; [exact Hm' |].
      apply Z.pow_le_mono_r; lia. }
    destruct (round_le_representable s (8388608 * m') (-21 + e') 8388608 (-22))
      as [-> | (m2 & e2 & -> & _ & Hle2)].
    + lia.
    + split; [apply Z.le_refl | reflexivity].
    + lia.
    + replace (-22 - (-21 + e')) with (-1 - e') by lia.
      rewrite Pos2Z.inj_mul.
      apply Z.mul_le_mono_nonneg_l; [lia | exact Hm1].
    + destruct s; split; reflexivity.
    + destruct s.
      * split; [| reflexivity]. apply leb_finite_neg.
        destruct Hle2 as [Hlt | [-> Hle2]]; [left; exact Hlt | right].
        split; [reflexivity | exact Hle2].
      * split; [reflexivity |]. apply leb_finite_pos.
        destruct Hle2 as [Hlt | [-> Hle2]]; [left; exact Hlt | right].
        split; [reflexivity | exact Hle2].
Qed.

(** X16: on the form the constructor returns, the exposure slider
    publishes, for a slider value between 0 and 1, exactly one packet, on
    the channel ["exposure"], after the packets already queued; its
    payload [4 * (value - 0.5)] lies between -2 and 2. *)
Theorem exposure_payload_in_range (sender0 out : PacketMuxer)
    (this : ControlsForm) (v : spec_float) (sender : PacketMuxer) :
  ControlsForm_new sender0 = Some (this, out) -> in_unit_interval v ->
  exists cb p,
    m_callback (sliders (widgets this) exposureSlider) = Some cb /\
    cb v sender = sender ++ [("exposure"%string, VFloat p)] /\
    Binary32.leb (Binary32.of_Z (-2)) p = true /\
    Binary32.leb p (Binary32.of_Z 2) = true.
Proof.
  intros Hnew Hv. rewrite ControlsForm_new_eq in Hnew.
  injection Hnew as <- _.
  exists exposure_callback, (Binary32.mul f4 (Binary32.sub v f_half)).
  split; [reflexivity |]. split; [reflexivity |].
  exact (exposure_range v Hv).
Qed.

Lemma exposure_payload_in_range_witness :
  exists cb p,
    m_callback (sliders (widgets constructed_form) exposureSlider) = Some cb /\
    cb Binary32.one [] = [("exposure"%string, VFloat p)] /\
    Binary32.leb (Binary32.of_Z (-2)) p = true /\
    Binary32.leb p (Binary32.of_Z 2) = true.
Proof.
  apply (exposure_payload_in_range [] _ constructed_form Binary32.one []
           (ControlsForm_new_eq [])).
  split; [| split]; reflexivity.
Defined.
